(** * BasePass: a shallow embedding of the passport and stamp contracts

    The development follows the Solidity sources of the repository:
    - [BasePass] (the variant that mints stamps through a separate stamp
      contract, with the one-passport rule and the event-creation cooldown),
    - [EventStamp] (the soulbound, enumerable stamp token),
    - the remaining-time computation of the event-creation form.

    The contracts inherit from OpenZeppelin Contracts 5.0.2 (the release the
    project pins).  The inherited functions that the contracts call are
    embedded in the modules [ERC721], [ERC721Enumerable], [AccessControl],
    [Ownable], [ReentrancyGuard], [ECDSA] and [MessageHashUtils], one
    definition per library function.

    Conventions.
    - [uint256], [address] and [bytes32] are [N]; checked arithmetic reverts
      with [Panic 0x11] where Solidity 0.8 does, [unchecked] blocks wrap.
    - A Solidity [mapping] is a [gmap] read with the zero default.
    - [bytes] values are lists of 8-bit characters; [string] values are
      Rocq strings and [bytes(s).length] is [String.length].
    - A call either returns a value and a new state, or reverts with an
      [Error]; a reverted call leaves no state behind (the EVM rolls the
      whole transaction back), see [transact].
    - [keccak256] and the [ecrecover] precompile are parameters ([Crypto]).
    - The [onERC721Received] hook of a receiving contract is a parameter of
      the environment ([Env]); it is consulted for its answer only.  The
      model is exact for a receiver without code (no hook runs) and for a
      hook that makes no call into the two contracts; what a hook does by
      calling them again while a mint is in progress is not represented.
      The statements that one call changes nothing but what it names are
      therefore made for calls in which no hook runs ([hook_free]).
    - A JavaScript [Number] of the pages is an IEEE 754 double ([Js]). *)

From stdpp Require Import gmap strings list fin_maps.
From Stdlib Require Import NArith Lia Ascii String.

Open Scope N_scope.

(** ** Solidity values, errors and the result of a call *)

Module Evm.

Abbreviation uint256 := N (only parsing).
Abbreviation address := N (only parsing).
Abbreviation bytes32 := N (only parsing).
Abbreviation bytes := (list ascii) (only parsing).

Definition MAX_UINT256 : N := 2 ^ 256 - 1.

(** Revert reasons: [Error(string)] from [require(cond, "...")], [Panic]
    from checked arithmetic, and the custom errors of the library. *)
Inductive Error : Type :=
| Error_string (reason : string)
| Panic (code : N)
| ERC721InvalidOwner (owner : address)
| ERC721NonexistentToken (tokenId : uint256)
| ERC721IncorrectOwner (sender : address) (tokenId : uint256) (owner : address)
| ERC721InvalidSender (sender : address)
| ERC721InvalidReceiver (receiver : address)
| ERC721InsufficientApproval (operator : address) (tokenId : uint256)
| ERC721InvalidApprover (approver : address)
| ERC721InvalidOperator (operator : address)
| ERC721OutOfBoundsIndex (owner : address) (index : uint256)
| ERC721EnumerableForbiddenBatchMint
| ECDSAInvalidSignature
| ECDSAInvalidSignatureLength (length : uint256)
| ECDSAInvalidSignatureS (s : bytes32)
| AccessControlUnauthorizedAccount (account : address) (neededRole : bytes32)
| AccessControlBadConfirmation
| OwnableUnauthorizedAccount (account : address)
| OwnableInvalidOwner (owner : address)
| ReentrancyGuardReentrantCall.

Inductive Result (A : Type) : Type :=
| Ok (a : A)
| Revert (e : Error).
Arguments Ok {A} a.
Arguments Revert {A} e.

#[export] Instance Result_ret : MRet Result := fun A a => Ok a.
#[export] Instance Result_bind : MBind Result := fun A B f m =>
  match m with
  | Ok a => f a
  | Revert e => Revert e
  end.
#[export] Instance Result_fmap : FMap Result := fun A B f m =>
  match m with
  | Ok a => Ok (f a)
  | Revert e => Revert e
  end.

Definition succeeds {A} (r : Result A) : Prop := exists a, r = Ok a.
Definition reverts_with {A} (r : Result A) (e : Error) : Prop := r = Revert e.
Definition reverts {A} (r : Result A) : Prop := exists e, r = Revert e.

(** [require(cond, reason)] *)
Definition require (cond : bool) (reason : string) : Result unit :=
  if cond then Ok tt else Revert (Error_string reason).

(** [if (cond) revert err;] *)
Definition revert_if (cond : bool) (err : Error) : Result unit :=
  if cond then Revert err else Ok tt.

(** Checked [a + b] and [a - b] on [uint256] (Solidity 0.8). *)
Definition checked_add (a b : uint256) : Result uint256 :=
  if a + b <=? MAX_UINT256 then Ok (a + b) else Revert (Panic 17).

Definition checked_sub (a b : uint256) : Result uint256 :=
  if b <=? a then Ok (a - b) else Revert (Panic 17).

(** [unchecked { a + b }] and [unchecked { a - b }]: wrap-around. *)
Definition unchecked_add (a b : uint256) : uint256 := (a + b) mod 2 ^ 256.
Definition unchecked_sub (a b : uint256) : uint256 :=
  (a + 2 ^ 256 - b mod 2 ^ 256) mod 2 ^ 256.

(** Reading a mapping: an absent key reads as zero / false. *)
Definition get `{Countable K} (m : gmap K N) (k : K) : N := default 0 (m !! k).
Definition getb `{Countable K} (m : gmap K bool) (k : K) : bool :=
  default false (m !! k).

(** Big-endian encoding of a number on [len] bytes, as [abi.encodePacked]
    lays out a [uint256] or [bytes32] (with [len = 32]). *)
Fixpoint le_bytes (len : nat) (n : N) : bytes :=
  match len with
  | O => []
  | S k => ascii_of_N (n mod 256) :: le_bytes k (n / 256)
  end.

Definition be_bytes (len : nat) (n : N) : bytes := rev (le_bytes len n).

Fixpoint le_value (bs : bytes) : N :=
  match bs with
  | [] => 0
  | b :: rest => N_of_ascii b + 256 * le_value rest
  end.

(** The number held by a big-endian byte string ([mload] of a 32-byte word). *)
Definition be_value (bs : bytes) : N := le_value (rev bs).

(** What the chain supplies to a call: the block, and the code found at an
    address.  [onERC721Received to operator from tokenId data] is the
    outcome of calling that hook on the contract at [to]. *)
Inductive HookResult : Type :=
| HookReturned (retval : N)
| HookRevertedEmpty
| HookReverted (reason : Error).

Record Env : Type := {
  block_timestamp : uint256;
  block_chainid : uint256;
  code_length : address -> N;
  onERC721Received : address -> address -> address -> uint256 -> bytes -> HookResult
}.

(** [IERC721Receiver.onERC721Received.selector] *)
Definition onERC721Received_selector : N := 353073666.

(** The two primitives the contracts use and that are not programs of the
    repository: the hash function and the signature-recovery precompile
    (which yields the zero address when it recovers nothing). *)
Record Crypto : Type := {
  keccak256 : bytes -> bytes32;
  ecrecover : bytes32 -> N -> bytes32 -> bytes32 -> address
}.

End Evm.
Import Evm.

(** ** OpenZeppelin 5.0.2: [ECDSA] and [MessageHashUtils] *)

Module ECDSA.

(** Half of the order of secp256k1: signatures with a higher [s] are
    rejected as malleable. *)
Definition HALF_ORDER : N :=
  57896044618658097711785492504343953926418782139537452191302581570759080747168.

(** [tryRecover(hash, v, r, s)] followed by [_throwError]. *)
Definition recover_vrs (C : Crypto) (hash : bytes32) (v : N) (r s : bytes32)
  : Result address :=
  if HALF_ORDER <? s then Revert (ECDSAInvalidSignatureS s)
  else
    let signer := ecrecover C hash v r s in
    if signer =? 0 then Revert ECDSAInvalidSignature else Ok signer.

(** [recover(hash, signature)]: a 65-byte signature is read as
    [r (32 bytes) | s (32 bytes) | v (1 byte)]. *)
Definition recover (C : Crypto) (hash : bytes32) (signature : bytes)
  : Result address :=
  if N.of_nat (List.length signature) =? 65 then
    let r := be_value (take 32 signature) in
    let s := be_value (take 32 (drop 32 signature)) in
    let v := be_value (take 1 (drop 64 signature)) in
    recover_vrs C hash v r s
  else Revert (ECDSAInvalidSignatureLength (N.of_nat (List.length signature))).

End ECDSA.

Module MessageHashUtils.

(** The 28 bytes ["\x19Ethereum Signed Message:\n32"]. *)
Definition ETH_PREFIX : bytes :=
  ascii_of_N 25 :: list_ascii_of_string "Ethereum Signed Message:"
    ++ [ascii_of_N 10] ++ list_ascii_of_string "32".

(** [toEthSignedMessageHash(bytes32 messageHash)] *)
Definition toEthSignedMessageHash (C : Crypto) (messageHash : bytes32) : bytes32 :=
  keccak256 C (ETH_PREFIX ++ be_bytes 32 messageHash).

End MessageHashUtils.

(** ** OpenZeppelin 5.0.2: [ERC721] *)

Module ERC721.

Record Storage : Type := {
  _owners : gmap N N;                      (* tokenId => owner *)
  _balances : gmap N N;                    (* owner => token count *)
  _tokenApprovals : gmap N N;              (* tokenId => approved address *)
  _operatorApprovals : gmap (N * N) bool   (* owner => operator => approved *)
}.

Definition empty : Storage :=
  {| _owners := ∅; _balances := ∅; _tokenApprovals := ∅; _operatorApprovals := ∅ |}.

Definition _ownerOf (s : Storage) (tokenId : uint256) : address :=
  get (_owners s) tokenId.

Definition _getApproved (s : Storage) (tokenId : uint256) : address :=
  get (_tokenApprovals s) tokenId.

Definition isApprovedForAll (s : Storage) (owner operator : address) : bool :=
  getb (_operatorApprovals s) (owner, operator).

Definition balanceOf (s : Storage) (owner : address) : Result uint256 :=
  _ ← revert_if (owner =? 0) (ERC721InvalidOwner 0);
  mret (get (_balances s) owner).

Definition _requireOwned (s : Storage) (tokenId : uint256) : Result address :=
  let owner := _ownerOf s tokenId in
  _ ← revert_if (owner =? 0) (ERC721NonexistentToken tokenId);
  mret owner.

Definition ownerOf (s : Storage) (tokenId : uint256) : Result address :=
  _requireOwned s tokenId.

Definition getApproved (s : Storage) (tokenId : uint256) : Result address :=
  _ ← _requireOwned s tokenId;
  mret (_getApproved s tokenId).

Definition _isAuthorized (s : Storage) (owner spender : address) (tokenId : uint256)
  : bool :=
  negb (spender =? 0)
  && ((owner =? spender) || isApprovedForAll s owner spender
      || (_getApproved s tokenId =? spender)).

Definition _checkAuthorized (s : Storage) (owner spender : address)
  (tokenId : uint256) : Result unit :=
  if _isAuthorized s owner spender tokenId then Ok tt
  else if owner =? 0 then Revert (ERC721NonexistentToken tokenId)
  else Revert (ERC721InsufficientApproval spender tokenId).

Definition set_owner (s : Storage) (tokenId : uint256) (to : address) : Storage :=
  {| _owners := <[tokenId := to]> (_owners s);
     _balances := _balances s;
     _tokenApprovals := _tokenApprovals s;
     _operatorApprovals := _operatorApprovals s |}.

Definition set_balance (s : Storage) (account : address) (b : uint256) : Storage :=
  {| _owners := _owners s;
     _balances := <[account := b]> (_balances s);
     _tokenApprovals := _tokenApprovals s;
     _operatorApprovals := _operatorApprovals s |}.

Definition set_tokenApproval (s : Storage) (tokenId : uint256) (to : address)
  : Storage :=
  {| _owners := _owners s;
     _balances := _balances s;
     _tokenApprovals := <[tokenId := to]> (_tokenApprovals s);
     _operatorApprovals := _operatorApprovals s |}.

Definition set_operatorApproval (s : Storage) (owner operator : address)
  (approved : bool) : Storage :=
  {| _owners := _owners s;
     _balances := _balances s;
     _tokenApprovals := _tokenApprovals s;
     _operatorApprovals := <[(owner, operator) := approved]> (_operatorApprovals s) |}.

(** [_approve(to, tokenId, auth, emitEvent)] *)
Definition _approve (s : Storage) (to : address) (tokenId : uint256)
  (auth : address) (emitEvent : bool) : Result Storage :=
  _ ← (if emitEvent || negb (auth =? 0) then
         owner ← _requireOwned s tokenId;
         revert_if (negb (auth =? 0) && negb (owner =? auth)
                    && negb (isApprovedForAll s owner auth))
                   (ERC721InvalidApprover auth)
       else Ok tt);
  mret (set_tokenApproval s tokenId to).

(** [approve(to, tokenId)] called by [sender] *)
Definition approve (sender : address) (to : address) (tokenId : uint256)
  (s : Storage) : Result Storage :=
  _approve s to tokenId sender true.

Definition _setApprovalForAll (s : Storage) (owner operator : address)
  (approved : bool) : Result Storage :=
  _ ← revert_if (operator =? 0) (ERC721InvalidOperator operator);
  mret (set_operatorApproval s owner operator approved).

(** [setApprovalForAll(operator, approved)] called by [sender] *)
Definition setApprovalForAll (sender : address) (operator : address)
  (approved : bool) (s : Storage) : Result Storage :=
  _setApprovalForAll s sender operator approved.

(** The base [_update(to, tokenId, auth)]: returns the previous owner. *)
Definition _update (to : address) (tokenId : uint256) (auth : address)
  (s : Storage) : Result (address * Storage) :=
  let from := _ownerOf s tokenId in
  _ ← (if negb (auth =? 0) then _checkAuthorized s from auth tokenId else Ok tt);
  s1 ← (if negb (from =? 0) then
          s' ← _approve s 0 tokenId 0 false;
          mret (set_balance s' from (unchecked_sub (get (_balances s') from) 1))
        else Ok s);
  let s2 := if negb (to =? 0)
            then set_balance s1 to (unchecked_add (get (_balances s1) to) 1)
            else s1 in
  mret (from, set_owner s2 tokenId to).

(** [_checkOnERC721Received(from, to, tokenId, data)] with [operator] the
    caller of the enclosing function. *)
Definition _checkOnERC721Received (env : Env) (operator from to : address)
  (tokenId : uint256) (data : bytes) : Result unit :=
  if 0 <? code_length env to then
    match onERC721Received env to operator from tokenId data with
    | HookReturned retval =>
        revert_if (negb (retval =? onERC721Received_selector))
                  (ERC721InvalidReceiver to)
    | HookRevertedEmpty => Revert (ERC721InvalidReceiver to)
    | HookReverted reason => Revert reason
    end
  else Ok tt.

(** The functions below call the virtual [_update]; a deriving contract
    supplies its own override as [update], on its own storage [S]. *)
Section Virtual.
Context {S : Type}.
Variable update : address -> uint256 -> address -> S -> Result (address * S).

Definition _mint (to : address) (tokenId : uint256) (st : S) : Result S :=
  _ ← revert_if (to =? 0) (ERC721InvalidReceiver 0);
  '(previousOwner, st') ← update to tokenId 0 st;
  _ ← revert_if (negb (previousOwner =? 0)) (ERC721InvalidSender 0);
  mret st'.

(** [_safeMint(to, tokenId)], i.e. [_safeMint(to, tokenId, "")]. *)
Definition _safeMint (env : Env) (sender : address) (to : address)
  (tokenId : uint256) (st : S) : Result S :=
  st' ← _mint to tokenId st;
  _ ← _checkOnERC721Received env sender 0 to tokenId [];
  mret st'.

Definition transferFrom (sender : address) (from to : address)
  (tokenId : uint256) (st : S) : Result S :=
  _ ← revert_if (to =? 0) (ERC721InvalidReceiver 0);
  '(previousOwner, st') ← update to tokenId sender st;
  _ ← revert_if (negb (previousOwner =? from))
        (ERC721IncorrectOwner from tokenId previousOwner);
  mret st'.

Definition safeTransferFrom (env : Env) (sender : address) (from to : address)
  (tokenId : uint256) (data : bytes) (st : S) : Result S :=
  st' ← transferFrom sender from to tokenId st;
  _ ← _checkOnERC721Received env sender from to tokenId data;
  mret st'.

End Virtual.

End ERC721.

(** ** OpenZeppelin 5.0.2: [ERC721Enumerable] *)

Module ERC721Enumerable.

Record Storage : Type := {
  erc721 : ERC721.Storage;
  _ownedTokens : gmap (N * N) N;     (* owner => index => tokenId *)
  _ownedTokensIndex : gmap N N;      (* tokenId => index in the owner's list *)
  _allTokens : list N;
  _allTokensIndex : gmap N N
}.

Definition empty : Storage :=
  {| erc721 := ERC721.empty; _ownedTokens := ∅; _ownedTokensIndex := ∅;
     _allTokens := []; _allTokensIndex := ∅ |}.

Definition set_erc721 (s : Storage) (e : ERC721.Storage) : Storage :=
  {| erc721 := e; _ownedTokens := _ownedTokens s;
     _ownedTokensIndex := _ownedTokensIndex s;
     _allTokens := _allTokens s; _allTokensIndex := _allTokensIndex s |}.

Definition balanceOf (s : Storage) (owner : address) : Result uint256 :=
  ERC721.balanceOf (erc721 s) owner.

Definition tokenOfOwnerByIndex (s : Storage) (owner : address) (index : uint256)
  : Result uint256 :=
  balance ← balanceOf s owner;
  _ ← revert_if (balance <=? index) (ERC721OutOfBoundsIndex owner index);
  mret (get (_ownedTokens s) (owner, index)).

Definition totalSupply (s : Storage) : uint256 := N.of_nat (List.length (_allTokens s)).

Definition _addTokenToOwnerEnumeration (s : Storage) (to : address)
  (tokenId : uint256) : Result Storage :=
  balance ← balanceOf s to;
  length ← checked_sub balance 1;
  mret {| erc721 := erc721 s;
          _ownedTokens := <[(to, length) := tokenId]> (_ownedTokens s);
          _ownedTokensIndex := <[tokenId := length]> (_ownedTokensIndex s);
          _allTokens := _allTokens s;
          _allTokensIndex := _allTokensIndex s |}.

Definition _addTokenToAllTokensEnumeration (s : Storage) (tokenId : uint256)
  : Storage :=
  {| erc721 := erc721 s;
     _ownedTokens := _ownedTokens s;
     _ownedTokensIndex := _ownedTokensIndex s;
     _allTokens := _allTokens s ++ [tokenId];
     _allTokensIndex := <[tokenId := totalSupply s]> (_allTokensIndex s) |}.

Definition _removeTokenFromOwnerEnumeration (s : Storage) (from : address)
  (tokenId : uint256) : Result Storage :=
  lastTokenIndex ← balanceOf s from;
  let tokenIndex := get (_ownedTokensIndex s) tokenId in
  let '(owned, index) :=
    if negb (tokenIndex =? lastTokenIndex) then
      let lastTokenId := get (_ownedTokens s) (from, lastTokenIndex) in
      (<[(from, tokenIndex) := lastTokenId]> (_ownedTokens s),
       <[lastTokenId := tokenIndex]> (_ownedTokensIndex s))
    else (_ownedTokens s, _ownedTokensIndex s) in
  mret {| erc721 := erc721 s;
          _ownedTokens := delete (from, lastTokenIndex) owned;
          _ownedTokensIndex := delete tokenId index;
          _allTokens := _allTokens s;
          _allTokensIndex := _allTokensIndex s |}.

Definition _removeTokenFromAllTokensEnumeration (s : Storage) (tokenId : uint256)
  : Result Storage :=
  lastTokenIndex ← checked_sub (totalSupply s) 1;
  let tokenIndex := get (_allTokensIndex s) tokenId in
  match _allTokens s !! N.to_nat lastTokenIndex with
  | None => Revert (Panic 50)
  | Some lastTokenId =>
      _ ← revert_if (totalSupply s <=? tokenIndex) (Panic 50);
      mret {| erc721 := erc721 s;
              _ownedTokens := _ownedTokens s;
              _ownedTokensIndex := _ownedTokensIndex s;
              _allTokens := removelast (<[N.to_nat tokenIndex := lastTokenId]> (_allTokens s));
              _allTokensIndex :=
                delete tokenId (<[lastTokenId := tokenIndex]> (_allTokensIndex s)) |}
  end.

(** [ERC721Enumerable._update]: [super._update] is the base [ERC721._update]. *)
Definition _update (to : address) (tokenId : uint256) (auth : address)
  (s : Storage) : Result (address * Storage) :=
  '(previousOwner, e) ← ERC721._update to tokenId auth (erc721 s);
  let s := set_erc721 s e in
  s ← (if previousOwner =? 0 then Ok (_addTokenToAllTokensEnumeration s tokenId)
       else if negb (previousOwner =? to)
            then _removeTokenFromOwnerEnumeration s previousOwner tokenId
            else Ok s);
  s ← (if to =? 0 then _removeTokenFromAllTokensEnumeration s tokenId
       else if negb (previousOwner =? to)
            then _addTokenToOwnerEnumeration s to tokenId
            else Ok s);
  mret (previousOwner, s).

End ERC721Enumerable.

(** ** OpenZeppelin 5.0.2: [AccessControl], [Ownable], [ReentrancyGuard] *)

Module AccessControl.

Record Storage : Type := {
  _roles_hasRole : gmap (N * N) bool;   (* role => account => granted *)
  _roles_adminRole : gmap N N           (* role => admin role *)
}.

Definition empty : Storage := {| _roles_hasRole := ∅; _roles_adminRole := ∅ |}.

Definition DEFAULT_ADMIN_ROLE : bytes32 := 0.

Definition hasRole (s : Storage) (role : bytes32) (account : address) : bool :=
  getb (_roles_hasRole s) (role, account).

Definition _checkRole (s : Storage) (role : bytes32) (account : address)
  : Result unit :=
  revert_if (negb (hasRole s role account))
            (AccessControlUnauthorizedAccount account role).

Definition getRoleAdmin (s : Storage) (role : bytes32) : bytes32 :=
  get (_roles_adminRole s) role.

Definition set_hasRole (s : Storage) (role : bytes32) (account : address)
  (b : bool) : Storage :=
  {| _roles_hasRole := <[(role, account) := b]> (_roles_hasRole s);
     _roles_adminRole := _roles_adminRole s |}.

Definition _grantRole (s : Storage) (role : bytes32) (account : address)
  : Storage :=
  if negb (hasRole s role account) then set_hasRole s role account true else s.

Definition _revokeRole (s : Storage) (role : bytes32) (account : address)
  : Storage :=
  if hasRole s role account then set_hasRole s role account false else s.

Definition grantRole (sender : address) (role : bytes32) (account : address)
  (s : Storage) : Result Storage :=
  _ ← _checkRole s (getRoleAdmin s role) sender;
  mret (_grantRole s role account).

Definition revokeRole (sender : address) (role : bytes32) (account : address)
  (s : Storage) : Result Storage :=
  _ ← _checkRole s (getRoleAdmin s role) sender;
  mret (_revokeRole s role account).

Definition renounceRole (sender : address) (role : bytes32)
  (callerConfirmation : address) (s : Storage) : Result Storage :=
  _ ← revert_if (negb (callerConfirmation =? sender)) AccessControlBadConfirmation;
  mret (_revokeRole s role callerConfirmation).

End AccessControl.

Module Ownable.

(** [onlyOwner] *)
Definition _checkOwner (_owner sender : address) : Result unit :=
  revert_if (negb (_owner =? sender)) (OwnableUnauthorizedAccount sender).

(** [transferOwnership(newOwner)]: the new value of [_owner]. *)
Definition transferOwnership (_owner sender newOwner : address) : Result address :=
  _ ← _checkOwner _owner sender;
  _ ← revert_if (newOwner =? 0) (OwnableInvalidOwner 0);
  mret newOwner.

(** [renounceOwnership()]: the new value of [_owner]. *)
Definition renounceOwnership (_owner sender : address) : Result address :=
  _ ← _checkOwner _owner sender;
  mret 0.

End Ownable.

Module ReentrancyGuard.

Definition NOT_ENTERED : uint256 := 1.
Definition ENTERED : uint256 := 2.

(** [_nonReentrantBefore]: the new value of [_status]. *)
Definition _nonReentrantBefore (_status : uint256) : Result uint256 :=
  _ ← revert_if (_status =? ENTERED) ReentrancyGuardReentrantCall;
  mret ENTERED.

Definition _nonReentrantAfter : uint256 := NOT_ENTERED.

End ReentrancyGuard.

(** ** The stamp contract: [contracts/EventStamp.sol] *)

Module StampMetadata.
Record t : Type := { eventId : uint256; passportId : uint256; timestamp : uint256 }.
Definition zero : t := {| eventId := 0; passportId := 0; timestamp := 0 |}.
End StampMetadata.

Module EventStamp.

(** The events this contract declares. *)
Inductive Log : Type :=
| StampMinted (to : address) (tokenId eventId passportId : uint256).

Record Storage : Type := {
  enumerable : ERC721Enumerable.Storage;
  access : AccessControl.Storage;
  _tokenIdCounter : uint256;
  stampMetadata : gmap N StampMetadata.t;
  emitted : list Log
}.

Definition erc721 (st : Storage) : ERC721.Storage :=
  ERC721Enumerable.erc721 (enumerable st).

Definition stampMetadata_get (st : Storage) (tokenId : uint256) : StampMetadata.t :=
  default StampMetadata.zero (stampMetadata st !! tokenId).

Definition set_enumerable (st : Storage) (e : ERC721Enumerable.Storage) : Storage :=
  {| enumerable := e; access := access st; _tokenIdCounter := _tokenIdCounter st;
     stampMetadata := stampMetadata st; emitted := emitted st |}.

Definition set_erc721 (st : Storage) (e : ERC721.Storage) : Storage :=
  set_enumerable st (ERC721Enumerable.set_erc721 (enumerable st) e).

Definition set_access (st : Storage) (a : AccessControl.Storage) : Storage :=
  {| enumerable := enumerable st; access := a; _tokenIdCounter := _tokenIdCounter st;
     stampMetadata := stampMetadata st; emitted := emitted st |}.

Definition set_tokenIdCounter (st : Storage) (c : uint256) : Storage :=
  {| enumerable := enumerable st; access := access st; _tokenIdCounter := c;
     stampMetadata := stampMetadata st; emitted := emitted st |}.

Definition set_stampMetadata (st : Storage) (tokenId : uint256)
  (m : StampMetadata.t) : Storage :=
  {| enumerable := enumerable st; access := access st;
     _tokenIdCounter := _tokenIdCounter st;
     stampMetadata := <[tokenId := m]> (stampMetadata st); emitted := emitted st |}.

Definition emit (st : Storage) (l : Log) : Storage :=
  {| enumerable := enumerable st; access := access st;
     _tokenIdCounter := _tokenIdCounter st;
     stampMetadata := stampMetadata st; emitted := emitted st ++ [l] |}.

(** [MINTER_ROLE = keccak256("MINTER_ROLE")] *)
Definition MINTER_ROLE (C : Crypto) : bytes32 :=
  keccak256 C (list_ascii_of_string "MINTER_ROLE").

(** The constructor, run by [deployer]. *)
Definition constructor (C : Crypto) (deployer : address) : Storage :=
  let a := AccessControl._grantRole AccessControl.empty
             AccessControl.DEFAULT_ADMIN_ROLE deployer in
  let a := AccessControl._grantRole a (MINTER_ROLE C) deployer in
  {| enumerable := ERC721Enumerable.empty; access := a; _tokenIdCounter := 1;
     stampMetadata := ∅; emitted := [] |}.

(** The override of [_update]: only creation from the null owner passes. *)
Definition _update (to : address) (tokenId : uint256) (auth : address)
  (st : Storage) : Result (address * Storage) :=
  let from := ERC721._ownerOf (erc721 st) tokenId in
  _ ← require (from =? 0) "EventStamp: stamps are non-transferable (soulbound)";
  '(previousOwner, e) ← ERC721Enumerable._update to tokenId auth (enumerable st);
  mret (previousOwner, set_enumerable st e).

Definition mintStamp (C : Crypto) (env : Env) (sender : address)
  (to : address) (eventId passportId : uint256) (st : Storage)
  : Result (uint256 * Storage) :=
  _ ← AccessControl._checkRole (access st) (MINTER_ROLE C) sender;
  let tokenId := _tokenIdCounter st in
  next ← checked_add tokenId 1;
  let st := set_tokenIdCounter st next in
  st ← ERC721._safeMint _update env sender to tokenId st;
  let st := set_stampMetadata st tokenId
              {| StampMetadata.eventId := eventId;
                 StampMetadata.passportId := passportId;
                 StampMetadata.timestamp := block_timestamp env |} in
  let st := emit st (StampMinted to tokenId eventId passportId) in
  mret (tokenId, st).

(** The loop of [hasStampForEvent], from index [i] with [n] iterations left. *)
Fixpoint hasStampForEvent_from (st : Storage) (owner : address)
  (eventId : uint256) (i : uint256) (n : nat) : Result bool :=
  match n with
  | O => Ok false
  | S n' =>
      tokenId ← ERC721Enumerable.tokenOfOwnerByIndex (enumerable st) owner i;
      if StampMetadata.eventId (stampMetadata_get st tokenId) =? eventId
      then Ok true
      else hasStampForEvent_from st owner eventId (i + 1) n'
  end.

Definition hasStampForEvent (st : Storage) (owner : address) (eventId : uint256)
  : Result bool :=
  balance ← ERC721Enumerable.balanceOf (enumerable st) owner;
  hasStampForEvent_from st owner eventId 0 (N.to_nat balance).

Definition totalStamps (st : Storage) : Result uint256 :=
  checked_sub (_tokenIdCounter st) 1.

(** The first loop of [getStampsByEvent], from index [i] with [n] iterations
    left: a token of the event is written to [tempStamps[count]]. *)
Fixpoint getStampsByEvent_scan (st : Storage) (owner : address)
  (eventId : uint256) (i : uint256) (n : nat) (tempStamps : list uint256)
  (count : uint256) : Result (list uint256 * uint256) :=
  match n with
  | O => Ok (tempStamps, count)
  | S n' =>
      tokenId ← ERC721Enumerable.tokenOfOwnerByIndex (enumerable st) owner i;
      '(tempStamps, count) ←
        (if StampMetadata.eventId (stampMetadata_get st tokenId) =? eventId then
           _ ← revert_if (N.of_nat (List.length tempStamps) <=? count) (Panic 50);
           next ← checked_add count 1;
           mret (<[N.to_nat count := tokenId]> tempStamps, next)
         else mret (tempStamps, count));
      getStampsByEvent_scan st owner eventId (i + 1) n' tempStamps count
  end.

(** The second loop: [stampIds[i] = tempStamps[i]] for [i < count]. *)
Fixpoint getStampsByEvent_copy (tempStamps stampIds : list uint256)
  (i : uint256) (n : nat) : Result (list uint256) :=
  match n with
  | O => Ok stampIds
  | S n' =>
      match tempStamps !! N.to_nat i with
      | None => Revert (Panic 50)
      | Some tokenId =>
          _ ← revert_if (N.of_nat (List.length stampIds) <=? i) (Panic 50);
          getStampsByEvent_copy tempStamps (<[N.to_nat i := tokenId]> stampIds)
            (i + 1) n'
      end
  end.

Definition getStampsByEvent (st : Storage) (owner : address) (eventId : uint256)
  : Result (list uint256) :=
  balance ← ERC721Enumerable.balanceOf (enumerable st) owner;
  let tempStamps := replicate (N.to_nat balance) 0 in
  '(tempStamps, count) ←
    getStampsByEvent_scan st owner eventId 0 (N.to_nat balance) tempStamps 0;
  (* Create properly sized array *)
  let stampIds := replicate (N.to_nat count) 0 in
  getStampsByEvent_copy tempStamps stampIds 0 (N.to_nat count).

(** [_toString] has two [while] loops.  Each is run with a bound on the
    number of tests of its condition; [None] is the outcome of a loop that
    uses the bound up. *)

(** [while (temp != 0) { digits++; temp /= 10; }] *)
Fixpoint _toString_count (fuel : nat) (temp digits : uint256)
  : option (Result uint256) :=
  match fuel with
  | O => None
  | S fuel' =>
      if temp =? 0 then Some (Ok digits)
      else
        match checked_add digits 1 with
        | Revert e => Some (Revert e)
        | Ok digits' => _toString_count fuel' (temp / 10) digits'
        end
  end.

(** [while (value != 0) { digits -= 1;
       buffer[digits] = bytes1(uint8(48 + uint256(value % 10)));
       value /= 10; }] *)
Fixpoint _toString_fill (fuel : nat) (value digits : uint256) (buffer : bytes)
  : option (Result bytes) :=
  match fuel with
  | O => None
  | S fuel' =>
      if value =? 0 then Some (Ok buffer)
      else
        match
          digits' ← checked_sub digits 1;
          code ← checked_add 48 (value mod 10);
          _ ← revert_if (N.of_nat (List.length buffer) <=? digits') (Panic 50);
          mret (digits', <[N.to_nat digits' := ascii_of_N (code mod 256)]> buffer)
        with
        | Revert e => Some (Revert e)
        | Ok (digits', buffer') => _toString_fill fuel' (value / 10) digits' buffer'
        end
  end.

(** The bound given to the loops of [_toString value]: one more than the
    number of binary digits of [value]. *)
Definition _toString_fuel (value : uint256) : nat := S (N.to_nat (N.size value)).

Definition _toString (value : uint256) : option (Result string) :=
  if value =? 0 then Some (Ok "0")
  else
    match _toString_count (_toString_fuel value) value 0 with
    | None => None
    | Some (Revert e) => Some (Revert e)
    | Some (Ok digits) =>
        let buffer := replicate (N.to_nat digits) (ascii_of_N 0) in
        match _toString_fill (_toString_fuel value) value digits buffer with
        | None => None
        | Some (Revert e) => Some (Revert e)
        | Some (Ok buffer) => Some (Ok (string_of_list_ascii buffer))
        end
    end.

(** Sequencing of code that holds bounded loops. *)
Definition and_then {A B : Type} (m : option (Result A))
  (k : A -> option (Result B)) : option (Result B) :=
  match m with
  | None => None
  | Some (Revert e) => Some (Revert e)
  | Some (Ok a) => k a
  end.

(** The double quote, which the string literals of [tokenURI] contain. *)
Definition dquote : string := String (ascii_of_N 34) "".

(** [abi.encodePacked] of the seven literals of [tokenURI] and the five
    numbers between them, in the order of the source. *)
Definition tokenURI_pack (name description eventId passportId claimedAt : string)
  : string :=
  ("data:application/json;utf8,"
   ++ ("{" ++ dquote ++ "name" ++ dquote ++ ":" ++ dquote ++ "Event Stamp #")
   ++ name
   ++ (dquote ++ "," ++ dquote ++ "description" ++ dquote ++ ":" ++ dquote
       ++ "Proof of attendance at event #")
   ++ description
   ++ (dquote ++ "," ++ dquote ++ "attributes" ++ dquote ++ ":[{" ++ dquote
       ++ "trait_type" ++ dquote ++ ":" ++ dquote ++ "Event ID" ++ dquote ++ ","
       ++ dquote ++ "value" ++ dquote ++ ":" ++ dquote)
   ++ eventId
   ++ (dquote ++ "},{" ++ dquote ++ "trait_type" ++ dquote ++ ":" ++ dquote
       ++ "Passport ID" ++ dquote ++ "," ++ dquote ++ "value" ++ dquote ++ ":"
       ++ dquote)
   ++ passportId
   ++ (dquote ++ "},{" ++ dquote ++ "trait_type" ++ dquote ++ ":" ++ dquote
       ++ "Claimed At" ++ dquote ++ "," ++ dquote ++ "value" ++ dquote ++ ":"
       ++ dquote)
   ++ claimedAt
   ++ (dquote ++ "}]}"))%string.

Definition tokenURI (st : Storage) (tokenId : uint256) : option (Result string) :=
  match ERC721._requireOwned (erc721 st) tokenId with
  | Revert e => Some (Revert e)
  | Ok _ =>
      let metadata := stampMetadata_get st tokenId in
      and_then (_toString tokenId) (fun name =>
      and_then (_toString (StampMetadata.eventId metadata)) (fun description =>
      and_then (_toString (StampMetadata.eventId metadata)) (fun eventId =>
      and_then (_toString (StampMetadata.passportId metadata)) (fun passportId =>
      and_then (_toString (StampMetadata.timestamp metadata)) (fun claimedAt =>
      Some (Ok (tokenURI_pack name description eventId passportId claimedAt)))))))
  end.

(** Inherited entry points. *)
Definition transferFrom (sender from to : address) (tokenId : uint256)
  (st : Storage) : Result Storage :=
  ERC721.transferFrom _update sender from to tokenId st.

Definition safeTransferFrom (env : Env) (sender from to : address)
  (tokenId : uint256) (data : bytes) (st : Storage) : Result Storage :=
  ERC721.safeTransferFrom _update env sender from to tokenId data st.

Definition approve (sender to : address) (tokenId : uint256) (st : Storage)
  : Result Storage :=
  e ← ERC721.approve sender to tokenId (erc721 st);
  mret (set_erc721 st e).

Definition setApprovalForAll (sender operator : address) (approved : bool)
  (st : Storage) : Result Storage :=
  e ← ERC721.setApprovalForAll sender operator approved (erc721 st);
  mret (set_erc721 st e).

Definition grantRole (sender : address) (role : bytes32) (account : address)
  (st : Storage) : Result Storage :=
  a ← AccessControl.grantRole sender role account (access st);
  mret (set_access st a).

Definition revokeRole (sender : address) (role : bytes32) (account : address)
  (st : Storage) : Result Storage :=
  a ← AccessControl.revokeRole sender role account (access st);
  mret (set_access st a).

Definition renounceRole (sender : address) (role : bytes32)
  (callerConfirmation : address) (st : Storage) : Result Storage :=
  a ← AccessControl.renounceRole sender role callerConfirmation (access st);
  mret (set_access st a).

End EventStamp.

(** ** The passport contract: [BasePass] *)

Module Event.
Record t : Type := {
  id : uint256;
  name : string;
  description : string;
  iconUrl : string;
  signer : address;
  exists_ : bool
}.
Definition zero : t :=
  {| id := 0; name := ""; description := ""; iconUrl := ""; signer := 0;
     exists_ := false |}.
End Event.

Module BasePass.

(** The events this contract declares. *)
Inductive Log : Type :=
| PassportMinted (owner : address) (tokenId : uint256)
| EventCreated (eventId : uint256) (name : string) (signer : address)
| StampClaimed (tokenId eventId : uint256) (claimer : address).

Record Storage : Type := {
  erc721 : ERC721.Storage;
  _owner : address;                    (* Ownable *)
  _status : uint256;                   (* ReentrancyGuard *)
  _tokenIdCounter : uint256;
  _eventIdCounter : uint256;
  usedNonces : gmap N bool;
  events : gmap N Event.t;
  lastEventCreation : gmap N N;
  emitted : list Log
}.

(** The chain state the passport contract works on: its own address and
    storage, and the storage of the contract [stampContract] refers to. *)
Record World : Type := {
  this : address;
  basePass : Storage;
  stampContract : EventStamp.Storage
}.

Definition EVENT_COOLDOWN : uint256 := 3600.

Definition events_get (s : Storage) (eventId : uint256) : Event.t :=
  default Event.zero (events s !! eventId).

Definition set_erc721 (s : Storage) (e : ERC721.Storage) : Storage :=
  {| erc721 := e; _owner := _owner s; _status := _status s;
     _tokenIdCounter := _tokenIdCounter s; _eventIdCounter := _eventIdCounter s;
     usedNonces := usedNonces s; events := events s;
     lastEventCreation := lastEventCreation s; emitted := emitted s |}.

Definition set_owner (s : Storage) (o : address) : Storage :=
  {| erc721 := erc721 s; _owner := o; _status := _status s;
     _tokenIdCounter := _tokenIdCounter s; _eventIdCounter := _eventIdCounter s;
     usedNonces := usedNonces s; events := events s;
     lastEventCreation := lastEventCreation s; emitted := emitted s |}.

Definition set_status (s : Storage) (v : uint256) : Storage :=
  {| erc721 := erc721 s; _owner := _owner s; _status := v;
     _tokenIdCounter := _tokenIdCounter s; _eventIdCounter := _eventIdCounter s;
     usedNonces := usedNonces s; events := events s;
     lastEventCreation := lastEventCreation s; emitted := emitted s |}.

Definition set_tokenIdCounter (s : Storage) (c : uint256) : Storage :=
  {| erc721 := erc721 s; _owner := _owner s; _status := _status s;
     _tokenIdCounter := c; _eventIdCounter := _eventIdCounter s;
     usedNonces := usedNonces s; events := events s;
     lastEventCreation := lastEventCreation s; emitted := emitted s |}.

Definition set_eventIdCounter (s : Storage) (c : uint256) : Storage :=
  {| erc721 := erc721 s; _owner := _owner s; _status := _status s;
     _tokenIdCounter := _tokenIdCounter s; _eventIdCounter := c;
     usedNonces := usedNonces s; events := events s;
     lastEventCreation := lastEventCreation s; emitted := emitted s |}.

Definition set_usedNonce (s : Storage) (nonce : bytes32) (b : bool) : Storage :=
  {| erc721 := erc721 s; _owner := _owner s; _status := _status s;
     _tokenIdCounter := _tokenIdCounter s; _eventIdCounter := _eventIdCounter s;
     usedNonces := <[nonce := b]> (usedNonces s); events := events s;
     lastEventCreation := lastEventCreation s; emitted := emitted s |}.

Definition set_event (s : Storage) (eventId : uint256) (ev : Event.t) : Storage :=
  {| erc721 := erc721 s; _owner := _owner s; _status := _status s;
     _tokenIdCounter := _tokenIdCounter s; _eventIdCounter := _eventIdCounter s;
     usedNonces := usedNonces s; events := <[eventId := ev]> (events s);
     lastEventCreation := lastEventCreation s; emitted := emitted s |}.

Definition set_lastEventCreation (s : Storage) (a : address) (t : uint256)
  : Storage :=
  {| erc721 := erc721 s; _owner := _owner s; _status := _status s;
     _tokenIdCounter := _tokenIdCounter s; _eventIdCounter := _eventIdCounter s;
     usedNonces := usedNonces s; events := events s;
     lastEventCreation := <[a := t]> (lastEventCreation s); emitted := emitted s |}.

Definition emit (s : Storage) (l : Log) : Storage :=
  {| erc721 := erc721 s; _owner := _owner s; _status := _status s;
     _tokenIdCounter := _tokenIdCounter s; _eventIdCounter := _eventIdCounter s;
     usedNonces := usedNonces s; events := events s;
     lastEventCreation := lastEventCreation s; emitted := emitted s ++ [l] |}.

Definition set_basePass (w : World) (s : Storage) : World :=
  {| this := this w; basePass := s; stampContract := stampContract w |}.

Definition set_stampContract (w : World) (st : EventStamp.Storage) : World :=
  {| this := this w; basePass := basePass w; stampContract := st |}.

(** The constructor, run by [deployer] with the address of the stamp
    contract ([self] is the address the passport contract is created at;
    [st] is the storage found at [_stampContract]). *)
Definition constructor (deployer self _stampContract : address)
  (st : EventStamp.Storage) : Result World :=
  _ ← revert_if (deployer =? 0) (OwnableInvalidOwner 0);
  _ ← require (negb (_stampContract =? 0)) "Invalid stamp contract address";
  mret {| this := self;
          basePass := {| erc721 := ERC721.empty; _owner := deployer;
                         _status := ReentrancyGuard.NOT_ENTERED;
                         _tokenIdCounter := 1; _eventIdCounter := 1;
                         usedNonces := ∅; events := ∅; lastEventCreation := ∅;
                         emitted := [] |};
          stampContract := st |}.

(** The override of [_update]: only creation from the null owner passes. *)
Definition _update (to : address) (tokenId : uint256) (auth : address)
  (s : Storage) : Result (address * Storage) :=
  let from := ERC721._ownerOf (erc721 s) tokenId in
  _ ← require (from =? 0) "BasePass: passports are non-transferable (soulbound)";
  '(previousOwner, e) ← ERC721._update to tokenId auth (erc721 s);
  mret (previousOwner, set_erc721 s e).

Definition mintPassport (env : Env) (sender : address) (s : Storage)
  : Result Storage :=
  status ← ReentrancyGuard._nonReentrantBefore (_status s);
  let s := set_status s status in
  balance ← ERC721.balanceOf (erc721 s) sender;
  _ ← require (balance =? 0) "Already owns a passport";
  let tokenId := _tokenIdCounter s in
  next ← checked_add tokenId 1;
  let s := set_tokenIdCounter s next in
  s ← ERC721._safeMint _update env sender sender tokenId s;
  let s := emit s (PassportMinted sender tokenId) in
  mret (set_status s ReentrancyGuard._nonReentrantAfter).

Definition createEvent (env : Env) (sender : address)
  (name description iconUrl : string) (signer : address) (s : Storage)
  : Result (uint256 * Storage) :=
  (* Rate limiting: enforce cooldown between event creations *)
  earliest ← checked_add (get (lastEventCreation s) sender) EVENT_COOLDOWN;
  _ ← require (earliest <=? block_timestamp env)
        "Rate limit: wait 1 hour between creating events";
  (* Input validation *)
  _ ← require (negb (signer =? 0)) "Invalid signer address";
  _ ← require ((0 <? N.of_nat (String.length name))
               && (N.of_nat (String.length name) <=? 100))
        "Name must be 1-100 characters";
  _ ← require (N.of_nat (String.length description) <=? 500)
        "Description must not exceed 500 characters";
  (* Update rate limiting tracker *)
  let s := set_lastEventCreation s sender (block_timestamp env) in
  let eventId := _eventIdCounter s in
  next ← checked_add eventId 1;
  let s := set_eventIdCounter s next in
  let s := set_event s eventId
             {| Event.id := eventId; Event.name := name;
                Event.description := description; Event.iconUrl := iconUrl;
                Event.signer := signer; Event.exists_ := true |} in
  let s := emit s (EventCreated eventId name signer) in
  mret (eventId, s).

(** [abi.encodePacked(eventId, nonce, expiration, block.chainid)]:
    four 32-byte big-endian words. *)
Definition encodePacked (eventId : uint256) (nonce : bytes32)
  (expiration chainid : uint256) : bytes :=
  be_bytes 32 eventId ++ be_bytes 32 nonce ++ be_bytes 32 expiration
    ++ be_bytes 32 chainid.

(** The digest whose signer [claimStamp] recovers. *)
Definition claimDigest (C : Crypto) (eventId : uint256) (nonce : bytes32)
  (expiration chainid : uint256) : bytes32 :=
  let messageHash := keccak256 C (encodePacked eventId nonce expiration chainid) in
  MessageHashUtils.toEthSignedMessageHash C messageHash.

Definition claimStamp (C : Crypto) (env : Env) (sender : address)
  (tokenId eventId : uint256) (nonce : bytes32) (expiration : uint256)
  (signature : bytes) (w : World) : Result World :=
  let s := basePass w in
  status ← ReentrancyGuard._nonReentrantBefore (_status s);
  let s := set_status s status in
  (* Verify ownership *)
  owner ← ERC721.ownerOf (erc721 s) tokenId;
  _ ← require (owner =? sender) "Not passport owner";
  (* Verify event exists *)
  _ ← require (Event.exists_ (events_get s eventId)) "Event does not exist";
  (* Verify not already claimed *)
  claimed ← EventStamp.hasStampForEvent (stampContract w) sender eventId;
  _ ← require (negb claimed) "Stamp already claimed";
  (* Verify nonce not used *)
  _ ← require (negb (getb (usedNonces s) nonce)) "Nonce already used";
  (* Verify not expired *)
  _ ← require (block_timestamp env <=? expiration) "Signature expired";
  (* Verify signature *)
  let ethSignedMessageHash :=
    claimDigest C eventId nonce expiration (block_chainid env) in
  recoveredSigner ← ECDSA.recover C ethSignedMessageHash signature;
  _ ← require (recoveredSigner =? Event.signer (events_get s eventId))
        "Invalid signature";
  (* Mark nonce as used *)
  let s := set_usedNonce s nonce true in
  (* Mint stamp NFT to passport owner *)
  '(_, st) ← EventStamp.mintStamp C env (this w) sender eventId tokenId
               (stampContract w);
  let s := emit s (StampClaimed tokenId eventId sender) in
  let s := set_status s ReentrancyGuard._nonReentrantAfter in
  mret {| this := this w; basePass := s; stampContract := st |}.

Definition getEvent (s : Storage) (eventId : uint256) : Result Event.t :=
  _ ← require (Event.exists_ (events_get s eventId)) "Event does not exist";
  mret (events_get s eventId).

Definition hasStamp (w : World) (tokenId eventId : uint256) : Result bool :=
  passportOwner ← ERC721.ownerOf (erc721 (basePass w)) tokenId;
  EventStamp.hasStampForEvent (stampContract w) passportOwner eventId.

(** The loop of [getPassportStamps], from index [i] with [n] iterations left. *)
Fixpoint getPassportStamps_from (st : EventStamp.Storage)
  (passportOwner : address) (i : uint256) (n : nat) (stampIds : list uint256)
  : Result (list uint256) :=
  match n with
  | O => Ok stampIds
  | S n' =>
      tokenId ← ERC721Enumerable.tokenOfOwnerByIndex (EventStamp.enumerable st)
                  passportOwner i;
      _ ← revert_if (N.of_nat (List.length stampIds) <=? i) (Panic 50);
      getPassportStamps_from st passportOwner (i + 1) n'
        (<[N.to_nat i := tokenId]> stampIds)
  end.

Definition getPassportStamps (w : World) (passportOwner : address)
  : Result (list uint256) :=
  stampBalance ← ERC721Enumerable.balanceOf
                   (EventStamp.enumerable (stampContract w)) passportOwner;
  let stampIds := replicate (N.to_nat stampBalance) 0 in
  getPassportStamps_from (stampContract w) passportOwner 0
    (N.to_nat stampBalance) stampIds.

Definition totalPassports (s : Storage) : Result uint256 :=
  checked_sub (_tokenIdCounter s) 1.

Definition totalEvents (s : Storage) : Result uint256 :=
  checked_sub (_eventIdCounter s) 1.

(** Inherited entry points. *)
Definition transferFrom (sender from to : address) (tokenId : uint256)
  (s : Storage) : Result Storage :=
  ERC721.transferFrom _update sender from to tokenId s.

Definition safeTransferFrom (env : Env) (sender from to : address)
  (tokenId : uint256) (data : bytes) (s : Storage) : Result Storage :=
  ERC721.safeTransferFrom _update env sender from to tokenId data s.

Definition approve (sender to : address) (tokenId : uint256) (s : Storage)
  : Result Storage :=
  e ← ERC721.approve sender to tokenId (erc721 s);
  mret (set_erc721 s e).

Definition setApprovalForAll (sender operator : address) (approved : bool)
  (s : Storage) : Result Storage :=
  e ← ERC721.setApprovalForAll sender operator approved (erc721 s);
  mret (set_erc721 s e).

Definition transferOwnership (sender newOwner : address) (s : Storage)
  : Result Storage :=
  o ← Ownable.transferOwnership (_owner s) sender newOwner;
  mret (set_owner s o).

Definition renounceOwnership (sender : address) (s : Storage) : Result Storage :=
  o ← Ownable.renounceOwnership (_owner s) sender;
  mret (set_owner s o).

End BasePass.

(** ** The passport contract that keeps the stamps itself:
    [contracts/BasePass.sol]

    This contract has no stamp token: a claimed stamp is a flag in the
    mapping [stamps].  It neither limits the passports of a principal nor
    overrides [_update], and [createEvent] only checks the signer. *)

Module Standalone.

Record Storage : Type := {
  erc721 : ERC721.Storage;
  _owner : address;                    (* Ownable *)
  _status : uint256;                   (* ReentrancyGuard *)
  _tokenIdCounter : uint256;
  _eventIdCounter : uint256;
  stamps : gmap (N * N) bool;          (* tokenId => eventId => claimed *)
  usedNonces : gmap N bool;
  events : gmap N Event.t;
  emitted : list BasePass.Log
}.

Definition events_get (s : Storage) (eventId : uint256) : Event.t :=
  default Event.zero (events s !! eventId).

Definition set_erc721 (s : Storage) (e : ERC721.Storage) : Storage :=
  {| erc721 := e; _owner := _owner s; _status := _status s;
     _tokenIdCounter := _tokenIdCounter s; _eventIdCounter := _eventIdCounter s;
     stamps := stamps s; usedNonces := usedNonces s; events := events s;
     emitted := emitted s |}.

Definition set_owner (s : Storage) (o : address) : Storage :=
  {| erc721 := erc721 s; _owner := o; _status := _status s;
     _tokenIdCounter := _tokenIdCounter s; _eventIdCounter := _eventIdCounter s;
     stamps := stamps s; usedNonces := usedNonces s; events := events s;
     emitted := emitted s |}.

Definition set_status (s : Storage) (v : uint256) : Storage :=
  {| erc721 := erc721 s; _owner := _owner s; _status := v;
     _tokenIdCounter := _tokenIdCounter s; _eventIdCounter := _eventIdCounter s;
     stamps := stamps s; usedNonces := usedNonces s; events := events s;
     emitted := emitted s |}.

Definition set_tokenIdCounter (s : Storage) (c : uint256) : Storage :=
  {| erc721 := erc721 s; _owner := _owner s; _status := _status s;
     _tokenIdCounter := c; _eventIdCounter := _eventIdCounter s;
     stamps := stamps s; usedNonces := usedNonces s; events := events s;
     emitted := emitted s |}.

Definition set_eventIdCounter (s : Storage) (c : uint256) : Storage :=
  {| erc721 := erc721 s; _owner := _owner s; _status := _status s;
     _tokenIdCounter := _tokenIdCounter s; _eventIdCounter := c;
     stamps := stamps s; usedNonces := usedNonces s; events := events s;
     emitted := emitted s |}.

Definition set_stamp (s : Storage) (tokenId eventId : uint256) (b : bool)
  : Storage :=
  {| erc721 := erc721 s; _owner := _owner s; _status := _status s;
     _tokenIdCounter := _tokenIdCounter s; _eventIdCounter := _eventIdCounter s;
     stamps := <[(tokenId, eventId) := b]> (stamps s);
     usedNonces := usedNonces s; events := events s; emitted := emitted s |}.

Definition set_usedNonce (s : Storage) (nonce : bytes32) (b : bool) : Storage :=
  {| erc721 := erc721 s; _owner := _owner s; _status := _status s;
     _tokenIdCounter := _tokenIdCounter s; _eventIdCounter := _eventIdCounter s;
     stamps := stamps s; usedNonces := <[nonce := b]> (usedNonces s);
     events := events s; emitted := emitted s |}.

Definition set_event (s : Storage) (eventId : uint256) (ev : Event.t) : Storage :=
  {| erc721 := erc721 s; _owner := _owner s; _status := _status s;
     _tokenIdCounter := _tokenIdCounter s; _eventIdCounter := _eventIdCounter s;
     stamps := stamps s; usedNonces := usedNonces s;
     events := <[eventId := ev]> (events s); emitted := emitted s |}.

Definition emit (s : Storage) (l : BasePass.Log) : Storage :=
  {| erc721 := erc721 s; _owner := _owner s; _status := _status s;
     _tokenIdCounter := _tokenIdCounter s; _eventIdCounter := _eventIdCounter s;
     stamps := stamps s; usedNonces := usedNonces s; events := events s;
     emitted := emitted s ++ [l] |}.

(** The constructor, run by [deployer]. *)
Definition constructor (deployer : address) : Result Storage :=
  _ ← revert_if (deployer =? 0) (OwnableInvalidOwner 0);
  mret {| erc721 := ERC721.empty; _owner := deployer;
          _status := ReentrancyGuard.NOT_ENTERED;
          _tokenIdCounter := 1; _eventIdCounter := 1;
          stamps := ∅; usedNonces := ∅; events := ∅; emitted := [] |}.

(** [_update] is the one of [ERC721]: the contract does not override it. *)
Definition _update (to : address) (tokenId : uint256) (auth : address)
  (s : Storage) : Result (address * Storage) :=
  '(previousOwner, e) ← ERC721._update to tokenId auth (erc721 s);
  mret (previousOwner, set_erc721 s e).

Definition mintPassport (env : Env) (sender : address) (s : Storage)
  : Result Storage :=
  status ← ReentrancyGuard._nonReentrantBefore (_status s);
  let s := set_status s status in
  let tokenId := _tokenIdCounter s in
  next ← checked_add tokenId 1;
  let s := set_tokenIdCounter s next in
  s ← ERC721._safeMint _update env sender sender tokenId s;
  let s := emit s (BasePass.PassportMinted sender tokenId) in
  mret (set_status s ReentrancyGuard._nonReentrantAfter).

Definition createEvent (sender : address) (name description iconUrl : string)
  (signer : address) (s : Storage) : Result (uint256 * Storage) :=
  _ ← require (negb (signer =? 0)) "Invalid signer address";
  let eventId := _eventIdCounter s in
  next ← checked_add eventId 1;
  let s := set_eventIdCounter s next in
  let s := set_event s eventId
             {| Event.id := eventId; Event.name := name;
                Event.description := description; Event.iconUrl := iconUrl;
                Event.signer := signer; Event.exists_ := true |} in
  let s := emit s (BasePass.EventCreated eventId name signer) in
  mret (eventId, s).

Definition claimStamp (C : Crypto) (env : Env) (sender : address)
  (tokenId eventId : uint256) (nonce : bytes32) (expiration : uint256)
  (signature : bytes) (s : Storage) : Result Storage :=
  status ← ReentrancyGuard._nonReentrantBefore (_status s);
  let s := set_status s status in
  (* Verify ownership *)
  owner ← ERC721.ownerOf (erc721 s) tokenId;
  _ ← require (owner =? sender) "Not passport owner";
  (* Verify event exists *)
  _ ← require (Event.exists_ (events_get s eventId)) "Event does not exist";
  (* Verify not already claimed *)
  _ ← require (negb (getb (stamps s) (tokenId, eventId))) "Stamp already claimed";
  (* Verify nonce not used *)
  _ ← require (negb (getb (usedNonces s) nonce)) "Nonce already used";
  (* Verify not expired *)
  _ ← require (block_timestamp env <=? expiration) "Signature expired";
  (* Verify signature *)
  let ethSignedMessageHash :=
    BasePass.claimDigest C eventId nonce expiration (block_chainid env) in
  recoveredSigner ← ECDSA.recover C ethSignedMessageHash signature;
  _ ← require (recoveredSigner =? Event.signer (events_get s eventId))
        "Invalid signature";
  (* Mark stamp as claimed and nonce as used *)
  let s := set_stamp s tokenId eventId true in
  let s := set_usedNonce s nonce true in
  let s := emit s (BasePass.StampClaimed tokenId eventId sender) in
  mret (set_status s ReentrancyGuard._nonReentrantAfter).

Definition getEvent (s : Storage) (eventId : uint256) : Result Event.t :=
  _ ← require (Event.exists_ (events_get s eventId)) "Event does not exist";
  mret (events_get s eventId).

Definition hasStamp (s : Storage) (tokenId eventId : uint256) : bool :=
  getb (stamps s) (tokenId, eventId).

Definition totalPassports (s : Storage) : Result uint256 :=
  checked_sub (_tokenIdCounter s) 1.

Definition totalEvents (s : Storage) : Result uint256 :=
  checked_sub (_eventIdCounter s) 1.

(** Inherited entry points. *)
Definition transferFrom (sender from to : address) (tokenId : uint256)
  (s : Storage) : Result Storage :=
  ERC721.transferFrom _update sender from to tokenId s.

Definition safeTransferFrom (env : Env) (sender from to : address)
  (tokenId : uint256) (data : bytes) (s : Storage) : Result Storage :=
  ERC721.safeTransferFrom _update env sender from to tokenId data s.

Definition approve (sender to : address) (tokenId : uint256) (s : Storage)
  : Result Storage :=
  e ← ERC721.approve sender to tokenId (erc721 s);
  mret (set_erc721 s e).

Definition setApprovalForAll (sender operator : address) (approved : bool)
  (s : Storage) : Result Storage :=
  e ← ERC721.setApprovalForAll sender operator approved (erc721 s);
  mret (set_erc721 s e).

Definition transferOwnership (sender newOwner : address) (s : Storage)
  : Result Storage :=
  o ← Ownable.transferOwnership (_owner s) sender newOwner;
  mret (set_owner s o).

Definition renounceOwnership (sender : address) (s : Storage) : Result Storage :=
  o ← Ownable.renounceOwnership (_owner s) sender;
  mret (set_owner s o).

(** The state-changing entry points. *)
Inductive Call : Type :=
| call_mintPassport
| call_createEvent (name description iconUrl : string) (signer : address)
| call_claimStamp (tokenId eventId : uint256) (nonce : bytes32)
    (expiration : uint256) (signature : bytes)
| call_approve (to : address) (tokenId : uint256)
| call_setApprovalForAll (operator : address) (approved : bool)
| call_transferFrom (from to : address) (tokenId : uint256)
| call_safeTransferFrom (from to : address) (tokenId : uint256) (data : bytes)
| call_transferOwnership (newOwner : address)
| call_renounceOwnership.

(** One external call by [sender] in the block described by [env]. *)
Definition execute (C : Crypto) (env : Env) (sender : address) (c : Call)
  (s : Storage) : Result Storage :=
  match c with
  | call_mintPassport => mintPassport env sender s
  | call_createEvent name description iconUrl signer =>
      snd <$> createEvent sender name description iconUrl signer s
  | call_claimStamp tokenId eventId nonce expiration signature =>
      claimStamp C env sender tokenId eventId nonce expiration signature s
  | call_approve to tokenId => approve sender to tokenId s
  | call_setApprovalForAll operator approved =>
      setApprovalForAll sender operator approved s
  | call_transferFrom from to tokenId => transferFrom sender from to tokenId s
  | call_safeTransferFrom from to tokenId data =>
      safeTransferFrom env sender from to tokenId data s
  | call_transferOwnership newOwner => transferOwnership sender newOwner s
  | call_renounceOwnership => renounceOwnership sender s
  end.

(** The states of the contract: the constructor followed by successful
    calls, none from the zero address. *)
Inductive reachable (C : Crypto) : Storage -> Prop :=
| reachable_constructor deployer s :
    constructor deployer = Ok s ->
    reachable C s
| reachable_step s env sender c s' :
    reachable C s ->
    sender <> 0 ->
    execute C env sender c s = Ok s' ->
    reachable C s'.

(** [steps C s s']: [s'] is obtained from [s] by a sequence of calls. *)
Inductive steps (C : Crypto) : Storage -> Storage -> Prop :=
| steps_refl s : steps C s s
| steps_step s env sender c s' s'' :
    steps C s s' ->
    sender <> 0 ->
    execute C env sender c s' = Ok s'' ->
    steps C s s''.

End Standalone.

(** ** JavaScript numbers

    A JavaScript [Number] is an IEEE 754 binary64 value.  The Numbers of the
    pages modelled here are integers; an integer-valued Number is represented
    by its value.  [Number(n)] of a bigint [n], and the sum and the
    difference of two Numbers, are the exact result rounded to the nearest
    Number, ties going to the even significand: an integer below 2^53 in
    absolute value is kept, a larger one keeps its 53 leading bits.  (All
    values here are below 2^258, far from 2^1024 where a Number becomes
    infinite.) *)

Module Js.

(** The integer-valued Number nearest to the integer [z]. *)
Definition to_Number (z : Z) : Z :=
  let a := Z.abs z in
  (* the number of low bits that do not fit in the 53-bit significand *)
  let k := (Z.log2 a - 52)%Z in
  if (k <=? 0)%Z then z
  else
    let q := (a / 2 ^ k)%Z in
    let r := (a mod 2 ^ k)%Z in
    let half := (2 ^ (k - 1))%Z in
    let q' := if (r <? half)%Z then q
              else if (half <? r)%Z then (q + 1)%Z
              else if Z.even q then q else (q + 1)%Z in
    (Z.sgn z * (q' * 2 ^ k))%Z.

(** [Number(n)] for a bigint [n] read from the chain. *)
Definition Number_of_bigint (n : N) : Z := to_Number (Z.of_N n).

(** [a + b] and [a - b] on integer-valued Numbers. *)
Definition add (a b : Z) : Z := to_Number (a + b).
Definition sub (a b : Z) : Z := to_Number (a - b).

End Js.

(** ** The remaining-time display of the event-creation form
    ([frontend/src/components/create-event.tsx]) *)

Module Frontend.

(** [updateTimeLeft]: [lastEventTime] and [eventCooldown] are the results of
    reading [lastEventCreation(address)] and [EVENT_COOLDOWN] ([None] while
    a read has not returned); [now] is [Math.floor(Date.now() / 1000)], the
    client clock in seconds, an integer-valued Number.  The result is the new
    value of [timeLeft] ([None] for JavaScript's [null]).
    [canCreateAt = Number(lastEventTime) + Number(eventCooldown)] and
    [remaining = canCreateAt - now] are computed on Numbers. *)
Definition updateTimeLeft (lastEventTime eventCooldown : option N) (now : Z)
  : option Z :=
  match lastEventTime, eventCooldown with
  | Some last, Some cooldown =>
      if (last =? 0) || (cooldown =? 0) then None
      else
        let canCreateAt :=
          Js.add (Js.Number_of_bigint last) (Js.Number_of_bigint cooldown) in
        let remaining := Js.sub canCreateAt now in
        if (remaining <=? 0)%Z then None else Some remaining
  | _, _ => None
  end.

Definition isRateLimited (timeLeft : option Z) : bool :=
  match timeLeft with
  | Some t => (0 <? t)%Z
  | None => false
  end.

Definition canCreateEvent (timeLeft : option Z) : bool :=
  match timeLeft with
  | Some t => (t <=? 0)%Z
  | None => true
  end.

(** *** The search for the passport of the connected account

    [findTokenId] of the claim page
    ([frontend/src/app/claim/[claimCode]/page.tsx]) searches the ids upwards,
    the one of the passport pages ([components/passport-viewer.tsx] and the
    passport page) downwards.  [address], [balance] and [totalPassports]
    are [None] while the account is not connected or a read has not
    returned; the reads are those of one state [w] of the contracts.  Two
    addresses are compared as numbers (the pages compare their hexadecimal
    writings without regard to case).  The result is the new value of
    [userTokenId]. *)

(** [for (let i = 1n; i <= totalPassports; i++)], from [i] with [n]
    iterations left; a read that fails is skipped ([catch ... continue]). *)
Fixpoint findTokenId_up (w : BasePass.World) (address : address) (i : uint256)
  (n : nat) : option uint256 :=
  match n with
  | O => None
  | S n' =>
      match ERC721.ownerOf (BasePass.erc721 (BasePass.basePass w)) i with
      | Ok owner =>
          if owner =? address then Some i
          else findTokenId_up w address (i + 1) n'
      | Revert _ => findTokenId_up w address (i + 1) n'
      end
  end.

(** [for (let i = totalPassports; i >= 1n; i--)] *)
Fixpoint findTokenId_down (w : BasePass.World) (address : address) (i : uint256)
  (n : nat) : option uint256 :=
  match n with
  | O => None
  | S n' =>
      match ERC721.ownerOf (BasePass.erc721 (BasePass.basePass w)) i with
      | Ok owner =>
          if owner =? address then Some i
          else findTokenId_down w address (i - 1) n'
      | Revert _ => findTokenId_down w address (i - 1) n'
      end
  end.

Definition findTokenId_claim (w : BasePass.World) (address : option address)
  (balance totalPassports : option uint256) (userTokenId : option uint256)
  : option uint256 :=
  match address, balance, totalPassports with
  | Some address, Some balance, Some totalPassports =>
      if (balance =? 0) || (totalPassports =? 0) then None
      else
        match findTokenId_up w address 1 (N.to_nat totalPassports) with
        | Some i => Some i
        | None => userTokenId
        end
  | _, _, _ => None
  end.

Definition findTokenId_passport (w : BasePass.World) (address : option address)
  (balance totalPassports : option uint256) (userTokenId : option uint256)
  : option uint256 :=
  match address, balance, totalPassports with
  | Some address, Some balance, Some totalPassports =>
      if (balance =? 0) || (totalPassports =? 0) then None
      else
        match findTokenId_down w address totalPassports (N.to_nat totalPassports)
        with
        | Some i => Some i
        | None => userTokenId
        end
  | _, _, _ => None
  end.

(** *** The events of the connected account: [filterUserEvents] of the
    administration page *)

(** [for (let i = 1; i <= Number(totalEvents); i++)], from [i] with [n]
    iterations left. *)
Fixpoint filterUserEvents_from (w : BasePass.World) (address : address)
  (i : uint256) (n : nat) (userEventIds : list uint256) : list uint256 :=
  match n with
  | O => userEventIds
  | S n' =>
      match BasePass.getEvent (BasePass.basePass w) i with
      | Ok event =>
          if Event.signer event =? address
          then filterUserEvents_from w address (i + 1) n' (userEventIds ++ [i])
          else filterUserEvents_from w address (i + 1) n' userEventIds
      | Revert _ => filterUserEvents_from w address (i + 1) n' userEventIds
      end
  end.

(** The new value of [userEvents]. *)
Definition filterUserEvents (w : BasePass.World) (address : option address)
  (totalEvents : option uint256) : list uint256 :=
  match address, totalEvents with
  | Some address, Some totalEvents =>
      if totalEvents =? 0 then []
      else filterUserEvents_from w address 1 (N.to_nat totalEvents) []
  | _, _ => []
  end.

End Frontend.

(** ** Transactions on the deployed system *)

(** The state-changing entry points of the two contracts. *)
Module Call.
Inductive t : Type :=
| mintPassport
| createEvent (name description iconUrl : string) (signer : address)
| claimStamp (tokenId eventId : uint256) (nonce : bytes32)
    (expiration : uint256) (signature : bytes)
| passport_approve (to : address) (tokenId : uint256)
| passport_setApprovalForAll (operator : address) (approved : bool)
| passport_transferFrom (from to : address) (tokenId : uint256)
| passport_safeTransferFrom (from to : address) (tokenId : uint256) (data : bytes)
| transferOwnership (newOwner : address)
| renounceOwnership
| mintStamp (to : address) (eventId passportId : uint256)
| grantRole (role : bytes32) (account : address)
| revokeRole (role : bytes32) (account : address)
| renounceRole (role : bytes32) (callerConfirmation : address)
| stamp_approve (to : address) (tokenId : uint256)
| stamp_setApprovalForAll (operator : address) (approved : bool)
| stamp_transferFrom (from to : address) (tokenId : uint256)
| stamp_safeTransferFrom (from to : address) (tokenId : uint256) (data : bytes).
End Call.

Import BasePass.

Definition on_basePass (w : World) (r : Result BasePass.Storage) : Result World :=
  s ← r; mret (set_basePass w s).

Definition on_stampContract (w : World) (r : Result EventStamp.Storage)
  : Result World :=
  st ← r; mret (set_stampContract w st).

(** One external call by [sender] in the block described by [env]. *)
Definition execute (C : Crypto) (env : Env) (sender : address) (c : Call.t)
  (w : World) : Result World :=
  match c with
  | Call.mintPassport => on_basePass w (BasePass.mintPassport env sender (basePass w))
  | Call.createEvent name description iconUrl signer =>
      on_basePass w
        (snd <$> BasePass.createEvent env sender name description iconUrl signer
                   (basePass w))
  | Call.claimStamp tokenId eventId nonce expiration signature =>
      BasePass.claimStamp C env sender tokenId eventId nonce expiration signature w
  | Call.passport_approve to tokenId =>
      on_basePass w (BasePass.approve sender to tokenId (basePass w))
  | Call.passport_setApprovalForAll operator approved =>
      on_basePass w (BasePass.setApprovalForAll sender operator approved (basePass w))
  | Call.passport_transferFrom from to tokenId =>
      on_basePass w (BasePass.transferFrom sender from to tokenId (basePass w))
  | Call.passport_safeTransferFrom from to tokenId data =>
      on_basePass w
        (BasePass.safeTransferFrom env sender from to tokenId data (basePass w))
  | Call.transferOwnership newOwner =>
      on_basePass w (BasePass.transferOwnership sender newOwner (basePass w))
  | Call.renounceOwnership =>
      on_basePass w (BasePass.renounceOwnership sender (basePass w))
  | Call.mintStamp to eventId passportId =>
      on_stampContract w
        (snd <$> EventStamp.mintStamp C env sender to eventId passportId
                   (stampContract w))
  | Call.grantRole role account =>
      on_stampContract w (EventStamp.grantRole sender role account (stampContract w))
  | Call.revokeRole role account =>
      on_stampContract w (EventStamp.revokeRole sender role account (stampContract w))
  | Call.renounceRole role callerConfirmation =>
      on_stampContract w
        (EventStamp.renounceRole sender role callerConfirmation (stampContract w))
  | Call.stamp_approve to tokenId =>
      on_stampContract w (EventStamp.approve sender to tokenId (stampContract w))
  | Call.stamp_setApprovalForAll operator approved =>
      on_stampContract w
        (EventStamp.setApprovalForAll sender operator approved (stampContract w))
  | Call.stamp_transferFrom from to tokenId =>
      on_stampContract w
        (EventStamp.transferFrom sender from to tokenId (stampContract w))
  | Call.stamp_safeTransferFrom from to tokenId data =>
      on_stampContract w
        (EventStamp.safeTransferFrom env sender from to tokenId data (stampContract w))
  end.

(** A transaction: the state after the call, which is the state before it
    when the call reverts. *)
Definition transact (C : Crypto) (env : Env) (sender : address) (c : Call.t)
  (w : World) : World :=
  match execute C env sender c w with
  | Ok w' => w'
  | Revert _ => w
  end.

(** Deployment as [scripts/deploy.ts] performs it: the stamp contract first,
    then the passport contract with the stamp contract's address. *)
Definition deploy (C : Crypto) (deployer self stampAddress : address)
  : Result World :=
  BasePass.constructor deployer self stampAddress (EventStamp.constructor C deployer).

(** [main] of [scripts/deploy.ts]: the two deployments, then the deployer
    grants [MINTER_ROLE] on the stamp contract to the passport contract,
    whose address is [basePassAddress]. *)
Definition deploy_main (C : Crypto) (env : Env)
  (deployer stampAddress basePassAddress : address) : Result World :=
  w ← deploy C deployer basePassAddress stampAddress;
  execute C env deployer
    (Call.grantRole (EventStamp.MINTER_ROLE C) basePassAddress) w.

(** The states of the system: a deployment followed by successful calls
    (a reverted call changes nothing).  No call comes from the zero address. *)
Inductive reachable (C : Crypto) : World -> Prop :=
| reachable_deploy deployer self stampAddress w :
    deploy C deployer self stampAddress = Ok w ->
    reachable C w
| reachable_step w env sender c w' :
    reachable C w ->
    sender <> 0 ->
    execute C env sender c w = Ok w' ->
    reachable C w'.

(** [steps C w w']: [w'] is obtained from [w] by a sequence of calls. *)
Inductive steps (C : Crypto) : World -> World -> Prop :=
| steps_refl w : steps C w w
| steps_step w env sender c w' w'' :
    steps C w w' ->
    sender <> 0 ->
    execute C env sender c w' = Ok w'' ->
    steps C w w''.

(** * Verification *)

(** ** Reasoning about results *)

#[local] Arguments N.eqb : simpl never.
#[local] Arguments N.leb : simpl never.
#[local] Arguments N.ltb : simpl never.
#[local] Arguments N.add : simpl never.
#[local] Arguments N.sub : simpl never.
#[local] Arguments N.mul : simpl never.
#[local] Arguments N.pow : simpl never.
#[local] Arguments N.modulo : simpl never.
#[local] Arguments N.div : simpl never.
#[local] Arguments N.of_nat : simpl never.
#[local] Arguments N.to_nat : simpl never.

Lemma bind_Ok {A B} (m : Result A) (f : A -> Result B) (b : B) :
  m ≫= f = Ok b <-> exists a, m = Ok a /\ f a = Ok b.
Proof.
  destruct m as [a|e]; simpl; split.
  - intros H. exists a. auto.
  - intros (a' & Ha & Hf). congruence.
  - discriminate.
  - intros (a' & Ha & _). discriminate.
Qed.

Lemma bind_Revert {A B} (m : Result A) (f : A -> Result B) (e : Error) :
  m ≫= f = Revert e <-> m = Revert e \/ exists a, m = Ok a /\ f a = Revert e.
Proof.
  destruct m as [a|e']; simpl; split.
  - intros H. right. exists a. auto.
  - intros [H|(a' & Ha & Hf)]; congruence.
  - intros H. left. congruence.
  - intros [H|(a' & Ha & _)]; congruence.
Qed.

Lemma require_Ok (c : bool) (msg : string) (u : unit) :
  require c msg = Ok u <-> c = true.
Proof. destruct c, u; simpl; split; congruence. Qed.

Lemma revert_if_Ok (c : bool) (e : Error) (u : unit) :
  revert_if c e = Ok u <-> c = false.
Proof. destruct c, u; simpl; split; congruence. Qed.

Lemma checked_add_Ok (a b c : N) :
  checked_add a b = Ok c <-> c = a + b /\ a + b <= MAX_UINT256.
Proof.
  unfold checked_add. destruct (N.leb_spec (a + b) MAX_UINT256); split.
  - intros [= <-]. auto.
  - intros [-> _]. reflexivity.
  - discriminate.
  - intros [_ ?]. lia.
Qed.

Ltac inv_result :=
  repeat match goal with
  | H : _ ≫= _ = Ok _ |- _ =>
      apply bind_Ok in H; destruct H as (? & ? & H)
  | H : mret _ = Ok _ |- _ => injection H as H
  | H : Ok _ = Ok _ |- _ => injection H as H
  | H : require _ _ = Ok _ |- _ => apply require_Ok in H
  | H : revert_if _ _ = Ok _ |- _ => apply revert_if_Ok in H
  | H : checked_add _ _ = Ok _ |- _ => apply checked_add_Ok in H; destruct H as [? H]
  | H : Revert _ = Ok _ |- _ => discriminate H
  | H : (let '(_, _) := ?p in _) = Ok _ |- _ => destruct p
  end.

Lemma get_insert `{Countable K} (m : gmap K N) (k k' : K) (v : N) :
  get (<[k := v]> m) k' = if decide (k = k') then v else get m k'.
Proof. unfold get. rewrite lookup_insert. case_decide; reflexivity. Qed.

Lemma getb_insert `{Countable K} (m : gmap K bool) (k k' : K) (v : bool) :
  getb (<[k := v]> m) k' = if decide (k = k') then v else getb m k'.
Proof. unfold getb. rewrite lookup_insert. case_decide; reflexivity. Qed.

Lemma get_empty `{Countable K} (k : K) : get (∅ : gmap K N) k = 0.
Proof. unfold get. rewrite lookup_empty. reflexivity. Qed.

Lemma getb_empty `{Countable K} (k : K) : getb (∅ : gmap K bool) k = false.
Proof. unfold getb. rewrite lookup_empty. reflexivity. Qed.


(** ** The base token *)

Lemma ERC721_update_mint (s : ERC721.Storage) (to tokenId : N) :
  ERC721._ownerOf s tokenId = 0 -> to <> 0 ->
  ERC721._update to tokenId 0 s =
    Ok (0, ERC721.set_owner
             (ERC721.set_balance s to
                (unchecked_add (get (ERC721._balances s) to) 1))
             tokenId to).
Proof.
  intros Hown Hto. unfold ERC721._update. rewrite Hown. simpl.
  apply N.eqb_neq in Hto. rewrite Hto. simpl. reflexivity.
Qed.

(** Approvals only ever concern existing tokens and real owners. *)
Definition approvals_inv (s : ERC721.Storage) : Prop :=
  (forall tokenId, ERC721._getApproved s tokenId <> 0 ->
                   ERC721._ownerOf s tokenId <> 0) /\
  (forall operator, ERC721.isApprovedForAll s 0 operator = false).

Lemma ERC721_update_auth_nonexistent (s : ERC721.Storage) (to tokenId auth : N) :
  approvals_inv s -> auth <> 0 -> ERC721._ownerOf s tokenId = 0 ->
  ERC721._update to tokenId auth s = Revert (ERC721NonexistentToken tokenId).
Proof.
  intros [Happ Hop] Hauth Hown. unfold ERC721._update. rewrite Hown.
  apply N.eqb_neq in Hauth as Hauth'. rewrite Hauth'. simpl.
  unfold ERC721._checkAuthorized, ERC721._isAuthorized. rewrite Hauth', Hop.
  assert (Hga : ERC721._getApproved s tokenId = 0).
  { destruct (N.eq_dec (ERC721._getApproved s tokenId) 0) as [|Hne]; [done|].
    apply Happ in Hne. congruence. }
  rewrite Hga.
  assert (H0 : (0 =? auth) = false) by (apply N.eqb_neq; lia).
  rewrite H0. simpl. reflexivity.
Qed.

Lemma approvals_inv_empty : approvals_inv ERC721.empty.
Proof.
  split; intros x; unfold ERC721._getApproved, ERC721.isApprovedForAll; simpl.
  - rewrite get_empty. done.
  - apply getb_empty.
Qed.

Lemma approvals_inv_mint (s : ERC721.Storage) (to tokenId b : N) :
  approvals_inv s -> to <> 0 ->
  approvals_inv (ERC721.set_owner (ERC721.set_balance s to b) tokenId to).
Proof.
  intros [Happ Hop] Hto. split.
  - intros id Hid. unfold ERC721._ownerOf. simpl. rewrite get_insert.
    case_decide; [done|]. apply Happ. exact Hid.
  - exact Hop.
Qed.

Lemma ERC721_approve_Ok (sender to tokenId : N) (s s' : ERC721.Storage) :
  ERC721.approve sender to tokenId s = Ok s' ->
  ERC721._ownerOf s tokenId <> 0 /\ s' = ERC721.set_tokenApproval s tokenId to.
Proof.
  unfold ERC721.approve, ERC721._approve. simpl. intros H.
  inv_result. unfold ERC721._requireOwned in *. inv_result.
  subst. split; [|done]. apply N.eqb_neq. done.
Qed.

Lemma approvals_inv_approve (s : ERC721.Storage) (to tokenId : N) :
  approvals_inv s -> ERC721._ownerOf s tokenId <> 0 ->
  approvals_inv (ERC721.set_tokenApproval s tokenId to).
Proof.
  intros [Happ Hop] Hown. split.
  - intros id. unfold ERC721._getApproved, ERC721._ownerOf. simpl.
    rewrite get_insert. case_decide; [subst; done|]. apply Happ.
  - exact Hop.
Qed.

Lemma ERC721_setApprovalForAll_Ok (sender operator : N) (approved : bool)
  (s s' : ERC721.Storage) :
  ERC721.setApprovalForAll sender operator approved s = Ok s' ->
  s' = ERC721.set_operatorApproval s sender operator approved.
Proof.
  unfold ERC721.setApprovalForAll, ERC721._setApprovalForAll. intros H.
  inv_result. done.
Qed.

Lemma approvals_inv_operator (s : ERC721.Storage) (sender operator : N) (b : bool) :
  approvals_inv s -> sender <> 0 ->
  approvals_inv (ERC721.set_operatorApproval s sender operator b).
Proof.
  intros [Happ Hop] Hs. split.
  - exact Happ.
  - intros op. unfold ERC721.isApprovedForAll. simpl. rewrite getb_insert.
    case_decide as Heq; [|apply Hop]. injection Heq as ? ?. done.
Qed.

(** ** The passport token *)

Definition SOULBOUND_PASSPORT : Error :=
  Error_string "BasePass: passports are non-transferable (soulbound)".
Definition SOULBOUND_STAMP : Error :=
  Error_string "EventStamp: stamps are non-transferable (soulbound)".

(** Every call of the passport's [_update] on behalf of a caller fails. *)
Lemma BasePass_update_auth (s : BasePass.Storage) (to tokenId auth : N) :
  approvals_inv (erc721 s) -> auth <> 0 ->
  BasePass._update to tokenId auth s =
    Revert (if ERC721._ownerOf (erc721 s) tokenId =? 0
            then ERC721NonexistentToken tokenId else SOULBOUND_PASSPORT).
Proof.
  intros Hinv Hauth. unfold BasePass._update.
  destruct (N.eqb_spec (ERC721._ownerOf (erc721 s) tokenId) 0) as [Hown|Hown].
  - simpl. rewrite ERC721_update_auth_nonexistent by done. reflexivity.
  - reflexivity.
Qed.

Lemma BasePass_transferFrom_reverts (s : BasePass.Storage) (sender from to tokenId : N) :
  approvals_inv (erc721 s) -> sender <> 0 ->
  BasePass.transferFrom sender from to tokenId s =
    Revert (if to =? 0 then ERC721InvalidReceiver 0
            else if ERC721._ownerOf (erc721 s) tokenId =? 0
                 then ERC721NonexistentToken tokenId else SOULBOUND_PASSPORT).
Proof.
  intros Hinv Hs. unfold BasePass.transferFrom, ERC721.transferFrom.
  destruct (to =? 0); simpl; [reflexivity|].
  rewrite BasePass_update_auth by done. reflexivity.
Qed.

Lemma BasePass_safeTransferFrom_reverts (env : Env) (s : BasePass.Storage)
  (sender from to tokenId : N) (data : list ascii) :
  approvals_inv (erc721 s) -> sender <> 0 ->
  BasePass.safeTransferFrom env sender from to tokenId data s =
    Revert (if to =? 0 then ERC721InvalidReceiver 0
            else if ERC721._ownerOf (erc721 s) tokenId =? 0
                 then ERC721NonexistentToken tokenId else SOULBOUND_PASSPORT).
Proof.
  intros Hinv Hs. unfold BasePass.safeTransferFrom, ERC721.safeTransferFrom.
  fold (BasePass.transferFrom sender from to tokenId s).
  rewrite BasePass_transferFrom_reverts by done. reflexivity.
Qed.

(** The passport storage after [sender] minted the passport numbered by the
    counter. *)
Definition minted_passport (s : BasePass.Storage) (sender : N) : BasePass.Storage :=
  {| erc721 := ERC721.set_owner (ERC721.set_balance (erc721 s) sender 1)
                 (_tokenIdCounter s) sender;
     _owner := _owner s;
     _status := ReentrancyGuard.NOT_ENTERED;
     _tokenIdCounter := _tokenIdCounter s + 1;
     _eventIdCounter := _eventIdCounter s;
     usedNonces := usedNonces s;
     events := events s;
     lastEventCreation := lastEventCreation s;
     emitted := emitted s ++ [PassportMinted sender (_tokenIdCounter s)] |}.

Record token_inv (e : ERC721.Storage) (counter : N) : Prop := {
  ti_counter : 1 <= counter <= MAX_UINT256;
  ti_fresh : forall tokenId, ERC721._ownerOf e tokenId <> 0 -> 1 <= tokenId < counter;
  ti_dense : forall tokenId, 1 <= tokenId < counter -> ERC721._ownerOf e tokenId <> 0;
  ti_approvals : approvals_inv e
}.

Record passport_inv (s : BasePass.Storage) : Prop := {
  pi_token : token_inv (erc721 s) (_tokenIdCounter s);
  pi_status : _status s = ReentrancyGuard.NOT_ENTERED;
  pi_balance : forall a, get (ERC721._balances (erc721 s)) a <= 1;
  pi_owned : forall tokenId,
    ERC721._ownerOf (erc721 s) tokenId <> 0 ->
    get (ERC721._balances (erc721 s)) (ERC721._ownerOf (erc721 s) tokenId) = 1;
  pi_unique : forall id1 id2,
    ERC721._ownerOf (erc721 s) id1 = ERC721._ownerOf (erc721 s) id2 ->
    ERC721._ownerOf (erc721 s) id1 <> 0 -> id1 = id2;
  pi_holder : forall a,
    get (ERC721._balances (erc721 s)) a <> 0 ->
    exists tokenId, ERC721._ownerOf (erc721 s) tokenId = a /\ a <> 0;
  pi_events_counter : 1 <= _eventIdCounter s <= MAX_UINT256;
  pi_events : forall eventId,
    Event.exists_ (events_get s eventId) = true ->
    1 <= eventId < _eventIdCounter s /\
    Event.id (events_get s eventId) = eventId /\
    Event.signer (events_get s eventId) <> 0
}.

Lemma token_inv_counter_free (e : ERC721.Storage) (counter : N) :
  token_inv e counter -> ERC721._ownerOf e counter = 0.
Proof.
  intros [_ Hfresh _ _]. destruct (N.eq_dec (ERC721._ownerOf e counter) 0) as [|Hne];
    [done|]. apply Hfresh in Hne. lia.
Qed.

Lemma unchecked_add_small (a b : N) :
  a + b <= MAX_UINT256 -> unchecked_add a b = a + b.
Proof.
  unfold unchecked_add, MAX_UINT256. intros H. apply N.mod_small.
  assert (0 < 2 ^ 256) by (apply N.neq_0_lt_0; apply N.pow_nonzero; lia). lia.
Qed.

Lemma mintPassport_eq (env : Env) (sender : N) (s : BasePass.Storage) :
  passport_inv s -> sender <> 0 ->
  BasePass.mintPassport env sender s =
    if get (ERC721._balances (erc721 s)) sender =? 0 then
      if _tokenIdCounter s + 1 <=? MAX_UINT256 then
        match ERC721._checkOnERC721Received env sender 0 sender
                (_tokenIdCounter s) [] with
        | Ok _ => Ok (minted_passport s sender)
        | Revert e => Revert e
        end
      else Revert (Panic 17)
    else Revert (Error_string "Already owns a passport").
Proof.
  intros Hinv Hs. unfold BasePass.mintPassport.
  rewrite (pi_status _ Hinv). simpl.
  unfold ERC721.balanceOf. apply N.eqb_neq in Hs as Hs'. rewrite Hs'. simpl.
  destruct (N.eqb_spec (get (ERC721._balances (erc721 s)) sender) 0) as [Hb|Hb];
    simpl; [|reflexivity].
  unfold checked_add.
  destruct (N.leb_spec (_tokenIdCounter s + 1) MAX_UINT256) as [Hc|Hc];
    simpl; [|reflexivity].
  unfold ERC721._safeMint, ERC721._mint. rewrite Hs'. simpl.
  unfold BasePass._update. simpl.
  rewrite (token_inv_counter_free _ _ (pi_token _ Hinv)). simpl.
  rewrite ERC721_update_mint
    by (try apply (token_inv_counter_free _ _ (pi_token _ Hinv)); done).
  simpl. rewrite Hb.
  destruct (ERC721._checkOnERC721Received env sender 0 sender (_tokenIdCounter s) []);
    simpl; [|reflexivity].
  rewrite unchecked_add_small by (unfold MAX_UINT256; pose proof Hc; lia).
  reflexivity.
Qed.

Lemma passport_inv_minted (s : BasePass.Storage) (sender : N) :
  passport_inv s -> sender <> 0 ->
  get (ERC721._balances (erc721 s)) sender = 0 ->
  _tokenIdCounter s + 1 <= MAX_UINT256 ->
  passport_inv (minted_passport s sender).
Proof.
  intros Hinv Hs Hb Hc.
  destruct Hinv as [[Hcnt Hfresh Hdense Happ] Hst Hbal Hown Huniq Hhold Hec Hev].
  assert (Hnone : forall tokenId, ERC721._ownerOf (erc721 s) tokenId <> sender).
  { intros tokenId Heq. specialize (Hown tokenId). rewrite Heq in Hown.
    specialize (Hown Hs). lia. }
  split; simpl.
  - split.
    + lia.
    + intros tokenId. unfold ERC721._ownerOf. simpl. rewrite get_insert.
      case_decide; [subst; lia|]. intros H'. apply Hfresh in H'. lia.
    + intros tokenId Hid. unfold ERC721._ownerOf. simpl. rewrite get_insert.
      case_decide; [done|]. apply Hdense. lia.
    + apply approvals_inv_mint; done.
  - reflexivity.
  - intros a. rewrite get_insert. case_decide; [lia|apply Hbal].
  - intros tokenId. unfold ERC721._ownerOf. simpl. rewrite !get_insert.
    case_decide as Hid.
    + intros _. case_decide; done.
    + intros H'. case_decide as Heq; [done|]. apply Hown. exact H'.
  - intros id1 id2. unfold ERC721._ownerOf. simpl. rewrite !get_insert.
    repeat case_decide; subst; try done.
    + intros Heq _. symmetry in Heq. apply Hnone in Heq. done.
    + intros Heq _. apply Hnone in Heq. done.
    + apply Huniq.
  - intros a. rewrite get_insert. unfold ERC721._ownerOf. simpl.
    case_decide as Ha.
    + intros _. exists (_tokenIdCounter s). rewrite get_insert.
      case_decide; [subst|]; done.
    + intros H'. destruct (Hhold a H') as (tokenId & Hid & Ha0). exists tokenId.
      rewrite get_insert. case_decide as Heq; [|done].
      subst tokenId.
      assert (H0 : ERC721._ownerOf (erc721 s) (_tokenIdCounter s) <> 0)
        by (rewrite Hid; done).
      apply Hfresh in H0. lia.
  - exact Hec.
  - exact Hev.
Qed.

(** The passport storage after a successful [createEvent]. *)
Definition created_event (env : Env) (sender : N) (name description iconUrl : string)
  (signer : N) (s : BasePass.Storage) : BasePass.Storage :=
  {| erc721 := erc721 s;
     _owner := _owner s;
     _status := _status s;
     _tokenIdCounter := _tokenIdCounter s;
     _eventIdCounter := _eventIdCounter s + 1;
     usedNonces := usedNonces s;
     events := <[_eventIdCounter s :=
                   {| Event.id := _eventIdCounter s; Event.name := name;
                      Event.description := description; Event.iconUrl := iconUrl;
                      Event.signer := signer; Event.exists_ := true |}]> (events s);
     lastEventCreation := <[sender := block_timestamp env]> (lastEventCreation s);
     emitted := emitted s ++ [EventCreated (_eventIdCounter s) name signer] |}.

(** The validation performed by [createEvent], in the order of the code. *)
Definition createEvent_check (env : Env) (sender : N) (name description : string)
  (signer : N) (s : BasePass.Storage) : Result unit :=
  if get (lastEventCreation s) sender + EVENT_COOLDOWN <=? MAX_UINT256 then
    if get (lastEventCreation s) sender + EVENT_COOLDOWN <=? block_timestamp env then
      if negb (signer =? 0) then
        if (0 <? N.of_nat (String.length name))
           && (N.of_nat (String.length name) <=? 100) then
          if N.of_nat (String.length description) <=? 500 then
            if _eventIdCounter s + 1 <=? MAX_UINT256 then Ok tt
            else Revert (Panic 17)
          else Revert (Error_string "Description must not exceed 500 characters")
        else Revert (Error_string "Name must be 1-100 characters")
      else Revert (Error_string "Invalid signer address")
    else Revert (Error_string "Rate limit: wait 1 hour between creating events")
  else Revert (Panic 17).

Lemma createEvent_eq (env : Env) (sender : N) (name description iconUrl : string)
  (signer : N) (s : BasePass.Storage) :
  BasePass.createEvent env sender name description iconUrl signer s =
    match createEvent_check env sender name description signer s with
    | Ok _ => Ok (_eventIdCounter s,
                  created_event env sender name description iconUrl signer s)
    | Revert e => Revert e
    end.
Proof.
  unfold BasePass.createEvent, createEvent_check, checked_add.
  destruct (get (lastEventCreation s) sender + EVENT_COOLDOWN <=? MAX_UINT256);
    simpl; [|reflexivity].
  destruct (_ <=? block_timestamp env); simpl; [|reflexivity].
  destruct (negb (signer =? 0)); simpl; [|reflexivity].
  destruct (_ && _); simpl; [|reflexivity].
  destruct (_ <=? 500); simpl; [|reflexivity].
  destruct (_eventIdCounter s + 1 <=? MAX_UINT256); simpl; reflexivity.
Qed.

Lemma events_get_insert (s : BasePass.Storage) (eventId e : N) (ev : Event.t) :
  default Event.zero (<[eventId := ev]> (events s) !! e) =
    if decide (eventId = e) then ev else events_get s e.
Proof. rewrite lookup_insert. case_decide; reflexivity. Qed.

Lemma passport_inv_created (env : Env) (sender : N)
  (name description iconUrl : string) (signer : N) (s : BasePass.Storage) :
  passport_inv s -> signer <> 0 -> _eventIdCounter s + 1 <= MAX_UINT256 ->
  passport_inv (created_event env sender name description iconUrl signer s).
Proof.
  intros [Htok Hst Hbal Hown Huniq Hhold Hec Hev] Hsig Hc.
  split; simpl; try done.
  - lia.
  - intros eventId. unfold events_get. simpl. rewrite events_get_insert.
    case_decide as Heq.
    + subst. simpl. intros _. repeat split; try done; lia.
    + intros H'. apply Hev in H'. destruct H' as (? & ? & ?).
      repeat split; try done; lia.
Qed.

(** ** The stamp token *)

Lemma EventStamp_update_auth (st : EventStamp.Storage) (to tokenId auth : N) :
  approvals_inv (EventStamp.erc721 st) -> auth <> 0 ->
  EventStamp._update to tokenId auth st =
    Revert (if ERC721._ownerOf (EventStamp.erc721 st) tokenId =? 0
            then ERC721NonexistentToken tokenId else SOULBOUND_STAMP).
Proof.
  intros Hinv Hauth. unfold EventStamp._update.
  destruct (N.eqb_spec (ERC721._ownerOf (EventStamp.erc721 st) tokenId) 0)
    as [Hown|Hown]; [|reflexivity].
  simpl. unfold ERC721Enumerable._update.
  unfold EventStamp.erc721 in *.
  rewrite ERC721_update_auth_nonexistent by done. reflexivity.
Qed.

Lemma EventStamp_transferFrom_reverts (st : EventStamp.Storage)
  (sender from to tokenId : N) :
  approvals_inv (EventStamp.erc721 st) -> sender <> 0 ->
  EventStamp.transferFrom sender from to tokenId st =
    Revert (if to =? 0 then ERC721InvalidReceiver 0
            else if ERC721._ownerOf (EventStamp.erc721 st) tokenId =? 0
                 then ERC721NonexistentToken tokenId else SOULBOUND_STAMP).
Proof.
  intros Hinv Hs. unfold EventStamp.transferFrom, ERC721.transferFrom.
  destruct (to =? 0); simpl; [reflexivity|].
  rewrite EventStamp_update_auth by done. reflexivity.
Qed.

Lemma EventStamp_safeTransferFrom_reverts (env : Env) (st : EventStamp.Storage)
  (sender from to tokenId : N) (data : list ascii) :
  approvals_inv (EventStamp.erc721 st) -> sender <> 0 ->
  EventStamp.safeTransferFrom env sender from to tokenId data st =
    Revert (if to =? 0 then ERC721InvalidReceiver 0
            else if ERC721._ownerOf (EventStamp.erc721 st) tokenId =? 0
                 then ERC721NonexistentToken tokenId else SOULBOUND_STAMP).
Proof.
  intros Hinv Hs. unfold EventStamp.safeTransferFrom, ERC721.safeTransferFrom.
  fold (EventStamp.transferFrom sender from to tokenId st).
  rewrite EventStamp_transferFrom_reverts by done. reflexivity.
Qed.

(** The stamp storage after the stamp numbered by the counter was minted
    to [to] for [eventId]. *)
Definition minted_stamp (env : Env) (to eventId passportId : N)
  (st : EventStamp.Storage) : EventStamp.Storage :=
  let en := EventStamp.enumerable st in
  let e := ERC721Enumerable.erc721 en in
  let tokenId := EventStamp._tokenIdCounter st in
  let b := get (ERC721._balances e) to in
  {| EventStamp.enumerable :=
       {| ERC721Enumerable.erc721 :=
            ERC721.set_owner (ERC721.set_balance e to (b + 1)) tokenId to;
          ERC721Enumerable._ownedTokens :=
            <[(to, b) := tokenId]> (ERC721Enumerable._ownedTokens en);
          ERC721Enumerable._ownedTokensIndex :=
            <[tokenId := b]> (ERC721Enumerable._ownedTokensIndex en);
          ERC721Enumerable._allTokens := ERC721Enumerable._allTokens en ++ [tokenId];
          ERC721Enumerable._allTokensIndex :=
            <[tokenId := ERC721Enumerable.totalSupply en]>
              (ERC721Enumerable._allTokensIndex en) |};
     EventStamp.access := EventStamp.access st;
     EventStamp._tokenIdCounter := tokenId + 1;
     EventStamp.stampMetadata :=
       <[tokenId := {| StampMetadata.eventId := eventId;
                       StampMetadata.passportId := passportId;
                       StampMetadata.timestamp := block_timestamp env |}]>
         (EventStamp.stampMetadata st);
     EventStamp.emitted :=
       EventStamp.emitted st ++ [EventStamp.StampMinted to tokenId eventId passportId] |}.

Record stamp_inv (st : EventStamp.Storage) : Prop := {
  si_token : token_inv (EventStamp.erc721 st) (EventStamp._tokenIdCounter st);
  si_balance : forall a,
    get (ERC721._balances (EventStamp.erc721 st)) a < EventStamp._tokenIdCounter st;
  si_enum_sound : forall a i,
    a <> 0 -> i < get (ERC721._balances (EventStamp.erc721 st)) a ->
    ERC721._ownerOf (EventStamp.erc721 st)
      (get (ERC721Enumerable._ownedTokens (EventStamp.enumerable st)) (a, i)) = a;
  si_enum_complete : forall tokenId,
    ERC721._ownerOf (EventStamp.erc721 st) tokenId <> 0 ->
    exists i,
      i < get (ERC721._balances (EventStamp.erc721 st))
            (ERC721._ownerOf (EventStamp.erc721 st) tokenId) /\
      get (ERC721Enumerable._ownedTokens (EventStamp.enumerable st))
        (ERC721._ownerOf (EventStamp.erc721 st) tokenId, i) = tokenId
}.

Lemma mintStamp_eq (C : Crypto) (env : Env) (sender to eventId passportId : N)
  (st : EventStamp.Storage) :
  stamp_inv st ->
  EventStamp.mintStamp C env sender to eventId passportId st =
    if AccessControl.hasRole (EventStamp.access st) (EventStamp.MINTER_ROLE C) sender
    then
      if EventStamp._tokenIdCounter st + 1 <=? MAX_UINT256 then
        if to =? 0 then Revert (ERC721InvalidReceiver 0)
        else
          match ERC721._checkOnERC721Received env sender 0 to
                  (EventStamp._tokenIdCounter st) [] with
          | Ok _ => Ok (EventStamp._tokenIdCounter st,
                        minted_stamp env to eventId passportId st)
          | Revert e => Revert e
          end
      else Revert (Panic 17)
    else Revert (AccessControlUnauthorizedAccount sender (EventStamp.MINTER_ROLE C)).
Proof.
  intros Hinv. unfold EventStamp.mintStamp, AccessControl._checkRole.
  destruct (AccessControl.hasRole _ _ _); simpl; [|reflexivity].
  unfold checked_add.
  destruct (N.leb_spec (EventStamp._tokenIdCounter st + 1) MAX_UINT256) as [Hc|Hc];
    simpl; [|reflexivity].
  unfold ERC721._safeMint, ERC721._mint.
  destruct (N.eqb_spec to 0) as [Hto|Hto]; simpl; [reflexivity|].
  unfold EventStamp._update. unfold EventStamp.erc721 at 1. simpl.
  pose proof (token_inv_counter_free _ _ (si_token _ Hinv)) as Hfree.
  unfold EventStamp.erc721 in Hfree. rewrite Hfree. simpl.
  unfold ERC721Enumerable._update.
  rewrite ERC721_update_mint by done. simpl.
  apply N.eqb_neq in Hto as Hto'. rewrite Hto'. simpl.
  assert (H0to : (0 =? to) = false) by (apply N.eqb_neq; lia).
  rewrite H0to. simpl.
  unfold ERC721Enumerable._addTokenToOwnerEnumeration,
    ERC721Enumerable.balanceOf, ERC721.balanceOf. simpl.
  rewrite Hto'. simpl. rewrite get_insert. rewrite decide_True by done.
  pose proof (si_balance _ Hinv to) as Hb. unfold EventStamp.erc721 in Hb.
  rewrite unchecked_add_small by lia.
  unfold checked_sub.
  destruct (N.leb_spec 1 (get (ERC721._balances
    (ERC721Enumerable.erc721 (EventStamp.enumerable st))) to + 1)) as [H1|H1];
    [|lia].
  simpl.
  destruct (ERC721._checkOnERC721Received env sender 0 to
              (EventStamp._tokenIdCounter st) []); simpl; [|reflexivity].
  unfold minted_stamp. simpl.
  replace (get (ERC721._balances (ERC721Enumerable.erc721 (EventStamp.enumerable st)))
             to + 1 - 1)
    with (get (ERC721._balances (ERC721Enumerable.erc721 (EventStamp.enumerable st))) to)
    by lia.
  reflexivity.
Qed.

Lemma stamp_inv_minted (env : Env) (to eventId passportId : N)
  (st : EventStamp.Storage) :
  stamp_inv st -> to <> 0 -> EventStamp._tokenIdCounter st + 1 <= MAX_UINT256 ->
  stamp_inv (minted_stamp env to eventId passportId st).
Proof.
  intros [[Hcnt Hfresh Hdense Happ] Hbal Hsound Hcompl] Hto Hc.
  unfold EventStamp.erc721 in *.
  assert (Hfree : ERC721._ownerOf (ERC721Enumerable.erc721 (EventStamp.enumerable st))
                    (EventStamp._tokenIdCounter st) = 0).
  { destruct (N.eq_dec (ERC721._ownerOf
      (ERC721Enumerable.erc721 (EventStamp.enumerable st))
      (EventStamp._tokenIdCounter st)) 0) as [|Hne]; [done|].
    apply Hfresh in Hne. lia. }
  split; unfold EventStamp.erc721; simpl.
  - split.
    + lia.
    + intros tokenId. unfold ERC721._ownerOf. simpl. rewrite get_insert.
      case_decide; [subst; lia|]. intros H'. apply Hfresh in H'. lia.
    + intros tokenId Hid. unfold ERC721._ownerOf. simpl. rewrite get_insert.
      case_decide; [done|]. apply Hdense. lia.
    + apply approvals_inv_mint; done.
  - intros a. rewrite get_insert. pose proof (Hbal a). pose proof (Hbal to).
    case_decide; subst; lia.
  - intros a i Ha Hi. rewrite get_insert in Hi.
    unfold ERC721._ownerOf. simpl.
    rewrite (get_insert (ERC721Enumerable._ownedTokens (EventStamp.enumerable st))).
    destruct (decide ((to, get (ERC721._balances
      (ERC721Enumerable.erc721 (EventStamp.enumerable st))) to) = (a, i)))
      as [Hk|Hk].
    + rewrite get_insert. rewrite decide_True by done. injection Hk; done.
    + assert (Hi' : i < get (ERC721._balances
          (ERC721Enumerable.erc721 (EventStamp.enumerable st))) a).
      { destruct (decide (to = a)) as [->|]; [|done].
        assert (i <> get (ERC721._balances
          (ERC721Enumerable.erc721 (EventStamp.enumerable st))) a)
          by (intros ->; done). lia. }
      clear Hi. specialize (Hsound a i Ha Hi'). rewrite get_insert.
      destruct (decide (EventStamp._tokenIdCounter st =
        get (ERC721Enumerable._ownedTokens (EventStamp.enumerable st)) (a, i)))
        as [Hid|Hid]; [|exact Hsound].
      exfalso. rewrite <- Hid in Hsound. rewrite Hfree in Hsound. done.
  - intros tokenId. unfold ERC721._ownerOf at 1 2 3. simpl.
    rewrite (get_insert (ERC721._owners _)).
    destruct (decide (EventStamp._tokenIdCounter st = tokenId)) as [Hid|Hid].
    + subst tokenId. intros _.
      exists (get (ERC721._balances
                (ERC721Enumerable.erc721 (EventStamp.enumerable st))) to).
      rewrite !get_insert. rewrite !decide_True by done. split; [lia|done].
    + intros Hown. destruct (Hcompl tokenId Hown) as (i & Hi & Hget).
      exists i. fold (ERC721._ownerOf
        (ERC721Enumerable.erc721 (EventStamp.enumerable st)) tokenId).
      rewrite !get_insert. split.
      * case_decide as Heq; [rewrite <- Heq in Hi; lia|done].
      * case_decide as Hk; [|done]. injection Hk as Hk1 Hk2.
        rewrite <- Hk1, <- Hk2 in Hi. lia.
Qed.

(** [owner] holds a stamp of [eventId]. *)
Definition holds_stamp (st : EventStamp.Storage) (owner eventId : N) : Prop :=
  exists tokenId,
    ERC721._ownerOf (EventStamp.erc721 st) tokenId = owner /\
    StampMetadata.eventId (EventStamp.stampMetadata_get st tokenId) = eventId.

Lemma hasStampForEvent_from_spec (st : EventStamp.Storage) (owner eventId : N) :
  owner <> 0 ->
  forall (n : nat) (i : N),
    i + N.of_nat n = get (ERC721._balances (EventStamp.erc721 st)) owner ->
    exists b,
      EventStamp.hasStampForEvent_from st owner eventId i n = Ok b /\
      (b = true <->
       exists j, i <= j < get (ERC721._balances (EventStamp.erc721 st)) owner /\
         StampMetadata.eventId
           (EventStamp.stampMetadata_get st
              (get (ERC721Enumerable._ownedTokens (EventStamp.enumerable st))
                 (owner, j))) = eventId).
Proof.
  intros Ho n. induction n as [|n IH]; intros i Hi.
  - exists false. split; [reflexivity|]. split; [discriminate|].
    intros (j & Hj & _). lia.
  - simpl. unfold ERC721Enumerable.tokenOfOwnerByIndex,
      ERC721Enumerable.balanceOf, ERC721.balanceOf.
    unfold EventStamp.erc721 in *.
    apply N.eqb_neq in Ho as Ho'. rewrite Ho'. simpl.
    destruct (N.leb_spec (get (ERC721._balances
      (ERC721Enumerable.erc721 (EventStamp.enumerable st))) owner) i) as [Hle|Hlt];
      [lia|]. simpl.
    destruct (N.eqb_spec (StampMetadata.eventId (EventStamp.stampMetadata_get st
      (get (ERC721Enumerable._ownedTokens (EventStamp.enumerable st)) (owner, i))))
      eventId) as [Heq|Hne].
    + exists true. split; [reflexivity|]. split; [|done]. intros _.
      exists i. split; [lia|done].
    + destruct (IH (i + 1)) as (b & Hb & Hspec); [lia|].
      exists b. split; [exact Hb|]. rewrite Hspec. split.
      * intros (j & Hj & Hm). exists j. split; [lia|done].
      * intros (j & Hj & Hm). exists j. split; [|done].
        assert (j <> i) by (intros ->; done). lia.
Qed.

Lemma hasStampForEvent_spec (st : EventStamp.Storage) (owner eventId : N) :
  stamp_inv st -> owner <> 0 ->
  exists b, EventStamp.hasStampForEvent st owner eventId = Ok b /\
            (b = true <-> holds_stamp st owner eventId).
Proof.
  intros Hinv Ho. unfold EventStamp.hasStampForEvent,
    ERC721Enumerable.balanceOf, ERC721.balanceOf.
  apply N.eqb_neq in Ho as Ho'. rewrite Ho'. simpl.
  destruct (hasStampForEvent_from_spec st owner eventId Ho
              (N.to_nat (get (ERC721._balances (EventStamp.erc721 st)) owner)) 0)
    as (b & Hb & Hspec); [lia|].
  exists b. split; [exact Hb|]. rewrite Hspec. unfold holds_stamp. split.
  - intros (j & Hj & Hm). eexists. split; [|exact Hm].
    apply (si_enum_sound _ Hinv); [done|lia].
  - intros (tokenId & Hown & Hm).
    assert (Hne : ERC721._ownerOf (EventStamp.erc721 st) tokenId <> 0)
      by (rewrite Hown; done).
    destruct (si_enum_complete _ Hinv tokenId Hne) as (i & Hi & Hget).
    rewrite Hown in Hi, Hget. exists i. split; [lia|]. rewrite Hget. done.
Qed.

(** ** [claimStamp] as a list of checks *)

Definition Inv (w : World) : Prop :=
  passport_inv (basePass w) /\ stamp_inv (stampContract w).

(** The checks of [claimStamp], in the order of the code; the last three
    are those of the call to [mintStamp]. *)
Definition claimStamp_check (C : Crypto) (env : Env) (sender : N)
  (tokenId eventId nonce expiration : N) (signature : list ascii) (w : World)
  : Result unit :=
  let s := basePass w in
  let owner := ERC721._ownerOf (erc721 s) tokenId in
  if owner =? 0 then Revert (ERC721NonexistentToken tokenId)
  else if negb (owner =? sender) then Revert (Error_string "Not passport owner")
  else if negb (Event.exists_ (events_get s eventId))
  then Revert (Error_string "Event does not exist")
  else
    match EventStamp.hasStampForEvent (stampContract w) sender eventId with
    | Revert e => Revert e
    | Ok true => Revert (Error_string "Stamp already claimed")
    | Ok false =>
        if getb (usedNonces s) nonce then Revert (Error_string "Nonce already used")
        else if negb (block_timestamp env <=? expiration)
        then Revert (Error_string "Signature expired")
        else
          match ECDSA.recover C
                  (claimDigest C eventId nonce expiration (block_chainid env))
                  signature with
          | Revert e => Revert e
          | Ok recoveredSigner =>
              if negb (recoveredSigner =? Event.signer (events_get s eventId))
              then Revert (Error_string "Invalid signature")
              else if negb (AccessControl.hasRole
                              (EventStamp.access (stampContract w))
                              (EventStamp.MINTER_ROLE C) (this w))
              then Revert (AccessControlUnauthorizedAccount (this w)
                             (EventStamp.MINTER_ROLE C))
              else if negb (EventStamp._tokenIdCounter (stampContract w) + 1
                            <=? MAX_UINT256)
              then Revert (Panic 17)
              else ERC721._checkOnERC721Received env (this w) 0 sender
                     (EventStamp._tokenIdCounter (stampContract w)) []
          end
    end.

(** The state after a successful [claimStamp]. *)
Definition claimed (env : Env) (sender tokenId eventId nonce : N) (w : World)
  : World :=
  let s := basePass w in
  {| this := this w;
     basePass :=
       {| erc721 := erc721 s;
          _owner := _owner s;
          _status := ReentrancyGuard.NOT_ENTERED;
          _tokenIdCounter := _tokenIdCounter s;
          _eventIdCounter := _eventIdCounter s;
          usedNonces := <[nonce := true]> (usedNonces s);
          events := events s;
          lastEventCreation := lastEventCreation s;
          emitted := emitted s ++ [StampClaimed tokenId eventId sender] |};
     stampContract := minted_stamp env sender eventId tokenId (stampContract w) |}.

Lemma claimStamp_eq (C : Crypto) (env : Env) (sender : N)
  (tokenId eventId nonce expiration : N) (signature : list ascii) (w : World) :
  Inv w ->
  BasePass.claimStamp C env sender tokenId eventId nonce expiration signature w =
    match claimStamp_check C env sender tokenId eventId nonce expiration signature w
    with
    | Ok _ => Ok (claimed env sender tokenId eventId nonce w)
    | Revert e => Revert e
    end.
Proof.
  intros [Hp Hs]. unfold BasePass.claimStamp, claimStamp_check, events_get.
  rewrite (pi_status _ Hp). simpl.
  unfold ERC721.ownerOf, ERC721._requireOwned.
  destruct (N.eqb_spec (ERC721._ownerOf (erc721 (basePass w)) tokenId) 0)
    as [Ho|Ho]; simpl; [reflexivity|].
  destruct (N.eqb_spec (ERC721._ownerOf (erc721 (basePass w)) tokenId) sender)
    as [Hos|Hos]; simpl; [|reflexivity].
  destruct (Event.exists_ _); simpl; [|reflexivity].
  destruct (EventStamp.hasStampForEvent (stampContract w) sender eventId)
    as [[|]|]; simpl; try reflexivity.
  destruct (getb (usedNonces (basePass w)) nonce); simpl; [reflexivity|].
  destruct (block_timestamp env <=? expiration); simpl; [|reflexivity].
  destruct (ECDSA.recover C _ signature) as [recovered|]; simpl; [|reflexivity].
  destruct (recovered =? _); simpl; [|reflexivity].
  rewrite mintStamp_eq by done.
  destruct (AccessControl.hasRole _ _ _); simpl; [|reflexivity].
  destruct (_ <=? MAX_UINT256); simpl; [|reflexivity].
  assert (Hs0 : (sender =? 0) = false) by (apply N.eqb_neq; congruence).
  rewrite Hs0.
  destruct (ERC721._checkOnERC721Received env (this w) 0 sender _ []) as [[]|];
    simpl; reflexivity.
Qed.

(** ** The effect of a successful call *)

(** The state a call leaves when it succeeds. *)
Definition post (env : Env) (sender : N) (c : Call.t) (w : World) : World :=
  match c with
  | Call.mintPassport => set_basePass w (minted_passport (basePass w) sender)
  | Call.createEvent name description iconUrl signer =>
      set_basePass w
        (created_event env sender name description iconUrl signer (basePass w))
  | Call.claimStamp tokenId eventId nonce _ _ =>
      claimed env sender tokenId eventId nonce w
  | Call.passport_approve to tokenId =>
      set_basePass w
        (set_erc721 (basePass w)
           (ERC721.set_tokenApproval (erc721 (basePass w)) tokenId to))
  | Call.passport_setApprovalForAll operator approved =>
      set_basePass w
        (set_erc721 (basePass w)
           (ERC721.set_operatorApproval (erc721 (basePass w)) sender operator
              approved))
  | Call.passport_transferFrom _ _ _ => w
  | Call.passport_safeTransferFrom _ _ _ _ => w
  | Call.transferOwnership newOwner =>
      set_basePass w (BasePass.set_owner (basePass w) newOwner)
  | Call.renounceOwnership => set_basePass w (BasePass.set_owner (basePass w) 0)
  | Call.mintStamp to eventId passportId =>
      set_stampContract w (minted_stamp env to eventId passportId (stampContract w))
  | Call.grantRole role account =>
      set_stampContract w
        (EventStamp.set_access (stampContract w)
           (AccessControl._grantRole (EventStamp.access (stampContract w))
              role account))
  | Call.revokeRole role account =>
      set_stampContract w
        (EventStamp.set_access (stampContract w)
           (AccessControl._revokeRole (EventStamp.access (stampContract w))
              role account))
  | Call.renounceRole role callerConfirmation =>
      set_stampContract w
        (EventStamp.set_access (stampContract w)
           (AccessControl._revokeRole (EventStamp.access (stampContract w))
              role callerConfirmation))
  | Call.stamp_approve to tokenId =>
      set_stampContract w
        (EventStamp.set_erc721 (stampContract w)
           (ERC721.set_tokenApproval (EventStamp.erc721 (stampContract w))
              tokenId to))
  | Call.stamp_setApprovalForAll operator approved =>
      set_stampContract w
        (EventStamp.set_erc721 (stampContract w)
           (ERC721.set_operatorApproval (EventStamp.erc721 (stampContract w))
              sender operator approved))
  | Call.stamp_transferFrom _ _ _ => w
  | Call.stamp_safeTransferFrom _ _ _ _ => w
  end.

(** What a successful call tells about the state it started from. *)
Definition guard (C : Crypto) (env : Env) (sender : N) (c : Call.t) (w : World)
  : Prop :=
  match c with
  | Call.mintPassport =>
      get (ERC721._balances (erc721 (basePass w))) sender = 0 /\
      _tokenIdCounter (basePass w) + 1 <= MAX_UINT256
  | Call.createEvent name description iconUrl signer =>
      createEvent_check env sender name description signer (basePass w) = Ok tt
  | Call.claimStamp tokenId eventId nonce expiration signature =>
      claimStamp_check C env sender tokenId eventId nonce expiration signature w
        = Ok tt
  | Call.passport_approve to tokenId =>
      ERC721._ownerOf (erc721 (basePass w)) tokenId <> 0
  | Call.mintStamp to eventId passportId =>
      AccessControl.hasRole (EventStamp.access (stampContract w))
        (EventStamp.MINTER_ROLE C) sender = true /\
      to <> 0 /\ EventStamp._tokenIdCounter (stampContract w) + 1 <= MAX_UINT256
  | Call.stamp_approve to tokenId =>
      ERC721._ownerOf (EventStamp.erc721 (stampContract w)) tokenId <> 0
  | Call.passport_transferFrom _ _ _ | Call.passport_safeTransferFrom _ _ _ _
  | Call.stamp_transferFrom _ _ _ | Call.stamp_safeTransferFrom _ _ _ _ => False
  | _ => True
  end.

Lemma world_eta (w : World) :
  {| this := this w; basePass := basePass w; stampContract := stampContract w |} = w.
Proof. destruct w; reflexivity. Qed.

Lemma execute_Ok (C : Crypto) (env : Env) (sender : N) (c : Call.t) (w w' : World) :
  Inv w -> sender <> 0 -> execute C env sender c w = Ok w' ->
  guard C env sender c w /\ w' = post env sender c w.
Proof.
  intros [Hp Hs] Hsender H. destruct c; simpl in H; unfold on_basePass,
    on_stampContract in H.
  - (* mintPassport *)
    rewrite mintPassport_eq in H by done. simpl.
    destruct (N.eqb_spec (get (ERC721._balances (erc721 (basePass w))) sender) 0);
      [|discriminate].
    destruct (N.leb_spec (_tokenIdCounter (basePass w) + 1) MAX_UINT256);
      [|discriminate].
    destruct (ERC721._checkOnERC721Received _ _ _ _ _ _); [|discriminate].
    simpl in H. injection H as <-. done.
  - (* createEvent *)
    rewrite createEvent_eq in H. simpl.
    destruct (createEvent_check _ _ _ _ _ _) as [[]|]; [|discriminate].
    simpl in H. injection H as <-. done.
  - (* claimStamp *)
    rewrite claimStamp_eq in H by done. simpl.
    destruct (claimStamp_check _ _ _ _ _ _ _ _ _) as [[]|]; [|discriminate].
    injection H as <-. done.
  - (* approve *)
    unfold BasePass.approve in H.
    destruct (ERC721.approve _ _ _ _) as [e|] eqn:He; [|discriminate].
    simpl in H. injection H as <-. apply ERC721_approve_Ok in He as [Ho ->]. done.
  - unfold BasePass.setApprovalForAll in H.
    destruct (ERC721.setApprovalForAll _ _ _ _) as [e|] eqn:He; [|discriminate].
    simpl in H. injection H as <-.
    apply ERC721_setApprovalForAll_Ok in He as ->. done.
  - rewrite BasePass_transferFrom_reverts in H
      by (try apply (ti_approvals _ _ (pi_token _ Hp)); done). discriminate.
  - rewrite BasePass_safeTransferFrom_reverts in H
      by (try apply (ti_approvals _ _ (pi_token _ Hp)); done). discriminate.
  - unfold BasePass.transferOwnership, Ownable.transferOwnership in H.
    destruct (Ownable._checkOwner _ _); [|discriminate]. simpl in H.
    destruct (revert_if _ _); [|discriminate]. simpl in H.
    injection H as <-. done.
  - unfold BasePass.renounceOwnership, Ownable.renounceOwnership in H.
    destruct (Ownable._checkOwner _ _); [|discriminate]. simpl in H.
    injection H as <-. done.
  - (* mintStamp *)
    rewrite mintStamp_eq in H by done. simpl.
    destruct (AccessControl.hasRole _ _ _); [|discriminate].
    destruct (N.leb_spec (EventStamp._tokenIdCounter (stampContract w) + 1)
                MAX_UINT256); [|discriminate].
    destruct (N.eqb_spec to 0); [discriminate|].
    destruct (ERC721._checkOnERC721Received _ _ _ _ _ _); [|discriminate].
    simpl in H. injection H as <-. done.
  - unfold EventStamp.grantRole, AccessControl.grantRole in H.
    destruct (AccessControl._checkRole _ _ _); [|discriminate]. simpl in H.
    injection H as <-. done.
  - unfold EventStamp.revokeRole, AccessControl.revokeRole in H.
    destruct (AccessControl._checkRole _ _ _); [|discriminate]. simpl in H.
    injection H as <-. done.
  - unfold EventStamp.renounceRole, AccessControl.renounceRole in H.
    destruct (revert_if _ _); [|discriminate]. simpl in H.
    injection H as <-. done.
  - unfold EventStamp.approve in H.
    destruct (ERC721.approve _ _ _ _) as [e|] eqn:He; [|discriminate].
    simpl in H. injection H as <-. apply ERC721_approve_Ok in He as [Ho ->]. done.
  - unfold EventStamp.setApprovalForAll in H.
    destruct (ERC721.setApprovalForAll _ _ _ _) as [e|] eqn:He; [|discriminate].
    simpl in H. injection H as <-.
    apply ERC721_setApprovalForAll_Ok in He as ->. done.
  - rewrite EventStamp_transferFrom_reverts in H
      by (try apply (ti_approvals _ _ (si_token _ Hs)); done). discriminate.
  - rewrite EventStamp_safeTransferFrom_reverts in H
      by (try apply (ti_approvals _ _ (si_token _ Hs)); done). discriminate.
Qed.

Lemma claimStamp_check_Ok (C : Crypto) (env : Env) (sender : N)
  (tokenId eventId nonce expiration : N) (signature : list ascii) (w : World) :
  claimStamp_check C env sender tokenId eventId nonce expiration signature w = Ok tt
  <->
  ERC721._ownerOf (erc721 (basePass w)) tokenId = sender /\ sender <> 0 /\
  Event.exists_ (events_get (basePass w) eventId) = true /\
  EventStamp.hasStampForEvent (stampContract w) sender eventId = Ok false /\
  getb (usedNonces (basePass w)) nonce = false /\
  block_timestamp env <= expiration /\
  ECDSA.recover C (claimDigest C eventId nonce expiration (block_chainid env))
    signature = Ok (Event.signer (events_get (basePass w) eventId)) /\
  AccessControl.hasRole (EventStamp.access (stampContract w))
    (EventStamp.MINTER_ROLE C) (this w) = true /\
  EventStamp._tokenIdCounter (stampContract w) + 1 <= MAX_UINT256 /\
  ERC721._checkOnERC721Received env (this w) 0 sender
    (EventStamp._tokenIdCounter (stampContract w)) [] = Ok tt.
Proof.
  unfold claimStamp_check.
  destruct (N.eqb_spec (ERC721._ownerOf (erc721 (basePass w)) tokenId) 0) as [Ho|Ho].
  { split; [discriminate|]. intros (H1 & H2 & _). congruence. }
  destruct (N.eqb_spec (ERC721._ownerOf (erc721 (basePass w)) tokenId) sender)
    as [Hos|Hos]; simpl.
  2: { split; [discriminate|]. intros (H1 & _). congruence. }
  destruct (Event.exists_ (events_get (basePass w) eventId)); simpl.
  2: { split; [discriminate|]. intros (_ & _ & H & _). discriminate. }
  destruct (EventStamp.hasStampForEvent (stampContract w) sender eventId)
    as [[|]|].
  1, 3: split; [discriminate|]; intros (_ & _ & _ & H & _); discriminate.
  destruct (getb (usedNonces (basePass w)) nonce).
  { split; [discriminate|]. intros (_ & _ & _ & _ & H & _). discriminate. }
  destruct (N.leb_spec (block_timestamp env) expiration) as [Ht|Ht]; simpl.
  2: { split; [discriminate|]. intros (_ & _ & _ & _ & _ & H & _). lia. }
  destruct (ECDSA.recover C _ signature) as [recovered|].
  2: { split; [discriminate|]. intros (_ & _ & _ & _ & _ & _ & H & _). discriminate. }
  destruct (N.eqb_spec recovered (Event.signer (events_get (basePass w) eventId)))
    as [Hr|Hr]; simpl.
  2: { split; [discriminate|]. intros (_ & _ & _ & _ & _ & _ & H & _). congruence. }
  destruct (AccessControl.hasRole _ _ _); simpl.
  2: { split; [discriminate|].
       intros (_ & _ & _ & _ & _ & _ & _ & H & _). discriminate. }
  destruct (N.leb_spec (EventStamp._tokenIdCounter (stampContract w) + 1)
              MAX_UINT256) as [Hc|Hc]; simpl.
  2: { split; [discriminate|].
       intros (_ & _ & _ & _ & _ & _ & _ & _ & H & _). lia. }
  subst. split.
  - intros H. repeat split; try done; congruence.
  - intros (_ & _ & _ & _ & _ & _ & _ & _ & _ & H). exact H.
Qed.

Lemma createEvent_check_Ok (env : Env) (sender : N) (name description : string)
  (signer : N) (s : BasePass.Storage) :
  createEvent_check env sender name description signer s = Ok tt <->
  get (lastEventCreation s) sender + EVENT_COOLDOWN <= MAX_UINT256 /\
  get (lastEventCreation s) sender + EVENT_COOLDOWN <= block_timestamp env /\
  signer <> 0 /\
  1 <= N.of_nat (String.length name) <= 100 /\
  N.of_nat (String.length description) <= 500 /\
  _eventIdCounter s + 1 <= MAX_UINT256.
Proof.
  unfold createEvent_check.
  destruct (N.leb_spec (get (lastEventCreation s) sender + EVENT_COOLDOWN)
              MAX_UINT256).
  2: { split; [discriminate|]. intros (? & _). lia. }
  destruct (N.leb_spec (get (lastEventCreation s) sender + EVENT_COOLDOWN)
              (block_timestamp env)).
  2: { split; [discriminate|]. intros (_ & ? & _). lia. }
  destruct (N.eqb_spec signer 0); simpl.
  { split; [discriminate|]. intros (_ & _ & ? & _). done. }
  destruct (N.ltb_spec 0 (N.of_nat (String.length name))); simpl.
  2: { split; [discriminate|]. intros (_ & _ & _ & ? & _). lia. }
  destruct (N.leb_spec (N.of_nat (String.length name)) 100); simpl.
  2: { split; [discriminate|]. intros (_ & _ & _ & ? & _). lia. }
  destruct (N.leb_spec (N.of_nat (String.length description)) 500).
  2: { split; [discriminate|]. intros (_ & _ & _ & _ & ? & _). lia. }
  destruct (N.leb_spec (_eventIdCounter s + 1) MAX_UINT256).
  2: { split; [discriminate|]. intros (_ & _ & _ & _ & _ & ?). lia. }
  split; [|done]. intros _. repeat split; try done; lia.
Qed.

Lemma passport_inv_ext (s s' : BasePass.Storage) :
  ERC721._owners (erc721 s') = ERC721._owners (erc721 s) ->
  ERC721._balances (erc721 s') = ERC721._balances (erc721 s) ->
  approvals_inv (erc721 s') ->
  _status s' = ReentrancyGuard.NOT_ENTERED ->
  _tokenIdCounter s' = _tokenIdCounter s ->
  _eventIdCounter s' = _eventIdCounter s ->
  events s' = events s ->
  passport_inv s -> passport_inv s'.
Proof.
  intros Ho Hb Happ Hst Hc He Hev
    [[Hcnt Hfresh Hdense _] _ Hbal Hown Huniq Hhold Hec Hevs].
  unfold ERC721._ownerOf in *.
  split; unfold ERC721._ownerOf, events_get in *;
    rewrite ?Ho, ?Hb, ?Hc, ?He, ?Hev; try done.
  split; unfold ERC721._ownerOf; rewrite ?Ho, ?Hc; done.
Qed.

Lemma stamp_inv_ext (st st' : EventStamp.Storage) :
  ERC721._owners (EventStamp.erc721 st') = ERC721._owners (EventStamp.erc721 st) ->
  ERC721._balances (EventStamp.erc721 st') = ERC721._balances (EventStamp.erc721 st) ->
  approvals_inv (EventStamp.erc721 st') ->
  ERC721Enumerable._ownedTokens (EventStamp.enumerable st') =
    ERC721Enumerable._ownedTokens (EventStamp.enumerable st) ->
  EventStamp._tokenIdCounter st' = EventStamp._tokenIdCounter st ->
  stamp_inv st -> stamp_inv st'.
Proof.
  intros Ho Hb Happ Hot Hc [[Hcnt Hfresh Hdense _] Hbal Hsound Hcompl].
  unfold ERC721._ownerOf in *.
  split; unfold ERC721._ownerOf; rewrite ?Ho, ?Hb, ?Hc, ?Hot; try done.
  split; unfold ERC721._ownerOf; rewrite ?Ho, ?Hc; done.
Qed.

Lemma Inv_post (C : Crypto) (env : Env) (sender : N) (c : Call.t) (w : World) :
  Inv w -> sender <> 0 -> guard C env sender c w -> Inv (post env sender c w).
Proof.
  intros [Hp Hs] Hsender Hg.
  pose proof (ti_approvals _ _ (pi_token _ Hp)) as Hpa.
  pose proof (ti_approvals _ _ (si_token _ Hs)) as Hsa.
  destruct c; simpl in *; try done; split; simpl; try done.
  - destruct Hg. apply passport_inv_minted; done.
  - apply createEvent_check_Ok in Hg as (_ & _ & ? & _ & _ & ?).
    apply passport_inv_created; done.
  - eapply passport_inv_ext; [..|exact Hp]; done.
  - apply claimStamp_check_Ok in Hg as (_ & ? & _ & _ & _ & _ & _ & _ & ? & _).
    apply stamp_inv_minted; done.
  - eapply passport_inv_ext; [..|exact Hp]; try done; simpl.
    + apply approvals_inv_approve; done.
    + apply (pi_status _ Hp).
  - eapply passport_inv_ext; [..|exact Hp]; try done; simpl.
    + apply approvals_inv_operator; done.
    + apply (pi_status _ Hp).
  - eapply passport_inv_ext; [..|exact Hp]; try done. apply (pi_status _ Hp).
  - eapply passport_inv_ext; [..|exact Hp]; try done. apply (pi_status _ Hp).
  - destruct Hg as (_ & ? & ?). apply stamp_inv_minted; done.
  - eapply stamp_inv_ext; [..|exact Hs]; done.
  - eapply stamp_inv_ext; [..|exact Hs]; done.
  - eapply stamp_inv_ext; [..|exact Hs]; done.
  - eapply stamp_inv_ext; [..|exact Hs]; try done.
    apply approvals_inv_approve; done.
  - eapply stamp_inv_ext; [..|exact Hs]; try done.
    apply approvals_inv_operator; done.
Qed.

Lemma Inv_deploy (C : Crypto) (deployer self stampAddress : N) (w : World) :
  deploy C deployer self stampAddress = Ok w -> Inv w.
Proof.
  unfold deploy, BasePass.constructor. intros H.
  destruct (revert_if _ _); [|discriminate]. simpl in H.
  destruct (require _ _); [|discriminate]. simpl in H.
  injection H as <-.
  assert (Hmax : 1 <= MAX_UINT256) by (unfold MAX_UINT256; lia).
  assert (Htok : token_inv ERC721.empty 1).
  { split; [lia| | |apply approvals_inv_empty].
    - intros tokenId. unfold ERC721._ownerOf. simpl. rewrite get_empty. done.
    - intros tokenId. lia. }
  split; simpl.
  - split; simpl; done.
  - split; unfold EventStamp.erc721; simpl; try done.
    intros a1 i _. rewrite get_empty. lia.
Qed.

Lemma reachable_Inv (C : Crypto) (w : World) : reachable C w -> Inv w.
Proof.
  induction 1 as [deployer self stampAddress w Hd|w env sender c w' Hr IH Hs He].
  - eapply Inv_deploy. exact Hd.
  - destruct (execute_Ok _ _ _ _ _ _ IH Hs He) as [Hg ->].
    eapply Inv_post; done.
Qed.

Lemma steps_Inv (C : Crypto) (w w' : World) : steps C w w' -> Inv w -> Inv w'.
Proof.
  induction 1 as [|w env sender c w' w'' Hst IH Hs He]; intros Hinv; [done|].
  specialize (IH Hinv).
  destruct (execute_Ok _ _ _ _ _ _ IH Hs He) as [Hg ->].
  eapply Inv_post; done.
Qed.

Lemma steps_reachable (C : Crypto) (w w' : World) :
  steps C w w' -> reachable C w -> reachable C w'.
Proof.
  induction 1 as [|w env sender c w' w'' Hst IH Hs He]; intros Hr; [done|].
  eapply reachable_step; [apply IH, Hr|done|exact He].
Qed.

(** ** What no call undoes *)

Definition passport_owner (w : World) (tokenId : N) : N :=
  ERC721._ownerOf (erc721 (basePass w)) tokenId.
Definition stamp_owner (w : World) (tokenId : N) : N :=
  ERC721._ownerOf (EventStamp.erc721 (stampContract w)) tokenId.
Definition stamp_data (w : World) (tokenId : N) : StampMetadata.t :=
  EventStamp.stampMetadata_get (stampContract w) tokenId.
Definition passport_balance (w : World) (a : N) : N :=
  get (ERC721._balances (erc721 (basePass w))) a.

(** [persists w w']: everything recorded in [w] is still recorded, unchanged,
    in [w']. *)
Record persists (w w' : World) : Prop := {
  ps_this : this w' = this w;
  ps_passport_owner : forall tokenId,
    passport_owner w tokenId <> 0 ->
    passport_owner w' tokenId = passport_owner w tokenId;
  ps_passport_balance : forall a,
    passport_balance w a <> 0 -> passport_balance w' a = passport_balance w a;
  ps_stamp_owner : forall tokenId,
    stamp_owner w tokenId <> 0 -> stamp_owner w' tokenId = stamp_owner w tokenId;
  ps_stamp_data : forall tokenId,
    stamp_owner w tokenId <> 0 -> stamp_data w' tokenId = stamp_data w tokenId;
  ps_nonce : forall nonce,
    getb (usedNonces (basePass w)) nonce = true ->
    getb (usedNonces (basePass w')) nonce = true;
  ps_event : forall eventId,
    Event.exists_ (events_get (basePass w) eventId) = true ->
    events_get (basePass w') eventId = events_get (basePass w) eventId
}.

Lemma persists_refl (w : World) : persists w w.
Proof. split; done. Qed.

Lemma persists_trans (w1 w2 w3 : World) :
  persists w1 w2 -> persists w2 w3 -> persists w1 w3.
Proof.
  intros [T1 O1 B1 S1 D1 N1 E1] [T2 O2 B2 S2 D2 N2 E2]. split.
  - congruence.
  - intros id H. rewrite <- (O1 id H). apply O2. rewrite (O1 id H). done.
  - intros a H. rewrite <- (B1 a H). apply B2. rewrite (B1 a H). done.
  - intros id H. rewrite <- (S1 id H). apply S2. rewrite (S1 id H). done.
  - intros id H. rewrite <- (D1 id H). apply D2. rewrite (S1 id H). done.
  - intros n H. apply N2, N1, H.
  - intros e H. rewrite <- (E1 e H). apply E2. rewrite (E1 e H). done.
Qed.

Lemma persists_minted_stamp (env : Env) (to eventId passportId : N) (w : World)
  (s : BasePass.Storage) :
  stamp_inv (stampContract w) ->
  erc721 s = erc721 (basePass w) ->
  (forall nonce, getb (usedNonces (basePass w)) nonce = true ->
                 getb (usedNonces s) nonce = true) ->
  events s = events (basePass w) ->
  persists w {| this := this w; basePass := s;
                stampContract := minted_stamp env to eventId passportId
                                   (stampContract w) |}.
Proof.
  intros Hs He Hn Hev.
  assert (Hfresh : forall tokenId, stamp_owner w tokenId <> 0 ->
                     EventStamp._tokenIdCounter (stampContract w) <> tokenId).
  { intros tokenId H <-. apply (ti_fresh _ _ (si_token _ Hs)) in H. lia. }
  split; unfold passport_owner, passport_balance, stamp_owner, stamp_data,
    events_get, EventStamp.stampMetadata_get, EventStamp.erc721 in *;
    simpl; rewrite ?He, ?Hev; try done.
  - intros tokenId H. unfold ERC721._ownerOf. simpl. rewrite get_insert.
    rewrite decide_False by (apply Hfresh; done). done.
  - intros tokenId H. rewrite lookup_insert_ne by (apply Hfresh; done). done.
Qed.

Lemma post_persists (C : Crypto) (env : Env) (sender : N) (c : Call.t) (w : World) :
  Inv w -> guard C env sender c w -> persists w (post env sender c w).
Proof.
  intros [Hp Hs] Hg.
  destruct c; simpl in *; try apply persists_refl;
    try (split; unfold passport_owner, passport_balance, stamp_owner, stamp_data,
           events_get, EventStamp.stampMetadata_get, EventStamp.erc721; simpl;
         done).
  - (* mintPassport *)
    destruct Hg as [Hb Hc].
    split; unfold passport_owner, passport_balance; simpl; try done.
    + intros tokenId H. unfold ERC721._ownerOf. simpl. rewrite get_insert.
      case_decide as Heq; [|done]. subst tokenId.
      apply (ti_fresh _ _ (pi_token _ Hp)) in H. lia.
    + intros a H. rewrite get_insert. case_decide; [subst; done|done].
  - (* createEvent *)
    split; unfold passport_owner, passport_balance, events_get; simpl; try done.
    intros eventId H. rewrite lookup_insert_ne; [done|].
    intros <-. apply (pi_events _ Hp) in H. lia.
  - (* claimStamp *)
    apply persists_minted_stamp; try done. simpl. intros n H.
    rewrite getb_insert. case_decide; done.
  - (* mintStamp *)
    replace (set_stampContract w _) with
      {| this := this w; basePass := basePass w;
         stampContract := minted_stamp env to eventId passportId (stampContract w) |}
      by reflexivity.
    apply persists_minted_stamp; done.
Qed.

Lemma steps_persists (C : Crypto) (w w' : World) :
  Inv w -> steps C w w' -> persists w w'.
Proof.
  intros Hinv. induction 1 as [|w env sender c w' w'' Hst IH Hs He].
  - apply persists_refl.
  - specialize (IH Hinv). pose proof (steps_Inv _ _ _ Hst Hinv) as Hinv'.
    destruct (execute_Ok _ _ _ _ _ _ Hinv' Hs He) as [Hg ->].
    eapply persists_trans; [exact IH|]. eapply post_persists; done.
Qed.

Lemma persists_holds_stamp (w w' : World) (owner eventId : N) :
  persists w w' -> owner <> 0 ->
  holds_stamp (stampContract w) owner eventId ->
  holds_stamp (stampContract w') owner eventId.
Proof.
  intros Hp Ho (tokenId & Hown & Hm). exists tokenId.
  assert (Hne : stamp_owner w tokenId <> 0) by (unfold stamp_owner; congruence).
  pose proof (ps_stamp_owner _ _ Hp tokenId Hne) as H1.
  pose proof (ps_stamp_data _ _ Hp tokenId Hne) as H2.
  unfold stamp_owner, stamp_data in *. rewrite H1, H2. done.
Qed.

(** ** The rejections named by the specification, as the code raises them *)

Definition NotOwner : Error := Error_string "Not passport owner".
Definition EventNotFound : Error := Error_string "Event does not exist".
Definition AlreadyClaimed : Error := Error_string "Stamp already claimed".
Definition NonceReused : Error := Error_string "Nonce already used".
Definition Expired : Error := Error_string "Signature expired".
Definition InvalidSignature : Error := Error_string "Invalid signature".
Definition AlreadyHasIdentity : Error := Error_string "Already owns a passport".
Definition RateLimited : Error :=
  Error_string "Rate limit: wait 1 hour between creating events".

(** ** Calls in which no receiver hook runs

    [_safeMint] calls [onERC721Received] on a receiver that has code, and
    that code may call the two contracts again before the mint returns.  A
    call is [hook_free] when the account that receives the token it mints
    has no code: the call is then the whole transaction.  (The transfer
    entry points revert before they reach the hook; the other entry points
    have none.)  The model gives the answer of a hook and not what its code
    does to the two contracts, so the theorems that say what one call leaves
    unchanged are stated for [hook_free] calls. *)
Definition hook_free (env : Env) (sender : N) (c : Call.t) : Prop :=
  match c with
  | Call.mintPassport => code_length env sender = 0
  | Call.claimStamp _ _ _ _ _ => code_length env sender = 0
  | Call.mintStamp to _ _ => code_length env to = 0
  | _ => True
  end.

(** ** A concrete deployment

    The theorems are instantiated on a small system: a stand-in for the two
    cryptographic primitives (a polynomial hash, and a recovery function
    that accepts [(r, s, v)] for the digest [h] when [s] is the low half of
    [h] and then yields [r]), a deployer, two users and the scenario of the
    specification. *)

Definition ex_keccak256 (bs : list ascii) : N :=
  fold_left (fun acc b => (acc * 263 + N_of_ascii b + 1) mod 2 ^ 256) bs 7.

Definition ex_ecrecover (h v r s : N) : N :=
  if v =? 27 then
    if s =? h mod 2 ^ 128 then r mod 2 ^ 160
    else (r + 1 + h mod 2 ^ 64) mod 2 ^ 160
  else 0.

Definition ex_crypto : Crypto :=
  {| keccak256 := ex_keccak256; ecrecover := ex_ecrecover |}.

(** The signature of [signer] over the digest [h] in this stand-in. *)
Definition ex_sign (signer h : N) : list ascii :=
  be_bytes 32 signer ++ be_bytes 32 (h mod 2 ^ 128) ++ [ascii_of_N 27].

(** A block at time [t] on Base Sepolia, where no account has code. *)
Definition ex_env (t : N) : Env :=
  {| block_timestamp := t; block_chainid := 84532;
     code_length := fun _ => 0;
     onERC721Received := fun _ _ _ _ _ => HookRevertedEmpty |}.

(** A sequence of transactions. *)
Definition transact_all (C : Crypto) (txs : list (Env * N * Call.t)) (w : World)
  : World :=
  fold_left (fun w tx => transact C tx.1.1 tx.1.2 tx.2 w) txs w.

Definition ex_deployer : N := 100.
Definition ex_A : N := 201.
Definition ex_B : N := 202.
Definition ex_basePass : N := 500.
Definition ex_eventStamp : N := 501.
Definition ex_now : N := 1700000000.
Definition ex_nonce : N := 1.

(** B's signature over [(eventId = 1, nonce, expiration = now + 3600, chainId)]. *)
Definition ex_signature : list ascii :=
  ex_sign ex_B (claimDigest ex_crypto 1 ex_nonce (ex_now + 3600) 84532).

Definition ex_claim : Call.t :=
  Call.claimStamp 1 1 ex_nonce (ex_now + 3600) ex_signature.

(** Deployment, then: the role is granted to the passport contract,
    A mints passport 1, B registers event 1 with signer B. *)
Definition ex_setup : list (Env * N * Call.t) :=
  [ (ex_env ex_now, ex_deployer,
      Call.grantRole (EventStamp.MINTER_ROLE ex_crypto) ex_basePass);
    (ex_env ex_now, ex_A, Call.mintPassport);
    (ex_env ex_now, ex_B, Call.createEvent "Meetup" "Monthly meetup" "" ex_B) ].

Definition ex_deployed : World :=
  {| this := ex_basePass;
     basePass := {| erc721 := ERC721.empty; _owner := ex_deployer;
                    _status := ReentrancyGuard.NOT_ENTERED;
                    _tokenIdCounter := 1; _eventIdCounter := 1;
                    usedNonces := ∅; events := ∅; lastEventCreation := ∅;
                    emitted := [] |};
     stampContract := EventStamp.constructor ex_crypto ex_deployer |}.

(** The system once set up. *)
Definition ex_ready : World := transact_all ex_crypto ex_setup ex_deployed.

(** The system after A redeemed B's payload. *)
Definition ex_claimed : World :=
  transact ex_crypto (ex_env ex_now) ex_A ex_claim ex_ready.

Lemma transact_steps (C : Crypto) (env : Env) (sender : N) (c : Call.t) (w : World) :
  sender <> 0 -> steps C w (transact C env sender c w).
Proof.
  intros Hs. unfold transact.
  destruct (execute C env sender c w) as [w'|] eqn:He.
  - eapply steps_step; [apply steps_refl|exact Hs|exact He].
  - apply steps_refl.
Qed.

Lemma steps_trans (C : Crypto) (w1 w2 w3 : World) :
  steps C w1 w2 -> steps C w2 w3 -> steps C w1 w3.
Proof.
  intros H12 H23. induction H23 as [|w2 env sender c w3 w4 Hst IH Hs He]; [done|].
  eapply steps_step; [apply IH; exact H12|exact Hs|exact He].
Qed.

Lemma transact_all_steps (C : Crypto) (txs : list (Env * N * Call.t)) (w : World) :
  Forall (fun tx => tx.1.2 <> 0) txs -> steps C w (transact_all C txs w).
Proof.
  intros Hs. revert w. induction Hs as [|tx txs Hne _ IH]; intros w; simpl.
  - apply steps_refl.
  - eapply steps_trans; [apply transact_steps; exact Hne|apply IH].
Qed.

Lemma ex_deployed_reachable : reachable ex_crypto ex_deployed.
Proof.
  apply (reachable_deploy _ ex_deployer ex_basePass ex_eventStamp). reflexivity.
Qed.

Lemma ex_ready_reachable : reachable ex_crypto ex_ready.
Proof.
  eapply steps_reachable; [|apply ex_deployed_reachable].
  apply transact_all_steps. repeat constructor; done.
Qed.

Lemma ex_claimed_reachable : reachable ex_crypto ex_claimed.
Proof.
  eapply steps_reachable; [|apply ex_ready_reachable].
  apply transact_steps. done.
Qed.


(** ** C1: exactly-once redemption *)

Lemma hasStampForEvent_holds (st : EventStamp.Storage) (owner eventId : N) :
  stamp_inv st -> owner <> 0 -> holds_stamp st owner eventId ->
  EventStamp.hasStampForEvent st owner eventId = Ok true.
Proof.
  intros Hinv Ho Hh. destruct (hasStampForEvent_spec st owner eventId Hinv Ho)
    as (b & Hb & Hspec).
  apply Hspec in Hh. subst b. exact Hb.
Qed.

Lemma claimed_holds_stamp (env : Env) (sender tokenId eventId nonce : N) (w : World) :
  holds_stamp (stampContract (claimed env sender tokenId eventId nonce w))
    sender eventId.
Proof.
  exists (EventStamp._tokenIdCounter (stampContract w)).
  unfold EventStamp.erc721, EventStamp.stampMetadata_get, ERC721._ownerOf. simpl.
  rewrite get_insert, lookup_insert. rewrite !decide_True by done. done.
Qed.

(** The error of a [claimStamp] call that presents a used nonce: the error
    of the first of the ownership, event and duplicate checks that fails,
    and [NonceReused] when the three pass. *)
Definition used_nonce_error (w : World) (sender tokenId eventId : N) : Error :=
  if passport_owner w tokenId =? 0 then ERC721NonexistentToken tokenId
  else if negb (passport_owner w tokenId =? sender) then NotOwner
  else if negb (Event.exists_ (events_get (basePass w) eventId)) then EventNotFound
  else
    match EventStamp.hasStampForEvent (stampContract w) sender eventId with
    | Ok true => AlreadyClaimed
    | Ok false => NonceReused
    | Revert e => e
    end.

(** C1, as the code has it.  A [claimStamp] call that passes the checks
    succeeds, and the caller then owns the stamp numbered by the counter,
    which records [(eventId, tokenId, now)].  When the caller is an account
    without code (no receiver hook runs during the mint) this is the only
    change of the stamp ledger: the counter moves by one and no other stamp
    changes.  In every state reached afterwards, by any calls: (1) a
    [claimStamp] presenting the same nonce, by any caller, for any passport
    and event, is rejected with the error of the first of its ownership,
    event and duplicate checks that fails, and with [NonceReused] when the
    three pass; (2) a [claimStamp] by the same owner for the same passport and
    event is rejected with [AlreadyClaimed], whatever nonce it presents: this
    includes the replay of the redeemed payload. *)
Theorem C1_claim_exactly_once (C : Crypto) (env : Env)
  (sender tokenId eventId nonce expiration : N) (signature : list ascii)
  (w0 : World) :
  reachable C w0 ->
  claimStamp_check C env sender tokenId eventId nonce expiration signature w0
    = Ok tt ->
  exists w1,
    execute C env sender
      (Call.claimStamp tokenId eventId nonce expiration signature) w0 = Ok w1 /\
    (let stampId := EventStamp._tokenIdCounter (stampContract w0) in
     stamp_owner w0 stampId = 0 /\
     stamp_owner w1 stampId = sender /\
     stamp_data w1 stampId =
       {| StampMetadata.eventId := eventId; StampMetadata.passportId := tokenId;
          StampMetadata.timestamp := block_timestamp env |} /\
     hasStamp w1 tokenId eventId = Ok true /\
     (code_length env sender = 0 ->
      EventStamp._tokenIdCounter (stampContract w1) = stampId + 1 /\
      forall other, other <> stampId ->
        stamp_owner w1 other = stamp_owner w0 other /\
        stamp_data w1 other = stamp_data w0 other)) /\
    forall w2, steps C w1 w2 ->
      (forall env' sender' tokenId' eventId' expiration' signature',
         execute C env' sender'
           (Call.claimStamp tokenId' eventId' nonce expiration' signature') w2
           = Revert (used_nonce_error w2 sender' tokenId' eventId') /\
         (passport_owner w2 tokenId' = sender' -> sender' <> 0 ->
          Event.exists_ (events_get (basePass w2) eventId') = true ->
          exists held,
            EventStamp.hasStampForEvent (stampContract w2) sender' eventId'
              = Ok held /\
            used_nonce_error w2 sender' tokenId' eventId'
              = if held then AlreadyClaimed else NonceReused)) /\
      (forall env' nonce' expiration' signature',
         execute C env' sender
           (Call.claimStamp tokenId eventId nonce' expiration' signature') w2
           = Revert AlreadyClaimed).
Proof.
  intros Hr Hck. pose proof (reachable_Inv _ _ Hr) as Hinv0.
  pose proof Hck as Hck'.
  apply claimStamp_check_Ok in Hck'
    as (Hown & Hs0 & Hex & Hhas & Hn & Ht & Hrec & Hrole & Hcnt & Hhook).
  exists (claimed env sender tokenId eventId nonce w0).
  assert (He : execute C env sender
    (Call.claimStamp tokenId eventId nonce expiration signature) w0
    = Ok (claimed env sender tokenId eventId nonce w0)).
  { simpl. rewrite claimStamp_eq by done. rewrite Hck. done. }
  assert (Hinv1 : Inv (claimed env sender tokenId eventId nonce w0)).
  { apply (Inv_post C env sender
      (Call.claimStamp tokenId eventId nonce expiration signature) w0); done. }
  split; [exact He|]. split.
  - (* the stamp of the claim *)
    destruct Hinv0 as [Hp0 Hst0].
    pose proof (token_inv_counter_free _ _ (si_token _ Hst0)) as Hfree.
    unfold stamp_owner, stamp_data, EventStamp.stampMetadata_get, EventStamp.erc721,
      ERC721._ownerOf in *. simpl.
    rewrite get_insert, lookup_insert. rewrite !decide_True by done. simpl.
    split; [done|]. split; [done|]. split; [done|]. split.
    + unfold hasStamp, ERC721.ownerOf, ERC721._requireOwned, ERC721._ownerOf. simpl.
      unfold ERC721._ownerOf in Hown. rewrite Hown.
      apply N.eqb_neq in Hs0 as Hs0'. rewrite Hs0'. simpl.
      apply hasStampForEvent_holds; [exact (proj2 Hinv1)|done|].
      exact (claimed_holds_stamp env sender tokenId eventId nonce w0).
    + intros _. split; [done|]. intros other Hother. split.
      * rewrite get_insert. rewrite decide_False by done. done.
      * rewrite lookup_insert_ne by done. done.
  - intros w2 Hsteps.
    pose proof (steps_Inv _ _ _ Hsteps Hinv1) as Hinv2.
    pose proof (steps_persists _ _ _ Hinv1 Hsteps) as Hper.
    assert (Hnonce2 : getb (usedNonces (basePass w2)) nonce = true).
    { apply (ps_nonce _ _ Hper). simpl. rewrite getb_insert.
      rewrite decide_True by done. done. }
    split.
    + intros env' sender' tokenId' eventId' expiration' signature'. split.
      * simpl. rewrite claimStamp_eq by done.
        unfold claimStamp_check, used_nonce_error, passport_owner.
        destruct (ERC721._ownerOf (erc721 (basePass w2)) tokenId' =? 0);
          [reflexivity|].
        destruct (negb (ERC721._ownerOf (erc721 (basePass w2)) tokenId' =? sender'));
          [reflexivity|].
        destruct (negb (Event.exists_ (events_get (basePass w2) eventId')));
          [reflexivity|].
        destruct (EventStamp.hasStampForEvent (stampContract w2) sender' eventId')
          as [[|]|]; try reflexivity.
        rewrite Hnonce2. reflexivity.
      * intros Hos Hs' Hex'. unfold used_nonce_error. rewrite Hos, Hex'.
        apply N.eqb_neq in Hs' as Hs''. rewrite Hs'', N.eqb_refl. cbn [negb].
        destruct (hasStampForEvent_spec (stampContract w2) sender' eventId'
                    (proj2 Hinv2) Hs') as (b & Hb & _).
        exists b. rewrite Hb. split; [reflexivity|]. destruct b; reflexivity.
    + intros env' nonce' expiration' signature'. simpl.
      rewrite claimStamp_eq by done. unfold claimStamp_check.
      assert (Ho1 : passport_owner (claimed env sender tokenId eventId nonce w0)
                      tokenId = sender) by exact Hown.
      assert (Ho2 : passport_owner w2 tokenId = sender).
      { rewrite (ps_passport_owner _ _ Hper); [exact Ho1|]. rewrite Ho1. done. }
      unfold passport_owner in Ho2. rewrite Ho2.
      apply N.eqb_neq in Hs0 as Hs0'. rewrite Hs0'. rewrite N.eqb_refl. simpl.
      rewrite (ps_event _ _ Hper) by exact Hex.
      change (events_get (basePass (claimed env sender tokenId eventId nonce w0))
                eventId) with (events_get (basePass w0) eventId).
      rewrite Hex. simpl.
      rewrite hasStampForEvent_holds; [reflexivity|apply Hinv2|done|].
      eapply persists_holds_stamp; [exact Hper|done|].
      apply claimed_holds_stamp.
Qed.

(** The scenario of the specification: A redeems B's payload for event 1
    and then replays the identical payload.  The first call commits (A now
    holds the stamp); the replay is rejected by the duplicate check, which
    comes before the nonce check: the error is [AlreadyClaimed], not
    [NonceReused]. *)
Lemma C1_replay_is_AlreadyClaimed :
  execute ex_crypto (ex_env ex_now) ex_A ex_claim ex_ready = Ok ex_claimed /\
  hasStamp ex_claimed 1 1 = Ok true /\
  getb (usedNonces (basePass ex_claimed)) ex_nonce = true /\
  execute ex_crypto (ex_env ex_now) ex_A ex_claim ex_claimed
    = Revert AlreadyClaimed /\
  AlreadyClaimed <> NonceReused.
Proof.
  split_and!; try (vm_compute; reflexivity). discriminate.
Qed.

Lemma C1_claim_exactly_once_witness :
  exists w1,
    execute ex_crypto (ex_env ex_now) ex_A
      (Call.claimStamp 1 1 ex_nonce (ex_now + 3600) ex_signature) ex_ready
      = Ok w1 /\
    (let stampId := EventStamp._tokenIdCounter (stampContract ex_ready) in
     stamp_owner ex_ready stampId = 0 /\
     stamp_owner w1 stampId = ex_A /\
     stamp_data w1 stampId =
       {| StampMetadata.eventId := 1; StampMetadata.passportId := 1;
          StampMetadata.timestamp := block_timestamp (ex_env ex_now) |} /\
     hasStamp w1 1 1 = Ok true /\
     EventStamp._tokenIdCounter (stampContract w1) = stampId + 1 /\
     forall other, other <> stampId ->
       stamp_owner w1 other = stamp_owner ex_ready other /\
       stamp_data w1 other = stamp_data ex_ready other) /\
    forall w2, steps ex_crypto w1 w2 ->
      (forall env' sender' tokenId' eventId' expiration' signature',
         execute ex_crypto env' sender'
           (Call.claimStamp tokenId' eventId' ex_nonce expiration' signature') w2
           = Revert (used_nonce_error w2 sender' tokenId' eventId') /\
         (passport_owner w2 tokenId' = sender' -> sender' <> 0 ->
          Event.exists_ (events_get (basePass w2) eventId') = true ->
          exists held,
            EventStamp.hasStampForEvent (stampContract w2) sender' eventId'
              = Ok held /\
            used_nonce_error w2 sender' tokenId' eventId'
              = if held then AlreadyClaimed else NonceReused)) /\
      (forall env' nonce' expiration' signature',
         execute ex_crypto env' ex_A
           (Call.claimStamp 1 1 nonce' expiration' signature') w2
           = Revert AlreadyClaimed).
Proof.
  destruct (C1_claim_exactly_once ex_crypto (ex_env ex_now) ex_A 1 1 ex_nonce
              (ex_now + 3600) ex_signature ex_ready)
    as (w1 & He & (H1 & H2 & H3 & H4 & H5) & Hlater).
  - apply ex_ready_reachable.
  - vm_compute. reflexivity.
  - exists w1. split; [exact He|]. split; [|exact Hlater].
    destruct (H5 eq_refl) as [H6 H7]. repeat split; try assumption; apply H7; assumption.
Defined.

(** ** C2: a rejected claim changes nothing *)

(** [failed_check ... e]: one of the seven checks of [claimStamp] fails with
    [e], those before it having passed. *)
Inductive failed_check (C : Crypto) (env : Env) (sender tokenId eventId nonce
  expiration : N) (signature : list ascii) (w : World) : Error -> Prop :=
| failed_ownership_unknown :
    passport_owner w tokenId = 0 ->
    failed_check C env sender tokenId eventId nonce expiration signature w
      (ERC721NonexistentToken tokenId)
| failed_ownership :
    passport_owner w tokenId <> 0 ->
    passport_owner w tokenId <> sender ->
    failed_check C env sender tokenId eventId nonce expiration signature w NotOwner
| failed_event :
    passport_owner w tokenId <> 0 ->
    passport_owner w tokenId = sender ->
    Event.exists_ (events_get (basePass w) eventId) = false ->
    failed_check C env sender tokenId eventId nonce expiration signature w
      EventNotFound
| failed_duplicate :
    passport_owner w tokenId = sender ->
    Event.exists_ (events_get (basePass w) eventId) = true ->
    EventStamp.hasStampForEvent (stampContract w) sender eventId = Ok true ->
    failed_check C env sender tokenId eventId nonce expiration signature w
      AlreadyClaimed
| failed_nonce :
    passport_owner w tokenId = sender ->
    Event.exists_ (events_get (basePass w) eventId) = true ->
    EventStamp.hasStampForEvent (stampContract w) sender eventId = Ok false ->
    getb (usedNonces (basePass w)) nonce = true ->
    failed_check C env sender tokenId eventId nonce expiration signature w
      NonceReused
| failed_expiration :
    passport_owner w tokenId = sender ->
    Event.exists_ (events_get (basePass w) eventId) = true ->
    EventStamp.hasStampForEvent (stampContract w) sender eventId = Ok false ->
    getb (usedNonces (basePass w)) nonce = false ->
    expiration < block_timestamp env ->
    failed_check C env sender tokenId eventId nonce expiration signature w Expired
| failed_signature_malformed e :
    passport_owner w tokenId = sender ->
    Event.exists_ (events_get (basePass w) eventId) = true ->
    EventStamp.hasStampForEvent (stampContract w) sender eventId = Ok false ->
    getb (usedNonces (basePass w)) nonce = false ->
    block_timestamp env <= expiration ->
    ECDSA.recover C (claimDigest C eventId nonce expiration (block_chainid env))
      signature = Revert e ->
    failed_check C env sender tokenId eventId nonce expiration signature w e
| failed_signature recoveredSigner :
    passport_owner w tokenId = sender ->
    Event.exists_ (events_get (basePass w) eventId) = true ->
    EventStamp.hasStampForEvent (stampContract w) sender eventId = Ok false ->
    getb (usedNonces (basePass w)) nonce = false ->
    block_timestamp env <= expiration ->
    ECDSA.recover C (claimDigest C eventId nonce expiration (block_chainid env))
      signature = Ok recoveredSigner ->
    recoveredSigner <> Event.signer (events_get (basePass w) eventId) ->
    failed_check C env sender tokenId eventId nonce expiration signature w
      InvalidSignature
| failed_commit e :
    passport_owner w tokenId = sender ->
    Event.exists_ (events_get (basePass w) eventId) = true ->
    EventStamp.hasStampForEvent (stampContract w) sender eventId = Ok false ->
    getb (usedNonces (basePass w)) nonce = false ->
    block_timestamp env <= expiration ->
    ECDSA.recover C (claimDigest C eventId nonce expiration (block_chainid env))
      signature = Ok (Event.signer (events_get (basePass w) eventId)) ->
    EventStamp.mintStamp C env (this w) sender eventId tokenId (stampContract w)
      = Revert e ->
    failed_check C env sender tokenId eventId nonce expiration signature w e.

Lemma claimStamp_check_Revert (C : Crypto) (env : Env)
  (sender tokenId eventId nonce expiration : N) (signature : list ascii)
  (w : World) (e : Error) :
  Inv w ->
  claimStamp_check C env sender tokenId eventId nonce expiration signature w
    = Revert e ->
  failed_check C env sender tokenId eventId nonce expiration signature w e.
Proof.
  intros [Hp Hs] H. unfold claimStamp_check in H.
  destruct (N.eqb_spec (ERC721._ownerOf (erc721 (basePass w)) tokenId) 0) as [Ho|Ho].
  { injection H as <-. apply failed_ownership_unknown. exact Ho. }
  destruct (N.eqb_spec (ERC721._ownerOf (erc721 (basePass w)) tokenId) sender)
    as [Hos|Hos]; simpl in H.
  2: { injection H as <-. apply failed_ownership; done. }
  destruct (Event.exists_ (events_get (basePass w) eventId)) eqn:Hex; simpl in H.
  2: { injection H as <-. apply failed_event; done. }
  assert (Hs0 : sender <> 0) by congruence.
  destruct (hasStampForEvent_spec (stampContract w) sender eventId Hs Hs0)
    as (b & Hb & _).
  rewrite Hb in H. destruct b.
  { injection H as <-. apply failed_duplicate; done. }
  destruct (getb (usedNonces (basePass w)) nonce) eqn:Hn.
  { injection H as <-. apply failed_nonce; done. }
  destruct (N.leb_spec (block_timestamp env) expiration) as [Ht|Ht]; simpl in H.
  2: { injection H as <-. apply failed_expiration; done. }
  destruct (ECDSA.recover C _ signature) as [recovered|e'] eqn:Hrec.
  2: { injection H as <-. eapply failed_signature_malformed; done. }
  destruct (N.eqb_spec recovered (Event.signer (events_get (basePass w) eventId)))
    as [Hr|Hr]; simpl in H.
  2: { injection H as <-. eapply failed_signature; done. }
  subst recovered. apply failed_commit; try done.
  rewrite mintStamp_eq by done.
  destruct (AccessControl.hasRole _ _ _); simpl in H; [|congruence].
  destruct (_ <=? MAX_UINT256); simpl in H; [|congruence].
  apply N.eqb_neq in Hs0. rewrite Hs0.
  destruct (ERC721._checkOnERC721Received _ _ _ _ _ _) as [[]|]; congruence.
Qed.

Lemma failed_check_Revert (C : Crypto) (env : Env)
  (sender tokenId eventId nonce expiration : N) (signature : list ascii)
  (w : World) (e : Error) :
  Inv w ->
  failed_check C env sender tokenId eventId nonce expiration signature w e ->
  claimStamp_check C env sender tokenId eventId nonce expiration signature w
    = Revert e.
Proof.
  intros Hinv H. unfold claimStamp_check.
  inversion H as [Ho|Ho Hne|Ho0 Ho Hex|Ho Hex Hh|Ho Hex Hh Hn|Ho Hex Hh Hn Ht
                 |e' Ho Hex Hh Hn Ht Hrec|a Ho Hex Hh Hn Ht Hrec Hne
                 |e' Ho Hex Hh Hn Ht Hrec Hm]; subst; unfold passport_owner in *.
  - rewrite Ho. reflexivity.
  - apply N.eqb_neq in Ho, Hne. rewrite Ho, Hne. reflexivity.
  - apply N.eqb_neq in Ho0. rewrite Ho0, N.eqb_refl, Hex. reflexivity.
  - destruct (N.eqb_spec (ERC721._ownerOf (erc721 (basePass w)) tokenId) 0) as [H0|H0].
    { rewrite H0 in Hh. discriminate. }
    rewrite N.eqb_refl, Hex, Hh. reflexivity.
  - destruct (N.eqb_spec (ERC721._ownerOf (erc721 (basePass w)) tokenId) 0) as [H0|H0].
    { rewrite H0 in Hh. discriminate. }
    rewrite N.eqb_refl, Hex, Hh, Hn. reflexivity.
  - destruct (N.eqb_spec (ERC721._ownerOf (erc721 (basePass w)) tokenId) 0) as [H0|H0].
    { rewrite H0 in Hh. discriminate. }
    apply N.leb_gt in Ht. rewrite N.eqb_refl, Hex, Hh, Hn, Ht. reflexivity.
  - destruct (N.eqb_spec (ERC721._ownerOf (erc721 (basePass w)) tokenId) 0) as [H0|H0].
    { rewrite H0 in Hh. discriminate. }
    apply N.leb_le in Ht. rewrite N.eqb_refl, Hex, Hh, Hn, Ht, Hrec. reflexivity.
  - destruct (N.eqb_spec (ERC721._ownerOf (erc721 (basePass w)) tokenId) 0) as [H0|H0].
    { rewrite H0 in Hh. discriminate. }
    apply N.leb_le in Ht. apply N.eqb_neq in Hne.
    rewrite N.eqb_refl, Hex, Hh, Hn, Ht, Hrec, Hne. reflexivity.
  - destruct (N.eqb_spec (ERC721._ownerOf (erc721 (basePass w)) tokenId) 0) as [H0|H0].
    { rewrite H0 in Hh. discriminate. }
    apply N.leb_le in Ht.
    rewrite N.eqb_refl, Hex, Hh, Hn, Ht, Hrec, N.eqb_refl. simpl.
    rewrite mintStamp_eq in Hm by apply Hinv.
    destruct (AccessControl.hasRole _ _ _); simpl; [|congruence].
    destruct (_ <=? MAX_UINT256); simpl; [|congruence].
    apply N.eqb_neq in H0. rewrite H0 in Hm.
    destruct (ERC721._checkOnERC721Received _ _ _ _ _ _) as [[]|]; congruence.
Qed.

(** C2.  A [claimStamp] call is rejected with [e] exactly when one of the
    seven checks (ownership, event existence, duplicate stamp, nonce,
    expiration, signature, commit) fails with [e], those before it having
    passed.  A rejected call leaves the state as it was: no nonce is
    marked, no stamp is created, no counter moves, also when it is the
    commit that fails, after the nonce was written.  The state changes only
    when every check passes. *)
Theorem C2_rejection_is_atomic (C : Crypto) (env : Env)
  (sender tokenId eventId nonce expiration : N) (signature : list ascii)
  (w : World) :
  reachable C w ->
  let call := Call.claimStamp tokenId eventId nonce expiration signature in
  (forall e,
     execute C env sender call w = Revert e <->
     failed_check C env sender tokenId eventId nonce expiration signature w e) /\
  (forall e,
     execute C env sender call w = Revert e ->
     transact C env sender call w = w /\
     usedNonces (basePass (transact C env sender call w)) = usedNonces (basePass w) /\
     stampContract (transact C env sender call w) = stampContract w /\
     _tokenIdCounter (basePass (transact C env sender call w))
       = _tokenIdCounter (basePass w)) /\
  (forall w',
     execute C env sender call w = Ok w' ->
     claimStamp_check C env sender tokenId eventId nonce expiration signature w
       = Ok tt /\
     w' = claimed env sender tokenId eventId nonce w).
Proof.
  intros Hr call. pose proof (reachable_Inv _ _ Hr) as Hinv. unfold call.
  split; [|split].
  - intros e. simpl. rewrite claimStamp_eq by done. split.
    + intros He. apply claimStamp_check_Revert; [done|].
      destruct (claimStamp_check _ _ _ _ _ _ _ _ _); [discriminate|]. congruence.
    + intros Hf. rewrite (failed_check_Revert _ _ _ _ _ _ _ _ _ _ Hinv Hf). done.
  - intros e He. unfold transact. rewrite He. done.
  - intros w'. simpl. rewrite claimStamp_eq by done.
    destruct (claimStamp_check _ _ _ _ _ _ _ _ _) as [[]|]; [|discriminate].
    intros [= <-]. done.
Qed.

(** An expired payload presented to the set-up system. *)
Lemma C2_rejection_is_atomic_witness :
  let call := Call.claimStamp 1 1 ex_nonce (ex_now - 1) ex_signature in
  failed_check ex_crypto (ex_env ex_now) ex_A 1 1 ex_nonce (ex_now - 1)
    ex_signature ex_ready Expired /\
  transact ex_crypto (ex_env ex_now) ex_A call ex_ready = ex_ready /\
  usedNonces (basePass (transact ex_crypto (ex_env ex_now) ex_A call ex_ready))
    = usedNonces (basePass ex_ready) /\
  stampContract (transact ex_crypto (ex_env ex_now) ex_A call ex_ready)
    = stampContract ex_ready /\
  _tokenIdCounter (basePass (transact ex_crypto (ex_env ex_now) ex_A call ex_ready))
    = _tokenIdCounter (basePass ex_ready).
Proof.
  destruct (C2_rejection_is_atomic ex_crypto (ex_env ex_now) ex_A 1 1 ex_nonce
              (ex_now - 1) ex_signature ex_ready ex_ready_reachable)
    as (Hiff & Hsame & _).
  assert (He : execute ex_crypto (ex_env ex_now) ex_A
                 (Call.claimStamp 1 1 ex_nonce (ex_now - 1) ex_signature) ex_ready
               = Revert Expired) by (vm_compute; reflexivity).
  split; [apply Hiff; exact He|]. apply (Hsame Expired). exact He.
Defined.

(** ** C3: passports and stamps never move *)

(** The rejection of a transfer of an existing token. *)
Definition NonTransferable_passport : Error := SOULBOUND_PASSPORT.
Definition NonTransferable_stamp : Error := SOULBOUND_STAMP.

(** C3.  From any reachable state and along any sequence of calls, by any
    callers (the contract owner and the role holders included): a passport
    keeps the owner it has, a stamp keeps its owner and the passport it
    was claimed with; and every transfer entry point of either token
    ([transferFrom], [safeTransferFrom]) reverts, with the soulbound error
    when the token exists and the receiver is not the zero address. *)
Theorem C3_non_transferable (C : Crypto) (w w' : World) :
  reachable C w -> steps C w w' ->
  (forall tokenId,
     passport_owner w tokenId <> 0 ->
     passport_owner w' tokenId = passport_owner w tokenId) /\
  (forall stampId,
     stamp_owner w stampId <> 0 ->
     stamp_owner w' stampId = stamp_owner w stampId /\
     stamp_data w' stampId = stamp_data w stampId) /\
  (forall env sender from to tokenId data,
     sender <> 0 ->
     reverts (execute C env sender (Call.passport_transferFrom from to tokenId) w') /\
     reverts (execute C env sender
                (Call.passport_safeTransferFrom from to tokenId data) w') /\
     reverts (execute C env sender (Call.stamp_transferFrom from to tokenId) w') /\
     reverts (execute C env sender
                (Call.stamp_safeTransferFrom from to tokenId data) w') /\
     (to <> 0 -> passport_owner w' tokenId <> 0 ->
      execute C env sender (Call.passport_transferFrom from to tokenId) w'
        = Revert NonTransferable_passport /\
      execute C env sender (Call.passport_safeTransferFrom from to tokenId data) w'
        = Revert NonTransferable_passport) /\
     (to <> 0 -> stamp_owner w' tokenId <> 0 ->
      execute C env sender (Call.stamp_transferFrom from to tokenId) w'
        = Revert NonTransferable_stamp /\
      execute C env sender (Call.stamp_safeTransferFrom from to tokenId data) w'
        = Revert NonTransferable_stamp)).
Proof.
  intros Hr Hsteps. pose proof (reachable_Inv _ _ Hr) as Hinv.
  pose proof (steps_Inv _ _ _ Hsteps Hinv) as [Hp' Hs'].
  pose proof (steps_persists _ _ _ Hinv Hsteps) as Hper.
  pose proof (ti_approvals _ _ (pi_token _ Hp')) as Hpa.
  pose proof (ti_approvals _ _ (si_token _ Hs')) as Hsa.
  split; [apply (ps_passport_owner _ _ Hper)|]. split.
  - intros stampId H. split.
    + apply (ps_stamp_owner _ _ Hper). exact H.
    + apply (ps_stamp_data _ _ Hper). exact H.
  - intros env sender from to tokenId data Hsender. simpl.
    unfold on_basePass, on_stampContract, passport_owner, stamp_owner.
    rewrite BasePass_transferFrom_reverts, BasePass_safeTransferFrom_reverts,
      EventStamp_transferFrom_reverts, EventStamp_safeTransferFrom_reverts by done.
    simpl. repeat split; try (eexists; reflexivity).
    + apply N.eqb_neq in H, H0. rewrite H, H0. reflexivity.
    + apply N.eqb_neq in H, H0. rewrite H, H0. reflexivity.
    + apply N.eqb_neq in H, H0. rewrite H, H0. reflexivity.
    + apply N.eqb_neq in H, H0. rewrite H, H0. reflexivity.
Qed.

(** A's passport and stamp, before and after further calls; B tries to take
    them. *)
Lemma C3_non_transferable_witness :
  (forall tokenId,
     passport_owner ex_ready tokenId <> 0 ->
     passport_owner ex_claimed tokenId = passport_owner ex_ready tokenId) /\
  (forall stampId,
     stamp_owner ex_ready stampId <> 0 ->
     stamp_owner ex_claimed stampId = stamp_owner ex_ready stampId /\
     stamp_data ex_claimed stampId = stamp_data ex_ready stampId) /\
  (forall env sender from to tokenId data,
     sender <> 0 ->
     reverts (execute ex_crypto env sender
                (Call.passport_transferFrom from to tokenId) ex_claimed) /\
     reverts (execute ex_crypto env sender
                (Call.passport_safeTransferFrom from to tokenId data) ex_claimed) /\
     reverts (execute ex_crypto env sender
                (Call.stamp_transferFrom from to tokenId) ex_claimed) /\
     reverts (execute ex_crypto env sender
                (Call.stamp_safeTransferFrom from to tokenId data) ex_claimed) /\
     (to <> 0 -> passport_owner ex_claimed tokenId <> 0 ->
      execute ex_crypto env sender (Call.passport_transferFrom from to tokenId)
        ex_claimed = Revert NonTransferable_passport /\
      execute ex_crypto env sender
        (Call.passport_safeTransferFrom from to tokenId data) ex_claimed
        = Revert NonTransferable_passport) /\
     (to <> 0 -> stamp_owner ex_claimed tokenId <> 0 ->
      execute ex_crypto env sender (Call.stamp_transferFrom from to tokenId)
        ex_claimed = Revert NonTransferable_stamp /\
      execute ex_crypto env sender
        (Call.stamp_safeTransferFrom from to tokenId data) ex_claimed
        = Revert NonTransferable_stamp)).
Proof.
  apply (C3_non_transferable ex_crypto ex_ready ex_claimed).
  - apply ex_ready_reachable.
  - apply transact_steps. done.
Defined.

(** ** C5: one passport per principal *)

Lemma mintPassport_sender (env : Env) (sender : N) (s s' : BasePass.Storage) :
  BasePass.mintPassport env sender s = Ok s' -> sender <> 0.
Proof.
  unfold BasePass.mintPassport. intros H ->.
  destruct (ReentrancyGuard._nonReentrantBefore (_status s)); [|discriminate].
  simpl in H. discriminate.
Qed.

(** C5.  Once a [mintPassport] call by a principal has succeeded, every
    later [mintPassport] call by that principal, in any state reached by any
    calls, is rejected with [AlreadyHasIdentity]; and in every reachable
    state a principal owns at most one passport (two passports with the
    same owner are the same passport; every balance is 0 or 1). *)
Theorem C5_single_identity (C : Crypto) (env : Env) (principal : N)
  (w0 w1 w2 : World) :
  reachable C w0 ->
  execute C env principal Call.mintPassport w0 = Ok w1 ->
  steps C w1 w2 ->
  (forall env',
     execute C env' principal Call.mintPassport w2 = Revert AlreadyHasIdentity) /\
  (forall w, reachable C w ->
     (forall id1 id2,
        passport_owner w id1 = passport_owner w id2 ->
        passport_owner w id1 <> 0 -> id1 = id2) /\
     (forall a, passport_balance w a <= 1)).
Proof.
  intros Hr Hmint Hsteps. pose proof (reachable_Inv _ _ Hr) as Hinv0.
  assert (Hp : principal <> 0).
  { simpl in Hmint. unfold on_basePass in Hmint.
    destruct (BasePass.mintPassport env principal (basePass w0)) eqn:Hm;
      [|discriminate]. eapply mintPassport_sender. exact Hm. }
  destruct (execute_Ok _ _ _ _ _ _ Hinv0 Hp Hmint) as [[Hb Hc] ->].
  assert (Hinv1 : Inv (post env principal Call.mintPassport w0)).
  { eapply (Inv_post C); [done|done|]. simpl. done. }
  pose proof (steps_Inv _ _ _ Hsteps Hinv1) as Hinv2.
  pose proof (steps_persists _ _ _ Hinv1 Hsteps) as Hper.
  split.
  - intros env'. simpl. unfold on_basePass.
    rewrite mintPassport_eq by (try apply Hinv2; done).
    assert (Hb2 : passport_balance w2 principal = 1).
    { rewrite (ps_passport_balance _ _ Hper); unfold passport_balance; simpl;
        rewrite get_insert, decide_True by done; done. }
    unfold passport_balance in Hb2. rewrite Hb2. reflexivity.
  - intros w Hw. pose proof (reachable_Inv _ _ Hw) as [Hpw _]. split.
    + apply (pi_unique _ Hpw).
    + apply (pi_balance _ Hpw).
Qed.

(** A minted in the set-up, a stamp was claimed since, and A tries again. *)
Lemma C5_single_identity_witness :
  (forall env',
     execute ex_crypto env' ex_A Call.mintPassport ex_claimed
       = Revert AlreadyHasIdentity) /\
  (forall w, reachable ex_crypto w ->
     (forall id1 id2,
        passport_owner w id1 = passport_owner w id2 ->
        passport_owner w id1 <> 0 -> id1 = id2) /\
     (forall a, passport_balance w a <= 1)).
Proof.
  apply (C5_single_identity ex_crypto (ex_env ex_now) ex_A
           (transact_all ex_crypto (take 1 ex_setup) ex_deployed)
           (transact_all ex_crypto (take 2 ex_setup) ex_deployed)
           ex_claimed).
  - eapply steps_reachable; [|apply ex_deployed_reachable].
    apply transact_all_steps. repeat constructor; done.
  - vm_compute. reflexivity.
  - change ex_claimed with
      (transact_all ex_crypto
         [(ex_env ex_now, ex_B, Call.createEvent "Meetup" "Monthly meetup" "" ex_B);
          (ex_env ex_now, ex_A, ex_claim)]
         (transact_all ex_crypto (take 2 ex_setup) ex_deployed)).
    apply transact_all_steps. repeat constructor; done.
Defined.

(** ** C6: expiration *)

(** The four checks that precede the expiration check pass. *)
Definition before_expiration_check (sender tokenId eventId nonce : N) (w : World)
  : Prop :=
  passport_owner w tokenId = sender /\
  Event.exists_ (events_get (basePass w) eventId) = true /\
  EventStamp.hasStampForEvent (stampContract w) sender eventId = Ok false /\
  getb (usedNonces (basePass w)) nonce = false.

(** The two steps that follow the expiration check pass: the signature is
    the registered signer's and the stamp can be minted. *)
Definition after_expiration_check (C : Crypto) (env : Env)
  (sender tokenId eventId nonce expiration : N) (signature : list ascii)
  (w : World) : Prop :=
  ECDSA.recover C (claimDigest C eventId nonce expiration (block_chainid env))
    signature = Ok (Event.signer (events_get (basePass w) eventId)) /\
  succeeds (EventStamp.mintStamp C env (this w) sender eventId tokenId
              (stampContract w)).

(** C6, as the code has it.  A payload whose expiration is before the
    current time is always rejected, but not always with [Expired]: the
    expiration check is the fifth, and the call is rejected with [Expired]
    by that check exactly when the four checks before it pass and the
    current time exceeds the expiration.  The only other way to an
    [Expired] rejection is a claimer with code whose receiver hook reverts
    with that very reason during the mint; for a claimer without code the
    rejection is [Expired] exactly when the four checks pass and the payload
    has expired.  When the current time is at most the expiration (the
    boundary [now = expiration] included) the check passes and the call
    succeeds if it is otherwise valid. *)
Theorem C6_expiration (C : Crypto) (env : Env)
  (sender tokenId eventId nonce expiration : N) (signature : list ascii)
  (w : World) :
  reachable C w ->
  let call := Call.claimStamp tokenId eventId nonce expiration signature in
  let hook_raises_Expired :=
    0 < code_length env sender /\
    onERC721Received env sender (this w) 0
      (EventStamp._tokenIdCounter (stampContract w)) [] = HookReverted Expired in
  (expiration < block_timestamp env -> reverts (execute C env sender call w)) /\
  (execute C env sender call w = Revert Expired ->
   before_expiration_check sender tokenId eventId nonce w /\
   (expiration < block_timestamp env \/ hook_raises_Expired)) /\
  (before_expiration_check sender tokenId eventId nonce w ->
   expiration < block_timestamp env ->
   execute C env sender call w = Revert Expired) /\
  (code_length env sender = 0 ->
   (execute C env sender call w = Revert Expired <->
    before_expiration_check sender tokenId eventId nonce w /\
    expiration < block_timestamp env)) /\
  (before_expiration_check sender tokenId eventId nonce w ->
   block_timestamp env <= expiration ->
   after_expiration_check C env sender tokenId eventId nonce expiration
     signature w ->
   execute C env sender call w = Ok (claimed env sender tokenId eventId nonce w)).
Proof.
  intros Hr call hook_raises_Expired. subst hook_raises_Expired.
  pose proof (reachable_Inv _ _ Hr) as Hinv.
  assert (Hexp : before_expiration_check sender tokenId eventId nonce w ->
                 expiration < block_timestamp env ->
                 execute C env sender call w = Revert Expired).
  { intros (Hown & Hex & Hhas & Hn) Ht. unfold call. simpl.
    rewrite claimStamp_eq by done.
    rewrite (failed_check_Revert C env sender tokenId eventId nonce expiration
               signature w Expired Hinv); [reflexivity|].
    apply failed_expiration; done. }
  assert (Hinv_exp : execute C env sender call w = Revert Expired ->
    before_expiration_check sender tokenId eventId nonce w /\
    (expiration < block_timestamp env \/
     0 < code_length env sender /\
     onERC721Received env sender (this w) 0
       (EventStamp._tokenIdCounter (stampContract w)) [] = HookReverted Expired)).
  { unfold call. simpl. rewrite claimStamp_eq by done. intros He.
    assert (Hf : failed_check C env sender tokenId eventId nonce expiration
                   signature w Expired).
    { apply claimStamp_check_Revert; [done|].
      destruct (claimStamp_check _ _ _ _ _ _ _ _ _); [discriminate|]. congruence. }
    inversion Hf as [Ho|Ho Hne|Ho0 Ho Hex|Ho Hex Hh|Ho Hex Hh Hn|Ho Hex Hh Hn Ht
                    |e' Ho Hex Hh Hn Ht Hrec|a Ho Hex Hh Hn Ht Hrec Hne
                    |e' Ho Hex Hh Hn Ht Hrec Hm].
    - split; [done|]. left. exact Ht.
    - exfalso. unfold ECDSA.recover, ECDSA.recover_vrs in Hrec.
      repeat (destruct (_ : bool) in Hrec; try discriminate).
    - split; [done|]. right.
      assert (Hs0 : sender <> 0).
      { intros ->. unfold EventStamp.hasStampForEvent, ERC721Enumerable.balanceOf,
          ERC721.balanceOf in Hh. discriminate. }
      rewrite mintStamp_eq in Hm by apply Hinv.
      destruct (AccessControl.hasRole _ _ _); [|discriminate].
      destruct (_ <=? MAX_UINT256); [|discriminate].
      apply N.eqb_neq in Hs0. rewrite Hs0 in Hm.
      unfold ERC721._checkOnERC721Received in Hm.
      destruct (N.ltb_spec 0 (code_length env sender)) as [Hcode|Hcode];
        [|discriminate].
      split; [exact Hcode|].
      destruct (onERC721Received env sender (this w) 0 _ []) as [retval| |reason].
      + unfold revert_if in Hm. destruct (negb _); discriminate.
      + discriminate.
      + injection Hm as ->. reflexivity. }
  split; [|split; [exact Hinv_exp|split; [exact Hexp|split]]].
  - intros Ht. unfold call. simpl. rewrite claimStamp_eq by done.
    destruct (claimStamp_check C env sender tokenId eventId nonce expiration
                signature w) as [[]|e] eqn:Hck; [|eexists; reflexivity].
    apply claimStamp_check_Ok in Hck as (_ & _ & _ & _ & _ & Hle & _). lia.
  - intros Hcode. split.
    + intros He. destruct (Hinv_exp He) as [Hb [Ht|[Hc _]]]; [done|lia].
    + intros [Hb Ht]. apply Hexp; done.
  - intros (Hown & Hex & Hhas & Hn) Ht [Hrec [r Hmint]].
    unfold call. simpl. rewrite claimStamp_eq by done.
    unfold passport_owner in Hown.
    assert (Hs0 : sender <> 0).
    { intros ->. unfold EventStamp.hasStampForEvent, ERC721Enumerable.balanceOf,
        ERC721.balanceOf in Hhas. discriminate. }
    unfold claimStamp_check. rewrite Hown, Hex, Hhas, Hn.
    apply N.eqb_neq in Hs0 as Hs0'. rewrite Hs0', N.eqb_refl. simpl.
    apply N.leb_le in Ht. rewrite Ht. simpl.
    rewrite Hrec, N.eqb_refl. simpl.
    rewrite mintStamp_eq in Hmint by apply Hinv.
    destruct (AccessControl.hasRole _ _ _); [|discriminate]. simpl.
    destruct (_ <=? MAX_UINT256); [|discriminate]. simpl.
    rewrite Hs0' in Hmint.
    destruct (ERC721._checkOnERC721Received _ _ _ _ _ _) as [[]|];
      [reflexivity|discriminate].
Qed.

(** The payload of the scenario, valid for one hour, presented in time. *)
Lemma C6_expiration_witness :
  execute ex_crypto (ex_env ex_now) ex_A
    (Call.claimStamp 1 1 ex_nonce (ex_now + 3600) ex_signature) ex_ready
    = Ok (claimed (ex_env ex_now) ex_A 1 1 ex_nonce ex_ready).
Proof.
  refine (proj2 (proj2 (proj2 (proj2 (C6_expiration ex_crypto (ex_env ex_now) ex_A
    1 1 ex_nonce (ex_now + 3600) ex_signature ex_ready ex_ready_reachable)))) _ _ _).
  - split_and!; vm_compute; reflexivity.
  - vm_compute. discriminate.
  - split; [vm_compute; reflexivity|]. eexists. vm_compute. reflexivity.
Defined.

(** An expired payload is not always rejected with [Expired].  A redeemed
    the payload of the scenario; two hours later, when it has expired, A
    presents it again and B, who owns no passport, presents it too.  Both
    calls are rejected by a check that comes before the expiration check:
    A's with [AlreadyClaimed], B's with [NotOwner]. *)
Lemma C6_expired_payload_rejected_otherwise :
  let late := ex_env (ex_now + 7200) in
  ex_now + 3600 < block_timestamp late /\
  reachable ex_crypto ex_claimed /\
  execute ex_crypto late ex_A ex_claim ex_claimed = Revert AlreadyClaimed /\
  execute ex_crypto late ex_B ex_claim ex_claimed = Revert NotOwner /\
  AlreadyClaimed <> Expired /\ NotOwner <> Expired.
Proof.
  split; [vm_compute; reflexivity|].
  split; [exact ex_claimed_reachable|].
  split; [vm_compute; reflexivity|].
  split; [vm_compute; reflexivity|].
  split; discriminate.
Qed.

(** One second late: rejected with [Expired]; exactly at the expiration
    time: accepted. *)
Example expiration_one_second_late :
  execute ex_crypto (ex_env ex_now) ex_A
    (Call.claimStamp 1 1 ex_nonce (ex_now - 1)
       (ex_sign ex_B (claimDigest ex_crypto 1 ex_nonce (ex_now - 1) 84532)))
    ex_ready = Revert Expired.
Proof. vm_compute. reflexivity. Qed.

Example expiration_boundary_passes :
  succeeds
    (execute ex_crypto (ex_env ex_now) ex_A
       (Call.claimStamp 1 1 ex_nonce ex_now
          (ex_sign ex_B (claimDigest ex_crypto 1 ex_nonce ex_now 84532)))
       ex_ready).
Proof. eexists. vm_compute. reflexivity. Qed.

(** ** C7: rate limiting *)

(** Integers below 2^53 in absolute value are Numbers: the arithmetic of the
    creation form is exact on them. *)
Lemma to_Number_exact (z : Z) :
  (Z.abs z < 2 ^ 53)%Z -> Js.to_Number z = z.
Proof.
  intros Hz. unfold Js.to_Number.
  assert (Hlog : (Z.log2 (Z.abs z) <= 52)%Z).
  { destruct (Z.eq_dec (Z.abs z) 0%Z) as [->|Hne]; [simpl; lia|].
    assert (Z.log2 (Z.abs z) < 53)%Z; [|lia].
    apply Z.log2_lt_pow2; lia. }
  destruct (Z.leb_spec (Z.log2 (Z.abs z) - 52)%Z 0%Z); [reflexivity|lia].
Qed.

Lemma updateTimeLeft_exact (last cooldown : N) (now : Z) :
  (Z.of_N last + Z.of_N cooldown < 2 ^ 53)%Z -> (0 <= now < 2 ^ 53)%Z ->
  Frontend.updateTimeLeft (Some last) (Some cooldown) now =
    if (last =? 0) || (cooldown =? 0) then None
    else if (Z.of_N last + Z.of_N cooldown - now <=? 0)%Z then None
         else Some (Z.of_N last + Z.of_N cooldown - now)%Z.
Proof.
  intros Hsum Hnow. unfold Frontend.updateTimeLeft, Js.add, Js.sub,
    Js.Number_of_bigint.
  destruct ((last =? 0) || (cooldown =? 0)); [reflexivity|].
  rewrite (to_Number_exact (Z.of_N last)) by lia.
  rewrite (to_Number_exact (Z.of_N cooldown)) by lia.
  rewrite (to_Number_exact (Z.of_N last + Z.of_N cooldown)%Z) by lia.
  rewrite (to_Number_exact (Z.of_N last + Z.of_N cooldown - now)%Z) by lia.
  reflexivity.
Qed.

(** Above 2^53 a Number drops low bits: for a last creation at 2^53 + 1 the
    form computes the end of the cooldown one second early. *)
Example updateTimeLeft_rounds :
  Js.Number_of_bigint (2 ^ 53 + 1) = (2 ^ 53)%Z /\
  Frontend.updateTimeLeft (Some (2 ^ 53 + 1)) (Some EVENT_COOLDOWN)
    (2 ^ 53 + 3598)%Z = Some 2%Z.
Proof. split; vm_compute; reflexivity. Qed.

(** The time a principal still has to wait, as a caller derives it from
    the public getters [lastEventCreation] and [EVENT_COOLDOWN]. *)
Definition remaining_cooldown (s : BasePass.Storage) (principal now : N) : N :=
  get (lastEventCreation s) principal + EVENT_COOLDOWN - now.

Definition is_createEvent (c : Call.t) : Prop :=
  match c with
  | Call.createEvent _ _ _ _ => True
  | _ => False
  end.

(** C7, as the code has it.  The contract keeps, per principal, the time of
    the last successful [createEvent]; a call in which no receiver hook runs
    changes it only if it is a [createEvent] by that principal.  A
    [createEvent] call made less than [EVENT_COOLDOWN] = 3600 seconds after
    it is rejected with [RateLimited], a fixed message that carries no
    remaining time, and changes nothing; the remaining time is
    [lastEventCreation + EVENT_COOLDOWN - now], computed from the two public
    getters without changing the state, and it is what the creation form
    computes for times that are Numbers (below 2^53).  A call at or after
    the end of the cooldown succeeds when its arguments are valid. *)
Theorem C7_rate_limit (C : Crypto) (w : World) (principal : N) :
  reachable C w ->
  let last := get (lastEventCreation (basePass w)) principal in
  (forall env name description iconUrl signer w',
     execute C env principal (Call.createEvent name description iconUrl signer) w
       = Ok w' ->
     get (lastEventCreation (basePass w')) principal = block_timestamp env) /\
  (forall env sender c w',
     sender <> 0 -> hook_free env sender c ->
     execute C env sender c w = Ok w' ->
     get (lastEventCreation (basePass w')) principal <> last ->
     sender = principal /\ is_createEvent c) /\
  (forall env name description iconUrl signer,
     last + EVENT_COOLDOWN <= MAX_UINT256 ->
     block_timestamp env < last + EVENT_COOLDOWN ->
     let call := Call.createEvent name description iconUrl signer in
     execute C env principal call w = Revert RateLimited /\
     transact C env principal call w = w /\
     0 < remaining_cooldown (basePass w) principal (block_timestamp env) /\
     (last <> 0 -> last + EVENT_COOLDOWN < 2 ^ 53 ->
      Frontend.updateTimeLeft (Some last) (Some EVENT_COOLDOWN)
        (Z.of_N (block_timestamp env))
      = Some (Z.of_N (remaining_cooldown (basePass w) principal
                        (block_timestamp env))))) /\
  (forall env name description iconUrl signer,
     last + EVENT_COOLDOWN <= block_timestamp env ->
     block_timestamp env <= MAX_UINT256 ->
     _eventIdCounter (basePass w) + 1 <= MAX_UINT256 ->
     signer <> 0 ->
     1 <= N.of_nat (String.length name) <= 100 ->
     N.of_nat (String.length description) <= 500 ->
     succeeds (execute C env principal
                 (Call.createEvent name description iconUrl signer) w)).
Proof.
  intros Hr last. pose proof (reachable_Inv _ _ Hr) as Hinv.
  split; [|split; [|split]].
  - intros env name description iconUrl signer w' He. simpl in He.
    unfold on_basePass in He. rewrite createEvent_eq in He.
    destruct (createEvent_check _ _ _ _ _ _); [|discriminate].
    simpl in He. injection He as <-. simpl. rewrite get_insert.
    rewrite decide_True by done. done.
  - intros env sender c w' Hs _ He Hne.
    destruct (execute_Ok _ _ _ _ _ _ Hinv Hs He) as [Hg ->].
    destruct c; simpl in *; try done.
    rewrite get_insert in Hne. case_decide; [done|]. done.
  - intros env name description iconUrl signer Hmax Ht call.
    assert (He : execute C env principal call w = Revert RateLimited).
    { unfold call. simpl. unfold on_basePass. rewrite createEvent_eq.
      unfold createEvent_check. fold last.
      apply N.leb_le in Hmax. rewrite Hmax.
      apply N.leb_gt in Ht. rewrite Ht. reflexivity. }
    split; [exact He|]. split; [unfold transact; rewrite He; done|].
    unfold remaining_cooldown. fold last. split.
    + unfold EVENT_COOLDOWN in *. lia.
    + intros Hlast Hsafe.
      assert (H53 : (2 ^ 53)%Z = Z.of_N (2 ^ 53)) by (vm_compute; reflexivity).
      rewrite updateTimeLeft_exact by (unfold EVENT_COOLDOWN in *; lia).
      apply N.eqb_neq in Hlast. rewrite Hlast.
      change (EVENT_COOLDOWN =? 0) with false. cbn [orb].
      unfold EVENT_COOLDOWN in *.
      destruct (Z.leb_spec (Z.of_N last + Z.of_N 3600 - Z.of_N (block_timestamp env))%Z
                  0%Z) as [Hz|Hz]; [lia|]. f_equal. lia.
  - intros env name description iconUrl signer Ht Hmax Hc Hsig Hname Hdesc.
    simpl. unfold on_basePass. rewrite createEvent_eq.
    assert (Hck : createEvent_check env principal name description signer
                    (basePass w) = Ok tt).
    { apply createEvent_check_Ok. fold last. repeat split; try done; lia. }
    rewrite Hck. eexists. reflexivity.
Qed.

(** B registered an event at [ex_now].  Rejected 1800 s later, with 1800 s
    remaining shown by the form; accepted 3601 s later. *)
Lemma C7_rate_limit_witness :
  let call := Call.createEvent "Second" "Another meetup" "" ex_B in
  execute ex_crypto (ex_env (ex_now + 1800)) ex_B call ex_ready
    = Revert RateLimited /\
  Frontend.updateTimeLeft
    (Some (get (lastEventCreation (basePass ex_ready)) ex_B))
    (Some EVENT_COOLDOWN) (Z.of_N (ex_now + 1800)) = Some 1800%Z /\
  succeeds (execute ex_crypto (ex_env (ex_now + 3601)) ex_B call ex_ready).
Proof.
  destruct (C7_rate_limit ex_crypto ex_ready ex_B ex_ready_reachable)
    as (_ & _ & Hin & Hout).
  destruct (Hin (ex_env (ex_now + 1800)) "Second" "Another meetup" "" ex_B)
    as (H1 & _ & _ & H2); [vm_compute; discriminate|vm_compute; reflexivity|].
  split; [exact H1|]. split.
  - etransitivity;
      [apply H2; [vm_compute; discriminate|vm_compute; reflexivity]
      |vm_compute; reflexivity].
  - clear H1 H2 Hin.
    apply (Hout (ex_env (ex_now + 3601)) "Second" "Another meetup" "" ex_B).
    + vm_compute. discriminate.
    + vm_compute. discriminate.
    + vm_compute. discriminate.
    + vm_compute. discriminate.
    + vm_compute. split; discriminate.
    + vm_compute. discriminate.
Defined.

(** Two rejected calls of B, one second and 3599 seconds after B's
    creation, that is 3599 s and 1 s before the end of the cooldown: the two
    rejections are the same fixed message.  Hence nothing computed from the
    rejection tells the remaining time, not even approximately: no reading
    of the error is within a thousand seconds of the remaining time in both
    cases. *)
Lemma C7_rejection_does_not_carry_remaining_time :
  let call := Call.createEvent "Second" "Another meetup" "" ex_B in
  execute ex_crypto (ex_env (ex_now + 1)) ex_B call ex_ready
    = Revert RateLimited /\
  execute ex_crypto (ex_env (ex_now + 3599)) ex_B call ex_ready
    = Revert RateLimited /\
  remaining_cooldown (basePass ex_ready) ex_B (ex_now + 1) = 3599 /\
  remaining_cooldown (basePass ex_ready) ex_B (ex_now + 3599) = 1 /\
  ~ (exists report : Error -> N,
       forall t e,
         execute ex_crypto (ex_env t) ex_B call ex_ready = Revert e ->
         report e <= remaining_cooldown (basePass ex_ready) ex_B t + 1000 /\
         remaining_cooldown (basePass ex_ready) ex_B t <= report e + 1000).
Proof.
  assert (H1 : execute ex_crypto (ex_env (ex_now + 1)) ex_B
                 (Call.createEvent "Second" "Another meetup" "" ex_B) ex_ready
               = Revert RateLimited) by (vm_compute; reflexivity).
  assert (H2 : execute ex_crypto (ex_env (ex_now + 3599)) ex_B
                 (Call.createEvent "Second" "Another meetup" "" ex_B) ex_ready
               = Revert RateLimited) by (vm_compute; reflexivity).
  assert (R1 : remaining_cooldown (basePass ex_ready) ex_B (ex_now + 1) = 3599)
    by (vm_compute; reflexivity).
  assert (R2 : remaining_cooldown (basePass ex_ready) ex_B (ex_now + 3599) = 1)
    by (vm_compute; reflexivity).
  repeat split; try assumption.
  intros [report Hrep].
  pose proof (Hrep _ _ H1) as [_ E1]. pose proof (Hrep _ _ H2) as [E2 _].
  rewrite R1 in E1. rewrite R2 in E2. lia.
Qed.

(** ** C8: event creation *)

(** The conditions [createEvent] validates. *)
Definition createEvent_valid (env : Env) (sender : N) (name description : string)
  (signer : N) (s : BasePass.Storage) : Prop :=
  signer <> 0 /\
  1 <= N.of_nat (String.length name) <= 100 /\
  N.of_nat (String.length description) <= 500 /\
  get (lastEventCreation s) sender + EVENT_COOLDOWN <= block_timestamp env.

(** C8.  Away from the overflow of a 256-bit counter or time, [createEvent]
    succeeds exactly when the signer is not the zero address, the name has
    1 to 100 bytes, the description at most 500 and the caller's cooldown
    has elapsed.  On success it returns the value of the event counter,
    stores under it a new record with the given fields, increments the
    counter, emits [EventCreated(eventId, name, signer)] and leaves the
    other records as they were; no later call changes the record.  On
    failure the transaction changes nothing.  The first event of a
    deployment gets the id 1. *)
Theorem C8_createEvent (C : Crypto) (env : Env) (sender : N)
  (name description iconUrl : string) (signer : N) (w : World) :
  reachable C w ->
  get (lastEventCreation (basePass w)) sender + EVENT_COOLDOWN <= MAX_UINT256 ->
  _eventIdCounter (basePass w) + 1 <= MAX_UINT256 ->
  let s := basePass w in
  let eventId := _eventIdCounter s in
  let call := Call.createEvent name description iconUrl signer in
  (succeeds (BasePass.createEvent env sender name description iconUrl signer s)
   <-> createEvent_valid env sender name description signer s) /\
  (createEvent_valid env sender name description signer s ->
   exists s',
     BasePass.createEvent env sender name description iconUrl signer s
       = Ok (eventId, s') /\
     transact C env sender call w = set_basePass w s' /\
     Event.exists_ (events_get s eventId) = false /\
     events_get s' eventId =
       {| Event.id := eventId; Event.name := name;
          Event.description := description; Event.iconUrl := iconUrl;
          Event.signer := signer; Event.exists_ := true |} /\
     _eventIdCounter s' = eventId + 1 /\
     emitted s' = emitted s ++ [EventCreated eventId name signer] /\
     (forall other, other <> eventId -> events_get s' other = events_get s other) /\
     (forall w2, steps C (set_basePass w s') w2 ->
        events_get (basePass w2) eventId = events_get s' eventId)) /\
  (~ createEvent_valid env sender name description signer s ->
   transact C env sender call w = w) /\
  (forall deployer self stampAddress w0,
     deploy C deployer self stampAddress = Ok w0 ->
     _eventIdCounter (basePass w0) = 1).
Proof.
  intros Hr Hmax Hcnt s eventId call. subst s eventId call.
  pose proof (reachable_Inv _ _ Hr) as Hinv.
  assert (Hiff : createEvent_check env sender name description signer (basePass w)
                   = Ok tt
                 <-> createEvent_valid env sender name description signer
                       (basePass w)).
  { rewrite createEvent_check_Ok. unfold createEvent_valid. tauto. }
  split; [|split; [|split]].
  - rewrite createEvent_eq. rewrite <- Hiff. unfold succeeds.
    destruct (createEvent_check _ _ _ _ _ _) as [[]|]; split; try done.
    + intros _. eexists. reflexivity.
    + intros [? ?]. discriminate.
  - intros Hv. apply Hiff in Hv as Hck.
    exists (created_event env sender name description iconUrl signer (basePass w)).
    assert (Hnew : Event.exists_ (events_get (basePass w)
                      (_eventIdCounter (basePass w))) = false).
    { destruct (Event.exists_ _) eqn:Hex; [|done].
      apply (pi_events _ (proj1 Hinv)) in Hex. lia. }
    assert (Hrec : events_get (created_event env sender name description iconUrl
                                 signer (basePass w)) (_eventIdCounter (basePass w)) =
       {| Event.id := _eventIdCounter (basePass w); Event.name := name;
          Event.description := description; Event.iconUrl := iconUrl;
          Event.signer := signer; Event.exists_ := true |}).
    { unfold events_get. simpl. rewrite lookup_insert_eq. done. }
    repeat split.
    + rewrite createEvent_eq, Hck. done.
    + unfold transact. simpl. unfold on_basePass.
      rewrite createEvent_eq. rewrite Hck. done.
    + exact Hnew.
    + exact Hrec.
    + intros other Hne. unfold events_get. simpl.
      rewrite lookup_insert_ne by done. done.
    + intros w2 Hsteps.
      assert (Hinv1 : Inv (set_basePass w
        (created_event env sender name description iconUrl signer (basePass w)))).
      { split; [|apply Hinv]. simpl.
        apply passport_inv_created; [apply Hinv|apply Hv|done]. }
      pose proof (steps_persists _ _ _ Hinv1 Hsteps) as Hper.
      apply (ps_event _ _ Hper). simpl. rewrite Hrec. done.
  - intros Hnv. unfold transact. simpl. unfold on_basePass.
    rewrite createEvent_eq.
    destruct (createEvent_check env sender name description signer (basePass w))
      as [[]|]; [|done]. exfalso. apply Hnv, Hiff. reflexivity.
  - intros deployer self stampAddress w0 Hd. unfold deploy, BasePass.constructor in Hd.
    destruct (revert_if _ _); [|discriminate]. simpl in Hd.
    destruct (require _ _); [|discriminate]. simpl in Hd.
    injection Hd as <-. done.
Qed.

(** The first event of the scenario: B registers "Meetup" on the freshly
    deployed system and gets the id 1. *)
Lemma C8_createEvent_witness :
  exists s',
    BasePass.createEvent (ex_env ex_now) ex_B "Meetup" "Monthly meetup" "" ex_B
      (basePass ex_deployed) = Ok (1, s') /\
    events_get s' 1 =
      {| Event.id := 1; Event.name := "Meetup";
         Event.description := "Monthly meetup"; Event.iconUrl := "";
         Event.signer := ex_B; Event.exists_ := true |} /\
    _eventIdCounter s' = 2 /\
    emitted s' = [EventCreated 1 "Meetup" ex_B].
Proof.
  destruct (C8_createEvent ex_crypto (ex_env ex_now) ex_B "Meetup" "Monthly meetup"
              "" ex_B ex_deployed ex_deployed_reachable)
    as (_ & Hok & _); [vm_compute; discriminate|vm_compute; discriminate|].
  destruct Hok as (s' & H1 & _ & _ & H2 & H3 & H4 & _).
  { split_and!; vm_compute; discriminate. }
  exists s'. repeat split; assumption.
Defined.

(** ** C9: who writes the two ledgers *)

(** The stamp ledger: who owns which stamp, the per-owner and global
    enumerations, the data of each stamp and the stamp counter (approvals
    and roles are not part of it). *)
Definition stamp_ledger (st : EventStamp.Storage) :=
  (ERC721._owners (EventStamp.erc721 st),
   ERC721._balances (EventStamp.erc721 st),
   ERC721Enumerable._ownedTokens (EventStamp.enumerable st),
   ERC721Enumerable._allTokens (EventStamp.enumerable st),
   EventStamp.stampMetadata st,
   EventStamp._tokenIdCounter st).

Definition is_claimStamp (c : Call.t) : Prop :=
  match c with
  | Call.claimStamp _ _ _ _ _ => True
  | _ => False
  end.

Definition is_mintStamp (c : Call.t) : Prop :=
  match c with
  | Call.mintStamp _ _ _ => True
  | _ => False
  end.

(** C9, as the code has it.  A call in which no receiver hook runs changes
    the nonce ledger only if it is a successful [claimStamp], and it changes
    the stamp ledger only if it is a successful [claimStamp] or a successful
    direct [mintStamp] by an account holding [MINTER_ROLE] on the stamp
    contract (the constructor gives that role to the deployer, and the
    role's administrator can grant it further).  A successful [claimStamp]
    marks exactly its own nonce.  No call removes a nonce or a stamp. *)
Theorem C9_ledger_writers (C : Crypto) (env : Env) (sender : N) (c : Call.t)
  (w w' : World) :
  reachable C w -> sender <> 0 ->
  execute C env sender c w = Ok w' ->
  (hook_free env sender c ->
   (usedNonces (basePass w') <> usedNonces (basePass w) -> is_claimStamp c) /\
   (stamp_ledger (stampContract w') <> stamp_ledger (stampContract w) ->
    is_claimStamp c \/
    (is_mintStamp c /\
     AccessControl.hasRole (EventStamp.access (stampContract w))
       (EventStamp.MINTER_ROLE C) sender = true))) /\
  (forall tokenId eventId nonce expiration signature,
     c = Call.claimStamp tokenId eventId nonce expiration signature ->
     usedNonces (basePass w') = <[nonce := true]> (usedNonces (basePass w))) /\
  (forall nonce, getb (usedNonces (basePass w)) nonce = true ->
                 getb (usedNonces (basePass w')) nonce = true) /\
  (forall stampId, stamp_owner w stampId <> 0 ->
                   stamp_owner w' stampId = stamp_owner w stampId /\
                   stamp_data w' stampId = stamp_data w stampId).
Proof.
  intros Hr Hs He. pose proof (reachable_Inv _ _ Hr) as Hinv.
  destruct (execute_Ok _ _ _ _ _ _ Hinv Hs He) as [Hg ->].
  pose proof (post_persists C env sender c w Hinv Hg) as Hper.
  split; [|split; [|split]].
  - intros _. split.
    + destruct c; simpl; try done.
    + destruct c; simpl in *; unfold stamp_ledger, EventStamp.erc721; simpl;
        try done; auto.
      intros _. right. split; [done|]. apply Hg.
  - intros tokenId eventId nonce expiration signature ->. reflexivity.
  - apply (ps_nonce _ _ Hper).
  - intros stampId H. split.
    + apply (ps_stamp_owner _ _ Hper). exact H.
    + apply (ps_stamp_data _ _ Hper). exact H.
Qed.

(** The claim of the scenario, made by an account without code, is the call
    that marks the nonce and creates the stamp. *)
Lemma C9_ledger_writers_witness :
  (usedNonces (basePass ex_claimed) <> usedNonces (basePass ex_ready) ->
   is_claimStamp ex_claim) /\
  (stamp_ledger (stampContract ex_claimed) <> stamp_ledger (stampContract ex_ready) ->
   is_claimStamp ex_claim \/
   (is_mintStamp ex_claim /\
    AccessControl.hasRole (EventStamp.access (stampContract ex_ready))
      (EventStamp.MINTER_ROLE ex_crypto) ex_A = true)) /\
  (forall tokenId eventId nonce expiration signature,
     ex_claim = Call.claimStamp tokenId eventId nonce expiration signature ->
     usedNonces (basePass ex_claimed)
       = <[nonce := true]> (usedNonces (basePass ex_ready))) /\
  (forall nonce, getb (usedNonces (basePass ex_ready)) nonce = true ->
                 getb (usedNonces (basePass ex_claimed)) nonce = true) /\
  (forall stampId, stamp_owner ex_ready stampId <> 0 ->
                   stamp_owner ex_claimed stampId = stamp_owner ex_ready stampId /\
                   stamp_data ex_claimed stampId = stamp_data ex_ready stampId).
Proof.
  destruct (C9_ledger_writers ex_crypto (ex_env ex_now) ex_A ex_claim ex_ready
              ex_claimed) as (Hframe & Hown & Hnonce & Hstamp).
  - apply ex_ready_reachable.
  - vm_compute. discriminate.
  - vm_compute. reflexivity.
  - destruct (Hframe eq_refl) as [Hn Hl].
    split; [exact Hn|]. split; [exact Hl|]. split; [exact Hown|].
    split; [exact Hnonce|exact Hstamp].
Defined.

(** Right after deployment the deployer, who holds [MINTER_ROLE], mints a
    stamp to A by calling the stamp contract directly: a stamp record is
    created although no [claimStamp] ran (no nonce is marked, the passport
    contract emitted nothing, and A does not even own a passport). *)
Lemma C9_stamp_created_without_claim :
  let w := transact ex_crypto (ex_env ex_now) ex_deployer
             (Call.mintStamp ex_A 1 1) ex_deployed in
  reachable ex_crypto ex_deployed /\
  execute ex_crypto (ex_env ex_now) ex_deployer (Call.mintStamp ex_A 1 1)
    ex_deployed = Ok w /\
  stamp_owner ex_deployed 1 = 0 /\
  stamp_owner w 1 = ex_A /\
  EventStamp.hasStampForEvent (stampContract w) ex_A 1 = Ok true /\
  stamp_ledger (stampContract w) <> stamp_ledger (stampContract ex_deployed) /\
  usedNonces (basePass w) = ∅ /\
  emitted (basePass w) = [] /\
  passport_balance w ex_A = 0.
Proof.
  split_and!; try (vm_compute; reflexivity).
  - apply ex_deployed_reachable.
  - vm_compute. discriminate.
Qed.

(** ** C10: [hasStamp] on unknown passports *)

(** C10.  In a reachable state the minted passports are those numbered from
    1 to the counter (excluded); they are the passports that have an owner.
    [hasStamp(tokenId, eventId)] reverts exactly when [tokenId] is not a
    minted passport, with [ERC721NonexistentToken], since it first resolves
    the owner; for a minted passport it returns whether the owner of the
    passport owns a stamp whose recorded event is [eventId]. *)
Theorem C10_hasStamp_partial (C : Crypto) (w : World) (tokenId eventId : N) :
  reachable C w ->
  let minted := 1 <= tokenId < _tokenIdCounter (basePass w) in
  (minted <-> passport_owner w tokenId <> 0) /\
  (reverts (hasStamp w tokenId eventId) <-> ~ minted) /\
  (~ minted ->
   hasStamp w tokenId eventId = Revert (ERC721NonexistentToken tokenId)) /\
  (minted ->
   exists b, hasStamp w tokenId eventId = Ok b /\
             (b = true <->
              holds_stamp (stampContract w) (passport_owner w tokenId) eventId)).
Proof.
  intros Hr minted. pose proof (reachable_Inv _ _ Hr) as [Hp Hs].
  assert (Hm : minted <-> passport_owner w tokenId <> 0).
  { split.
    - apply (ti_dense _ _ (pi_token _ Hp)).
    - apply (ti_fresh _ _ (pi_token _ Hp)). }
  assert (Hno : ~ minted ->
    hasStamp w tokenId eventId = Revert (ERC721NonexistentToken tokenId)).
  { intros Hn. unfold hasStamp, ERC721.ownerOf, ERC721._requireOwned.
    assert (Ho : ERC721._ownerOf (erc721 (basePass w)) tokenId = 0).
    { destruct (N.eq_dec (ERC721._ownerOf (erc721 (basePass w)) tokenId) 0);
        [done|]. exfalso. apply Hn, Hm. done. }
    rewrite Ho. reflexivity. }
  assert (Hyes : minted ->
    exists b, hasStamp w tokenId eventId = Ok b /\
      (b = true <->
       holds_stamp (stampContract w) (passport_owner w tokenId) eventId)).
  { intros Hy. apply Hm in Hy. unfold hasStamp, ERC721.ownerOf, ERC721._requireOwned.
    unfold passport_owner in *.
    apply N.eqb_neq in Hy as Hy'. rewrite Hy'. simpl.
    apply hasStampForEvent_spec; done. }
  split; [exact Hm|]. split; [|split; [exact Hno|exact Hyes]].
  split.
  - intros [e He] Hy. destruct (Hyes Hy) as (b & Hb & _). congruence.
  - intros Hn. eexists. apply Hno. exact Hn.
Qed.

(** Passport 1 holds the stamp of event 1; passport 7 was never minted. *)
Lemma C10_hasStamp_partial_witness :
  hasStamp ex_claimed 7 1 = Revert (ERC721NonexistentToken 7) /\
  exists b, hasStamp ex_claimed 1 1 = Ok b /\
            (b = true <->
             holds_stamp (stampContract ex_claimed) (passport_owner ex_claimed 1) 1).
Proof.
  split.
  - apply (C10_hasStamp_partial ex_crypto ex_claimed 7 1 ex_claimed_reachable).
    vm_compute. intros [_ H]. discriminate.
  - apply (C10_hasStamp_partial ex_crypto ex_claimed 1 1 ex_claimed_reachable).
    vm_compute. split; [discriminate|reflexivity].
Defined.

(** ** The packed encoding is injective *)

Lemma le_bytes_length (len : nat) (n : N) : List.length (le_bytes len n) = len.
Proof. revert n. induction len as [|k IH]; intros n; simpl; [done|]. by rewrite IH. Qed.

Lemma le_value_le_bytes (len : nat) (n : N) :
  le_value (le_bytes len n) = n mod 256 ^ N.of_nat len.
Proof.
  revert n. induction len as [|k IH]; intros n.
  - simpl. change (N.of_nat 0) with 0. rewrite N.pow_0_r, N.mod_1_r. done.
  - cbn [le_bytes le_value]. rewrite IH.
    rewrite N_ascii_embedding by (apply N.mod_upper_bound; lia).
    rewrite Nat2N.inj_succ, N.pow_succ_r'.
    rewrite N.Div0.mod_mul_r. done.
Qed.

Lemma be_bytes_length (len : nat) (n : N) : List.length (be_bytes len n) = len.
Proof. unfold be_bytes. rewrite length_rev. apply le_bytes_length. Qed.

Lemma be_value_be_bytes (len : nat) (n : N) :
  be_value (be_bytes len n) = n mod 256 ^ N.of_nat len.
Proof. unfold be_value, be_bytes. rewrite rev_involutive. apply le_value_le_bytes. Qed.

Lemma pow_256_32 : 256 ^ N.of_nat 32 = 2 ^ 256.
Proof. vm_compute. reflexivity. Qed.

Lemma be_bytes_32_inj (a b : N) :
  a <= MAX_UINT256 -> b <= MAX_UINT256 ->
  be_bytes 32 a = be_bytes 32 b -> a = b.
Proof.
  intros Ha Hb H. apply (f_equal be_value) in H.
  rewrite !be_value_be_bytes, pow_256_32 in H.
  unfold MAX_UINT256 in *.
  assert (0 < 2 ^ 256) by (apply N.neq_0_lt_0, N.pow_nonzero; lia).
  rewrite !N.mod_small in H by lia. exact H.
Qed.

Lemma encodePacked_inj (e n x c e' n' x' c' : N) :
  e <= MAX_UINT256 -> n <= MAX_UINT256 -> x <= MAX_UINT256 -> c <= MAX_UINT256 ->
  e' <= MAX_UINT256 -> n' <= MAX_UINT256 -> x' <= MAX_UINT256 -> c' <= MAX_UINT256 ->
  encodePacked e n x c = encodePacked e' n' x' c' ->
  e = e' /\ n = n' /\ x = x' /\ c = c'.
Proof.
  intros He Hn Hx Hc He' Hn' Hx' Hc' H. unfold encodePacked in H.
  apply app_inj_1 in H as [H1 H]; [|by rewrite !be_bytes_length].
  apply app_inj_1 in H as [H2 H]; [|by rewrite !be_bytes_length].
  apply app_inj_1 in H as [H3 H4]; [|by rewrite !be_bytes_length].
  repeat split; apply be_bytes_32_inj; done.
Qed.

(** ** C4: the signature check *)

Definition is_ECDSA_error (e : Error) : Prop :=
  match e with
  | ECDSAInvalidSignature | ECDSAInvalidSignatureLength _
  | ECDSAInvalidSignatureS _ => True
  | _ => False
  end.

Lemma recover_Revert (C : Crypto) (hash : N) (signature : list ascii) (e : Error) :
  ECDSA.recover C hash signature = Revert e -> is_ECDSA_error e.
Proof.
  unfold ECDSA.recover, ECDSA.recover_vrs.
  repeat (destruct (_ : bool); try discriminate); intros [= <-]; exact I.
Qed.

(** Idealisations of the two primitives.  [keccak256] does not collide on
    two given messages; for two packed tuples [m] and [m'] this is asked of
    the two hashes the code computes, that of the packed tuple and that of
    the prefixed message built from it, and the first hash is a 32-byte
    value.  A signature recovers the same signer from one digest only. *)
Definition keccak_distinguishes (C : Crypto) (m m' : list ascii) : Prop :=
  keccak256 C m = keccak256 C m' -> m = m'.

Definition no_collision (C : Crypto) (m m' : list ascii) : Prop :=
  keccak256 C m <= MAX_UINT256 /\ keccak256 C m' <= MAX_UINT256 /\
  keccak_distinguishes C m m' /\
  keccak_distinguishes C
    (MessageHashUtils.ETH_PREFIX ++ be_bytes 32 (keccak256 C m))
    (MessageHashUtils.ETH_PREFIX ++ be_bytes 32 (keccak256 C m')).

(** Without such collisions the digest of [claimStamp] determines the
    tuple it is computed from. *)
Lemma claimDigest_inj (C : Crypto) (e n x c e' n' x' c' : N) :
  e <= MAX_UINT256 -> n <= MAX_UINT256 -> x <= MAX_UINT256 -> c <= MAX_UINT256 ->
  e' <= MAX_UINT256 -> n' <= MAX_UINT256 -> x' <= MAX_UINT256 -> c' <= MAX_UINT256 ->
  no_collision C (encodePacked e n x c) (encodePacked e' n' x' c') ->
  claimDigest C e n x c = claimDigest C e' n' x' c' ->
  e = e' /\ n = n' /\ x = x' /\ c = c'.
Proof.
  intros He Hn Hx Hc He' Hn' Hx' Hc' (Hr & Hr' & Hinner & Houter) Hd.
  unfold claimDigest, MessageHashUtils.toEthSignedMessageHash in Hd.
  apply Houter in Hd. apply app_inv_head in Hd.
  apply be_bytes_32_inj in Hd; [|done..].
  apply Hinner in Hd. apply encodePacked_inj in Hd; done.
Qed.

Definition binds_one_digest (C : Crypto) (signature : list ascii) (d d' : N)
  : Prop :=
  forall a, ECDSA.recover C d signature = Ok a ->
            ECDSA.recover C d' signature = Ok a -> d = d'.

(** The commit of [claimStamp] can succeed: the passport contract holds
    [MINTER_ROLE] on the stamp contract, the stamp counter is below its
    maximum and the claimer accepts the stamp. *)
Definition commit_ready (C : Crypto) (env : Env) (sender : N) (w : World) : Prop :=
  AccessControl.hasRole (EventStamp.access (stampContract w))
    (EventStamp.MINTER_ROLE C) (this w) = true /\
  EventStamp._tokenIdCounter (stampContract w) + 1 <= MAX_UINT256 /\
  ERC721._checkOnERC721Received env (this w) 0 sender
    (EventStamp._tokenIdCounter (stampContract w)) [] = Ok tt.

(** C4, as the code has it.  Let the five checks before the signature check
    pass.  A malformed signature is rejected with the error of the ECDSA
    library; a signature whose recovered signer is not the signer
    registered for the event is rejected with [InvalidSignature]; a call
    commits only if the recovered signer is the registered one, and then it
    commits exactly when the commit itself can succeed ([commit_ready]),
    failing otherwise with the error of the mint.  The digest is computed
    from [(eventId, nonce, expiration, chainId)], whose packed encoding is
    injective on 256-bit values; hence, if [keccak256] does not collide on
    the two packed tuples nor on the two prefixed messages and the signature
    recovers its signer from one digest only, a signature of the registered
    signer for one tuple never lets a call with another tuple commit against
    that signer, whichever field differs, the chain identifier included. *)
Theorem C4_signature_check (C : Crypto) (env : Env)
  (sender tokenId eventId nonce expiration : N) (signature : list ascii)
  (w : World) :
  reachable C w ->
  before_expiration_check sender tokenId eventId nonce w ->
  block_timestamp env <= expiration ->
  let digest := claimDigest C eventId nonce expiration (block_chainid env) in
  let registered := Event.signer (events_get (basePass w) eventId) in
  let call := Call.claimStamp tokenId eventId nonce expiration signature in
  (forall e, ECDSA.recover C digest signature = Revert e ->
             execute C env sender call w = Revert e /\ is_ECDSA_error e) /\
  (forall a, ECDSA.recover C digest signature = Ok a -> a <> registered ->
             execute C env sender call w = Revert InvalidSignature) /\
  (succeeds (execute C env sender call w) ->
   ECDSA.recover C digest signature = Ok registered) /\
  (ECDSA.recover C digest signature = Ok registered ->
   (succeeds (execute C env sender call w) <-> commit_ready C env sender w) /\
   (commit_ready C env sender w ->
    execute C env sender call w = Ok (claimed env sender tokenId eventId nonce w)) /\
   (forall e, execute C env sender call w = Revert e ->
              EventStamp.mintStamp C env (this w) sender eventId tokenId
                (stampContract w) = Revert e)) /\
  (forall eventId' nonce' expiration' chainid',
     eventId <= MAX_UINT256 -> nonce <= MAX_UINT256 ->
     expiration <= MAX_UINT256 -> block_chainid env <= MAX_UINT256 ->
     eventId' <= MAX_UINT256 -> nonce' <= MAX_UINT256 ->
     expiration' <= MAX_UINT256 -> chainid' <= MAX_UINT256 ->
     (eventId', nonce', expiration', chainid')
       <> (eventId, nonce, expiration, block_chainid env) ->
     encodePacked eventId' nonce' expiration' chainid'
       <> encodePacked eventId nonce expiration (block_chainid env)) /\
  (forall env' sender' tokenId' eventId' nonce' expiration' w',
     ECDSA.recover C digest signature = Ok registered ->
     eventId <= MAX_UINT256 -> nonce <= MAX_UINT256 ->
     expiration <= MAX_UINT256 -> block_chainid env <= MAX_UINT256 ->
     eventId' <= MAX_UINT256 -> nonce' <= MAX_UINT256 ->
     expiration' <= MAX_UINT256 -> block_chainid env' <= MAX_UINT256 ->
     (eventId', nonce', expiration', block_chainid env')
       <> (eventId, nonce, expiration, block_chainid env) ->
     no_collision C
       (encodePacked eventId nonce expiration (block_chainid env))
       (encodePacked eventId' nonce' expiration' (block_chainid env')) ->
     binds_one_digest C signature digest
       (claimDigest C eventId' nonce' expiration' (block_chainid env')) ->
     reachable C w' ->
     Event.signer (events_get (basePass w') eventId') = registered ->
     reverts (execute C env' sender'
                (Call.claimStamp tokenId' eventId' nonce' expiration' signature)
                w')).
Proof.
  intros Hr (Hown & Hex & Hhas & Hn) Ht digest registered call.
  subst digest registered call.
  pose proof (reachable_Inv _ _ Hr) as Hinv.
  unfold passport_owner in Hown.
  assert (Hs0 : sender <> 0).
  { intros ->. unfold EventStamp.hasStampForEvent, ERC721Enumerable.balanceOf,
      ERC721.balanceOf in Hhas. discriminate. }
  apply N.eqb_neq in Hs0 as Hs0'. apply N.leb_le in Ht as Ht'.
  assert (Heq : execute C env sender
      (Call.claimStamp tokenId eventId nonce expiration signature) w =
    match ECDSA.recover C
            (claimDigest C eventId nonce expiration (block_chainid env)) signature
    with
    | Revert e => Revert e
    | Ok recoveredSigner =>
        if negb (recoveredSigner =? Event.signer (events_get (basePass w) eventId))
        then Revert InvalidSignature
        else
          match EventStamp.mintStamp C env (this w) sender eventId tokenId
                  (stampContract w) with
          | Ok _ => Ok (claimed env sender tokenId eventId nonce w)
          | Revert e => Revert e
          end
    end).
  { simpl. rewrite claimStamp_eq by done. unfold claimStamp_check.
    rewrite Hown, Hex, Hhas, Hn, Hs0', N.eqb_refl, Ht'. simpl.
    destruct (ECDSA.recover C _ signature) as [a|]; [|reflexivity].
    destruct (negb _); [reflexivity|].
    rewrite mintStamp_eq by apply Hinv. rewrite Hs0'.
    destruct (AccessControl.hasRole _ _ _); simpl; [|reflexivity].
    destruct (_ <=? MAX_UINT256); simpl; [|reflexivity].
    destruct (ERC721._checkOnERC721Received _ _ _ _ _ _) as [[]|]; reflexivity. }
  assert (Hmint : forall r,
    EventStamp.mintStamp C env (this w) sender eventId tokenId (stampContract w)
      = Ok r <-> commit_ready C env sender w /\
                 r = (EventStamp._tokenIdCounter (stampContract w),
                      minted_stamp env sender eventId tokenId (stampContract w))).
  { intros r. rewrite mintStamp_eq by apply Hinv. rewrite Hs0'.
    unfold commit_ready.
    destruct (AccessControl.hasRole _ _ _).
    2: { split; [discriminate|]. intros [[? _] _]. discriminate. }
    destruct (N.leb_spec (EventStamp._tokenIdCounter (stampContract w) + 1)
                MAX_UINT256).
    2: { split; [discriminate|]. intros [(_ & ? & _) _]. lia. }
    destruct (ERC721._checkOnERC721Received _ _ _ _ _ _) as [[]|].
    2: { split; [discriminate|]. intros [(_ & _ & ?) _]. discriminate. }
    split; [intros [= <-]; done|]. intros [_ ->]. done. }
  split; [|split; [|split; [|split; [|split]]]].
  - intros e He. rewrite Heq, He. split; [done|]. eapply recover_Revert. exact He.
  - intros a Ha Hne. rewrite Heq, Ha. apply N.eqb_neq in Hne. rewrite Hne. done.
  - intros [w1 Hw1]. rewrite Heq in Hw1.
    destruct (ECDSA.recover C _ signature) as [a|]; [|discriminate].
    destruct (N.eqb_spec a (Event.signer (events_get (basePass w) eventId)));
      [congruence|discriminate].
  - intros Hrec. rewrite Heq, Hrec, N.eqb_refl. simpl.
    destruct (EventStamp.mintStamp C env (this w) sender eventId tokenId
                (stampContract w)) as [r|e] eqn:Hm.
    + destruct (proj1 (Hmint r) eq_refl) as [Hcr _].
      split; [split; [done|intros _; eexists; reflexivity]|].
      split; [done|]. intros e' He'. discriminate.
    + assert (Hncr : ~ commit_ready C env sender w).
      { intros Hcr. pose proof (proj2 (Hmint _) (conj Hcr eq_refl)). discriminate. }
      split; [split; [intros [? ?]; discriminate|done]|].
      split; [done|]. intros e' [= <-]. done.
  - intros eventId' nonce' expiration' chainid' H1 H2 H3 H4 H5 H6 H7 H8 Hne Henc.
    apply encodePacked_inj in Henc as (-> & -> & -> & ->); done.
  - intros env' sender' tokenId' eventId' nonce' expiration' w' Hrec
      H1 H2 H3 H4 H5 H6 H7 H8 Hne Hnc Hbind Hr' Hsig.
    pose proof (reachable_Inv _ _ Hr') as Hinv'.
    simpl. rewrite claimStamp_eq by done.
    destruct (claimStamp_check C env' sender' tokenId' eventId' nonce' expiration'
                signature w') as [[]|e] eqn:Hck; [|eexists; reflexivity].
    exfalso. apply claimStamp_check_Ok in Hck
      as (_ & _ & _ & _ & _ & _ & Hrec' & _).
    rewrite Hsig in Hrec'.
    specialize (Hbind _ Hrec Hrec').
    apply claimDigest_inj in Hbind as (-> & -> & -> & Hc); try done.
    rewrite Hc in Hne. done.
Qed.

(** The same block on another chain (Base mainnet). *)
Definition ex_env_mainnet (t : N) : Env :=
  {| block_timestamp := t; block_chainid := 8453;
     code_length := fun _ => 0;
     onERC721Received := fun _ _ _ _ _ => HookRevertedEmpty |}.

(** In the set-up system B's signature lets A's claim commit; presented on
    another chain, the same call is rejected. *)
Lemma C4_signature_check_witness :
  execute ex_crypto (ex_env ex_now) ex_A ex_claim ex_ready
    = Ok (claimed (ex_env ex_now) ex_A 1 1 ex_nonce ex_ready) /\
  reverts (execute ex_crypto (ex_env_mainnet ex_now) ex_A ex_claim ex_ready).
Proof.
  destruct (C4_signature_check ex_crypto (ex_env ex_now) ex_A 1 1 ex_nonce
              (ex_now + 3600) ex_signature ex_ready ex_ready_reachable)
    as (_ & _ & _ & Hcommit & _ & Hbind).
  - split_and!; vm_compute; reflexivity.
  - vm_compute. discriminate.
  - split.
    + apply Hcommit; [vm_compute; reflexivity|].
      split_and!; vm_compute; try reflexivity. discriminate.
    + apply (Hbind (ex_env_mainnet ex_now) ex_A 1 1 ex_nonce (ex_now + 3600)
               ex_ready); try (vm_compute; discriminate);
        try (vm_compute; reflexivity).
      * split_and!; try (vm_compute; discriminate);
          vm_compute; intros H; discriminate H.
      * vm_compute. intros a H1 H2. congruence.
      * apply ex_ready_reachable.
Defined.

(** The system as deployed, before [MINTER_ROLE] is granted to the passport
    contract (the state between the second and the third step of the
    deployment script; also any state after the role's administrator
    revoked it). *)
Definition ex_unconfigured : World :=
  transact_all ex_crypto (drop 1 ex_setup) ex_deployed.

(** There the five preceding checks pass and the signature is the
    registered signer's, yet the claim does not commit: the mint is refused
    for want of the role, and nothing changes. *)
Lemma C4_valid_signature_does_not_commit :
  reachable ex_crypto ex_unconfigured /\
  before_expiration_check ex_A 1 1 ex_nonce ex_unconfigured /\
  block_timestamp (ex_env ex_now) <= ex_now + 3600 /\
  ECDSA.recover ex_crypto
    (claimDigest ex_crypto 1 ex_nonce (ex_now + 3600)
       (block_chainid (ex_env ex_now))) ex_signature
    = Ok (Event.signer (events_get (basePass ex_unconfigured) 1)) /\
  execute ex_crypto (ex_env ex_now) ex_A ex_claim ex_unconfigured
    = Revert (AccessControlUnauthorizedAccount ex_basePass
                (EventStamp.MINTER_ROLE ex_crypto)) /\
  transact ex_crypto (ex_env ex_now) ex_A ex_claim ex_unconfigured
    = ex_unconfigured.
Proof.
  split.
  { eapply steps_reachable; [|apply ex_deployed_reachable].
    apply transact_all_steps. repeat constructor; done. }
  split; [split_and!; vm_compute; reflexivity|].
  split; [vm_compute; discriminate|].
  split_and!; vm_compute; reflexivity.
Qed.

(** * Further properties of the code *)

(** ** Decimal strings: [EventStamp._toString] *)

Definition is_digit (c : ascii) : bool :=
  (48 <=? N_of_ascii c) && (N_of_ascii c <=? 57).

Definition digit_value (c : ascii) : N := N_of_ascii c - 48.

(** The number that a sequence of decimal digits denotes. *)
Definition from_decimal (cs : list ascii) : N :=
  fold_left (fun acc c => 10 * acc + digit_value c) cs 0.

(** The [d] low decimal digits of [v], most significant first. *)
Fixpoint decimal (d : nat) (v : N) : list ascii :=
  match d with
  | O => []
  | S d' => decimal d' (v / 10) ++ [ascii_of_N (48 + v mod 10)]
  end.

(** [lia] on goals with division and remainder by a constant. *)
Ltac lia_div := zify; Z.to_euclidean_division_equations; lia.

Lemma N_of_digit (v : N) : N_of_ascii (ascii_of_N (48 + v mod 10)) = 48 + v mod 10.
Proof.
  apply N_ascii_embedding. lia_div.
Qed.

Lemma decimal_length (d : nat) (v : N) : List.length (decimal d v) = d.
Proof.
  revert v. induction d as [|d IH]; intros v; simpl; [done|].
  rewrite length_app, IH. simpl. lia.
Qed.

Lemma decimal_digits (d : nat) (v : N) :
  Forall (fun c => is_digit c = true) (decimal d v).
Proof.
  revert v. induction d as [|d IH]; intros v; simpl; [constructor|].
  apply Forall_app. split; [apply IH|]. constructor; [|constructor].
  unfold is_digit. rewrite N_of_digit.
  apply andb_true_iff. split; apply N.leb_le; lia_div.
Qed.

Lemma from_decimal_snoc (cs : list ascii) (c : ascii) :
  from_decimal (cs ++ [c]) = 10 * from_decimal cs + digit_value c.
Proof. unfold from_decimal. rewrite fold_left_app. reflexivity. Qed.

Lemma from_decimal_decimal (d : nat) (v : N) :
  v < 10 ^ N.of_nat d -> from_decimal (decimal d v) = v.
Proof.
  revert v. induction d as [|d IH]; intros v Hv.
  - change (10 ^ N.of_nat 0) with 1 in Hv. cbn. lia.
  - cbn [decimal]. rewrite from_decimal_snoc, IH.
    + unfold digit_value. rewrite N_of_digit. lia_div.
    + apply N.Div0.div_lt_upper_bound.
      rewrite Nat2N.inj_succ, N.pow_succ_r' in Hv. exact Hv.
Qed.

Lemma decimal_leading (d : nat) (v : N) :
  10 ^ N.of_nat d <= v -> v < 10 ^ N.of_nat (S d) ->
  exists c rest, decimal (S d) v = c :: rest /\ c <> "0"%char.
Proof.
  revert v. induction d as [|d IH]; intros v Hlo Hhi.
  - change (10 ^ N.of_nat 0) with 1 in Hlo. change (10 ^ N.of_nat 1) with 10 in Hhi.
    simpl. eexists _, []. split; [reflexivity|].
    intros Heq. apply (f_equal N_of_ascii) in Heq. rewrite N_of_digit in Heq.
    change (N_of_ascii "0") with 48 in Heq. lia_div.
  - rewrite Nat2N.inj_succ, N.pow_succ_r' in Hlo.
    rewrite (Nat2N.inj_succ (S d)), N.pow_succ_r' in Hhi.
    destruct (IH (v / 10)) as (c & rest & Heq & Hc).
    + apply N.div_le_lower_bound; lia.
    + apply N.Div0.div_lt_upper_bound. exact Hhi.
    + change (decimal (S (S d)) v)
        with (decimal (S d) (v / 10) ++ [ascii_of_N (48 + v mod 10)]).
      rewrite Heq. simpl. eauto.
Qed.

Lemma size_div_10 (v : N) : v <> 0 -> N.size (v / 10) < N.size v.
Proof.
  intros Hv. rewrite (N.size_log2 v) by done.
  destruct (N.eq_dec (v / 10) 0) as [H0|H0].
  - rewrite H0. simpl. lia.
  - rewrite N.size_log2 by done. apply -> N.succ_lt_mono.
    assert (H2 : 2 * (v / 10) <= v) by lia_div.
    apply N.log2_le_mono in H2. rewrite N.log2_double in H2 by lia_div. lia.
Qed.

Lemma size_uint256 (v : N) : v <= MAX_UINT256 -> N.size v <= 256.
Proof.
  intros Hv. destruct (N.eq_dec v 0) as [->|Hne]; [simpl; lia|].
  rewrite N.size_log2 by done.
  assert (N.log2 v < 256); [|lia].
  apply N.log2_lt_pow2; [lia|]. unfold MAX_UINT256 in Hv. lia.
Qed.

(** [v] is written with exactly [d] decimal digits ([0] with none). *)
Definition has_digits (d : nat) (v : N) : Prop :=
  match d with
  | O => v = 0
  | S d' => 10 ^ N.of_nat d' <= v < 10 ^ N.of_nat (S d')
  end.

Lemma has_digits_div (d : nat) (v : N) :
  has_digits (S d) v -> v <> 0 /\ has_digits d (v / 10).
Proof.
  intros [Hlo Hhi]. rewrite Nat2N.inj_succ, N.pow_succ_r' in Hhi.
  assert (0 < 10 ^ N.of_nat d) by (apply N.neq_0_lt_0, N.pow_nonzero; lia).
  split; [lia|]. destruct d as [|d].
  - change (10 ^ N.of_nat 0) with 1 in *. simpl.
    apply N.div_small. lia.
  - rewrite Nat2N.inj_succ, N.pow_succ_r' in Hlo. simpl. split.
    + apply N.div_le_lower_bound; lia.
    + apply N.Div0.div_lt_upper_bound. exact Hhi.
Qed.

Lemma has_digits_mul (d : nat) (v : N) :
  v <> 0 -> has_digits d (v / 10) -> has_digits (S d) v.
Proof.
  intros Hv Hd.
  simpl. rewrite Nat2N.inj_succ, N.pow_succ_r'. destruct d as [|d].
  - simpl in Hd. change (10 ^ N.of_nat 0) with 1. lia_div.
  - destruct Hd as [Hlo Hhi].
    rewrite !Nat2N.inj_succ, !N.pow_succ_r' in *.
    revert Hlo Hhi. generalize (10 ^ N.of_nat d). intros p Hlo Hhi. lia_div.
Qed.

(** The first loop counts the decimal digits of [temp]. *)
Lemma toString_count_spec (fuel : nat) (temp digits : N) :
  (N.to_nat (N.size temp) < fuel)%nat ->
  digits + N.size temp <= MAX_UINT256 ->
  exists d : nat,
    EventStamp._toString_count fuel temp digits = Some (Ok (digits + N.of_nat d)) /\
    has_digits d temp.
Proof.
  revert temp digits. induction fuel as [|fuel IH]; intros temp digits Hf Hd; [lia|].
  simpl. destruct (N.eqb_spec temp 0) as [->|Hne].
  - exists O. rewrite N.add_0_r. done.
  - pose proof (size_div_10 temp Hne) as Hsz.
    unfold checked_add.
    destruct (N.leb_spec (digits + 1) MAX_UINT256) as [Hle|Hgt]; [|lia].
    destruct (IH (temp / 10) (digits + 1)) as (d & Heq & Hhas); [lia|lia|].
    exists (S d). rewrite Heq. split; [f_equal; f_equal; lia|].
    apply has_digits_mul; done.
Qed.

(** The second loop writes the digits of [value] from the right, into the
    [d] cells that follow the first [k]. *)
Lemma toString_fill_spec (d : nat) :
  forall (fuel : nat) (value : N) (k : nat) (buffer : list ascii),
    (d < fuel)%nat ->
    has_digits d value ->
    (k + d <= List.length buffer)%nat ->
    EventStamp._toString_fill fuel value (N.of_nat (k + d)) buffer =
      Some (Ok (take k buffer ++ decimal d value ++ drop (k + d) buffer)).
Proof.
  induction d as [|d IH]; intros fuel value k buffer Hf Hhas Hlen;
    (destruct fuel as [|fuel]; [lia|]); cbn [EventStamp._toString_fill].
  - simpl in Hhas. subst value. rewrite N.eqb_refl.
    rewrite Nat.add_0_r. simpl. rewrite take_drop. reflexivity.
  - apply has_digits_div in Hhas as [Hne Hhas].
    destruct (N.eqb_spec value 0) as [H0|_]; [done|].
    unfold checked_sub, checked_add.
    destruct (N.leb_spec 1 (N.of_nat (k + S d))) as [_|?]; [|lia]. simpl.
    assert (Hmod : value mod 10 < 10) by lia_div.
    destruct (N.leb_spec (48 + value mod 10) MAX_UINT256) as [_|Hgt];
      [|unfold MAX_UINT256 in Hgt; lia]. simpl.
    replace (N.of_nat (k + S d) - 1) with (N.of_nat (k + d)) by lia.
    destruct (N.leb_spec (N.of_nat (List.length buffer)) (N.of_nat (k + d)))
      as [?|_]; [lia|]. simpl.
    rewrite Nat2N.id. rewrite (N.mod_small (48 + value mod 10) 256) by lia.
    rewrite IH; [|lia|done|rewrite length_insert; lia].
    rewrite (insert_take_drop buffer (k + d)) by lia.
    rewrite take_app_le by (rewrite length_take; lia).
    rewrite take_take, Nat.min_l by lia.
    rewrite drop_app_length' by (rewrite length_take; lia).
    rewrite <- (app_assoc (decimal d (value / 10))).
    replace (k + S d)%nat with (S (k + d)) by lia. reflexivity.
Qed.

(** The decimal digits of [value], as [_toString] produces them. *)
Lemma toString_spec (value : N) :
  value <= MAX_UINT256 ->
  exists cs,
    EventStamp._toString value = Some (Ok (string_of_list_ascii cs)) /\
    Forall (fun c => is_digit c = true) cs /\
    from_decimal cs = value /\
    (value = 0 -> cs = ["0"%char]) /\
    (value <> 0 -> exists c rest, cs = c :: rest /\ c <> "0"%char) /\
    (List.length cs <= 78)%nat.
Proof.
  intros Hmax. unfold EventStamp._toString.
  destruct (N.eqb_spec value 0) as [->|Hne].
  { exists ["0"%char]. split; [reflexivity|]. split; [repeat constructor|].
    split; [reflexivity|]. split; [done|]. split; [done|]. simpl. lia. }
  pose proof (size_uint256 value Hmax) as Hsz.
  destruct (toString_count_spec (EventStamp._toString_fuel value) value 0)
    as (d & Hcount & Hd).
  { unfold EventStamp._toString_fuel. lia. }
  { unfold MAX_UINT256. lia. }
  rewrite Hcount, N.add_0_l, Nat2N.id.
  pose proof (toString_fill_spec d (EventStamp._toString_fuel value) value 0
                (replicate d (ascii_of_N 0))) as Hfill.
  cbn [Nat.add take app] in Hfill.
  rewrite Hfill; [|  |done|rewrite length_replicate; lia].
  2:{ unfold EventStamp._toString_fuel.
      destruct d as [|d']; [lia|]. destruct Hd as [Hlo _].
      assert (Hlt : N.of_nat d' < N.size value); [|lia].
      apply (N.pow_lt_mono_r_iff 2); [lia|].
      eapply N.le_lt_trans; [|apply N.size_gt].
      eapply N.le_trans; [|exact Hlo].
      apply N.pow_le_mono_l. lia. }
  rewrite drop_ge by (rewrite length_replicate; lia). rewrite app_nil_r.
  exists (decimal d value). split; [reflexivity|].
  split; [apply decimal_digits|].
  destruct d as [|d']; [simpl in Hd; done|]. destruct Hd as [Hlo Hhi].
  split; [apply from_decimal_decimal; exact Hhi|].
  split; [done|]. split; [intros _; apply decimal_leading; done|].
  rewrite decimal_length.
  assert (Hlt : N.of_nat d' < 78); [|lia].
  apply (N.pow_lt_mono_r_iff 10); [lia|].
  eapply N.le_lt_trans; [exact Hlo|].
  eapply N.le_lt_trans; [exact Hmax|]. unfold MAX_UINT256. vm_compute. reflexivity.
Qed.

(** X1.  For every [uint256] value, [_toString] returns (its loops end and
    no arithmetic or array check fails) the decimal writing of the value:
    a string of at most 78 decimal digits that denotes the value, which is
    ["0"] for zero and starts with a non-zero digit otherwise. *)
Theorem toString_decimal (value : N) :
  value <= MAX_UINT256 ->
  exists s,
    EventStamp._toString value = Some (Ok s) /\
    Forall (fun c => is_digit c = true) (list_ascii_of_string s) /\
    from_decimal (list_ascii_of_string s) = value /\
    (value = 0 -> s = "0"%string) /\
    (value <> 0 -> exists c rest, s = String c rest /\ c <> "0"%char) /\
    (String.length s <= 78)%nat.
Proof.
  intros Hmax.
  destruct (toString_spec value Hmax) as (cs & Heq & Hdig & Hval & Hz & Hnz & Hlen).
  exists (string_of_list_ascii cs). rewrite list_ascii_of_string_of_list_ascii.
  split; [exact Heq|]. split; [exact Hdig|]. split; [exact Hval|].
  split; [|split].
  - intros H0. rewrite (Hz H0). reflexivity.
  - intros Hne. destruct (Hnz Hne) as (c & rest & -> & Hc).
    exists c, (string_of_list_ascii rest). done.
  - rewrite <- (list_ascii_of_string_of_list_ascii cs) in Hlen.
    revert Hlen. generalize (string_of_list_ascii cs). intros s.
    assert (Hl : List.length (list_ascii_of_string s) = String.length s).
    { induction s as [|c s IH]; simpl; [done|]. rewrite IH. done. }
    rewrite Hl. done.
Qed.

Lemma toString_decimal_witness :
  exists s,
    EventStamp._toString 1700000000 = Some (Ok s) /\
    Forall (fun c => is_digit c = true) (list_ascii_of_string s) /\
    from_decimal (list_ascii_of_string s) = 1700000000 /\
    (1700000000 = 0 -> s = "0"%string) /\
    (1700000000 <> 0 -> exists c rest, s = String c rest /\ c <> "0"%char) /\
    (String.length s <= 78)%nat.
Proof. apply (toString_decimal 1700000000). vm_compute. discriminate. Defined.

(** ** The metadata URI of a stamp: [EventStamp.tokenURI] *)

Definition digits (s : string) : Prop :=
  Forall (fun c => is_digit c = true) (list_ascii_of_string s).

Lemma append_inv_head (p x y : string) : (p ++ x = p ++ y)%string -> x = y.
Proof. induction p as [|c p IH]; simpl; [done|]. intros [= H]. apply IH, H. Qed.

(** Two runs of digits that end at a character that is no digit. *)
Lemma digits_split (a a' r r' : string) (q q' : ascii) :
  digits a -> digits a' -> is_digit q = false -> is_digit q' = false ->
  (a ++ String q r = a' ++ String q' r')%string -> a = a' /\ r = r'.
Proof.
  unfold digits. revert a'. induction a as [|c a IH]; intros [|c' a'] Ha Ha' Hq Hq';
    simpl in *.
  - intros [= _ ->]. done.
  - intros [= -> _]. apply Forall_cons in Ha' as [Hc _]. congruence.
  - intros [= -> _]. apply Forall_cons in Ha as [Hc _]. congruence.
  - intros [= -> H]. apply Forall_cons in Ha as [_ Ha].
    apply Forall_cons in Ha' as [_ Ha'].
    destruct (IH a' Ha Ha' Hq Hq' H) as [-> ->]. done.
Qed.

(** The decimal writing of a number, read off [_toString]. *)
Definition to_decimal (v : N) : string :=
  match EventStamp._toString v with
  | Some (Ok s) => s
  | _ => ""%string
  end.

Lemma toString_to_decimal (v : N) :
  v <= MAX_UINT256 ->
  EventStamp._toString v = Some (Ok (to_decimal v)) /\
  digits (to_decimal v) /\
  from_decimal (list_ascii_of_string (to_decimal v)) = v.
Proof.
  intros Hv. destruct (toString_spec v Hv) as (cs & Heq & Hdig & Hval & _).
  unfold to_decimal, digits. rewrite Heq, list_ascii_of_string_of_list_ascii. done.
Qed.

Lemma to_decimal_inj (v v' : N) :
  v <= MAX_UINT256 -> v' <= MAX_UINT256 -> to_decimal v = to_decimal v' -> v = v'.
Proof.
  intros Hv Hv' Heq.
  destruct (toString_to_decimal v Hv) as (_ & _ & <-).
  destruct (toString_to_decimal v' Hv') as (_ & _ & <-). rewrite Heq. done.
Qed.

(** The numbers a URI is built from can be read back from it. *)
Lemma tokenURI_pack_inj (a b c d e a' b' c' d' e' : string) :
  digits a -> digits b -> digits c -> digits d -> digits e ->
  digits a' -> digits b' -> digits c' -> digits d' -> digits e' ->
  EventStamp.tokenURI_pack a b c d e = EventStamp.tokenURI_pack a' b' c' d' e' ->
  a = a' /\ b = b' /\ c = c' /\ d = d' /\ e = e'.
Proof.
  intros Ha Hb Hc Hd He Ha' Hb' Hc' Hd' He'. unfold EventStamp.tokenURI_pack.
  cbn [String.append EventStamp.dquote]. intros H.
  repeat (injection H as H).
  apply digits_split in H as [-> H]; [|done..].
  repeat (injection H as H).
  apply digits_split in H as [-> H]; [|done..].
  repeat (injection H as H).
  apply digits_split in H as [-> H]; [|done..].
  repeat (injection H as H).
  apply digits_split in H as [-> H]; [|done..].
  repeat (injection H as H).
  apply digits_split in H as [-> H]; [|done..].
  done.
Qed.

Lemma Some_Ok_inj {A : Type} (x y : A) :
  Some (Ok x) = Some (Ok y) -> x = y.
Proof. congruence. Qed.

Definition stamp_in_range (st : EventStamp.Storage) (tokenId : N) : Prop :=
  tokenId <= MAX_UINT256 /\
  StampMetadata.eventId (EventStamp.stampMetadata_get st tokenId) <= MAX_UINT256 /\
  StampMetadata.passportId (EventStamp.stampMetadata_get st tokenId) <= MAX_UINT256 /\
  StampMetadata.timestamp (EventStamp.stampMetadata_get st tokenId) <= MAX_UINT256.

Lemma tokenURI_eq (st : EventStamp.Storage) (tokenId : N) :
  stamp_in_range st tokenId ->
  EventStamp.tokenURI st tokenId =
    if ERC721._ownerOf (EventStamp.erc721 st) tokenId =? 0
    then Some (Revert (ERC721NonexistentToken tokenId))
    else
      let m := EventStamp.stampMetadata_get st tokenId in
      Some (Ok (EventStamp.tokenURI_pack (to_decimal tokenId)
                  (to_decimal (StampMetadata.eventId m))
                  (to_decimal (StampMetadata.eventId m))
                  (to_decimal (StampMetadata.passportId m))
                  (to_decimal (StampMetadata.timestamp m)))).
Proof.
  intros (Ht & He & Hp & Hs). unfold EventStamp.tokenURI, ERC721._requireOwned.
  destruct (ERC721._ownerOf (EventStamp.erc721 st) tokenId =? 0); [reflexivity|].
  cbn [revert_if mbind Result_bind mret Result_ret].
  rewrite (proj1 (toString_to_decimal _ Ht)), (proj1 (toString_to_decimal _ He)),
    (proj1 (toString_to_decimal _ Hp)), (proj1 (toString_to_decimal _ Hs)).
  reflexivity.
Qed.

(** X2.  [tokenURI] answers exactly for the stamps that exist: for another
    id it reverts with [ERC721NonexistentToken].  The URI of a stamp is
    the packing of the seven literals with the decimal writings of the
    stamp's id, event, passport and claim time, and these four numbers can
    be read back from it: two stamps with the same URI, in any two states,
    have the same id and the same recorded data. *)
Theorem tokenURI_faithful (st : EventStamp.Storage) (tokenId : N) :
  stamp_in_range st tokenId ->
  (ERC721._ownerOf (EventStamp.erc721 st) tokenId = 0 ->
   EventStamp.tokenURI st tokenId = Some (Revert (ERC721NonexistentToken tokenId))) /\
  (ERC721._ownerOf (EventStamp.erc721 st) tokenId <> 0 ->
   exists uri, EventStamp.tokenURI st tokenId = Some (Ok uri)) /\
  (forall st' tokenId' uri,
     stamp_in_range st' tokenId' ->
     EventStamp.tokenURI st tokenId = Some (Ok uri) ->
     EventStamp.tokenURI st' tokenId' = Some (Ok uri) ->
     tokenId' = tokenId /\
     EventStamp.stampMetadata_get st' tokenId' = EventStamp.stampMetadata_get st tokenId).
Proof.
  intros Hr. rewrite (tokenURI_eq st tokenId Hr). split; [|split].
  - intros ->. reflexivity.
  - intros Hne. apply N.eqb_neq in Hne. rewrite Hne. eexists. reflexivity.
  - intros st' tokenId' uri Hr' H1 H2. rewrite (tokenURI_eq st' tokenId' Hr') in H2.
    destruct (_ =? 0); [discriminate|]. destruct (_ =? 0); [discriminate|].
    rewrite <- H1 in H2. apply Some_Ok_inj in H2.
    destruct Hr as (Ht & He & Hp & Hs). destruct Hr' as (Ht' & He' & Hp' & Hs').
    apply tokenURI_pack_inj in H2 as (H2t & H2e & _ & H2p & H2s);
      try (apply toString_to_decimal; done).
    apply to_decimal_inj in H2t, H2e, H2p, H2s; try done.
    split; [done|].
    destruct (EventStamp.stampMetadata_get st' tokenId'),
      (EventStamp.stampMetadata_get st tokenId). simpl in *. congruence.
Qed.

Lemma tokenURI_faithful_witness :
  (ERC721._ownerOf (EventStamp.erc721 (stampContract ex_claimed)) 1 = 0 ->
   EventStamp.tokenURI (stampContract ex_claimed) 1
     = Some (Revert (ERC721NonexistentToken 1))) /\
  (ERC721._ownerOf (EventStamp.erc721 (stampContract ex_claimed)) 1 <> 0 ->
   exists uri, EventStamp.tokenURI (stampContract ex_claimed) 1 = Some (Ok uri)) /\
  (forall st' tokenId' uri,
     stamp_in_range st' tokenId' ->
     EventStamp.tokenURI (stampContract ex_claimed) 1 = Some (Ok uri) ->
     EventStamp.tokenURI st' tokenId' = Some (Ok uri) ->
     tokenId' = 1 /\
     EventStamp.stampMetadata_get st' tokenId'
       = EventStamp.stampMetadata_get (stampContract ex_claimed) 1).
Proof.
  apply (tokenURI_faithful (stampContract ex_claimed) 1).
  repeat split; vm_compute; discriminate.
Defined.

(** ** What the records hold in every reachable state *)

(** The stamp ids in the order of minting: [1, 2, ..., counter - 1]. *)
Definition minted_ids (counter : N) : list N :=
  (fun k : nat => N.of_nat (S k)) <$> seq 0 (N.to_nat (counter - 1)).

Lemma minted_ids_succ (counter : N) :
  1 <= counter -> minted_ids (counter + 1) = minted_ids counter ++ [counter].
Proof.
  intros Hc. unfold minted_ids.
  replace (N.to_nat (counter + 1 - 1)) with (S (N.to_nat (counter - 1))) by lia.
  rewrite seq_S, fmap_app. simpl. do 2 f_equal. lia.
Qed.

Lemma minted_ids_length (counter : N) :
  N.of_nat (List.length (minted_ids counter)) = counter - 1.
Proof. unfold minted_ids. rewrite length_fmap, length_seq. lia. Qed.

Lemma elem_of_minted_ids (counter tokenId : N) :
  tokenId ∈ minted_ids counter <-> 1 <= tokenId < counter.
Proof.
  unfold minted_ids. rewrite list_elem_of_fmap. split.
  - intros (k & -> & Hk). apply elem_of_seq in Hk. lia.
  - intros Ht. exists (N.to_nat (tokenId - 1)). split; [lia|].
    apply elem_of_seq. lia.
Qed.

(** The stamp contract: the index of the owner enumeration, the list of
    all tokens, the role administration and the log. *)
Record enum_inv (st : EventStamp.Storage) : Prop := {
  ei_index : forall a i,
    a <> 0 -> i < get (ERC721._balances (EventStamp.erc721 st)) a ->
    get (ERC721Enumerable._ownedTokensIndex (EventStamp.enumerable st))
      (get (ERC721Enumerable._ownedTokens (EventStamp.enumerable st)) (a, i)) = i;
  ei_all :
    ERC721Enumerable._allTokens (EventStamp.enumerable st)
      = minted_ids (EventStamp._tokenIdCounter st);
  ei_admin : AccessControl._roles_adminRole (EventStamp.access st) = ∅;
  ei_log : forall to tokenId eventId passportId,
    EventStamp.StampMinted to tokenId eventId passportId ∈ EventStamp.emitted st <->
    ERC721._ownerOf (EventStamp.erc721 st) tokenId = to /\ to <> 0 /\
    StampMetadata.eventId (EventStamp.stampMetadata_get st tokenId) = eventId /\
    StampMetadata.passportId (EventStamp.stampMetadata_get st tokenId) = passportId
}.

Lemma enum_inv_ext (st st' : EventStamp.Storage) :
  ERC721._owners (EventStamp.erc721 st') = ERC721._owners (EventStamp.erc721 st) ->
  ERC721._balances (EventStamp.erc721 st') = ERC721._balances (EventStamp.erc721 st) ->
  ERC721Enumerable._ownedTokens (EventStamp.enumerable st') =
    ERC721Enumerable._ownedTokens (EventStamp.enumerable st) ->
  ERC721Enumerable._ownedTokensIndex (EventStamp.enumerable st') =
    ERC721Enumerable._ownedTokensIndex (EventStamp.enumerable st) ->
  ERC721Enumerable._allTokens (EventStamp.enumerable st') =
    ERC721Enumerable._allTokens (EventStamp.enumerable st) ->
  EventStamp._tokenIdCounter st' = EventStamp._tokenIdCounter st ->
  AccessControl._roles_adminRole (EventStamp.access st') =
    AccessControl._roles_adminRole (EventStamp.access st) ->
  EventStamp.stampMetadata st' = EventStamp.stampMetadata st ->
  EventStamp.emitted st' = EventStamp.emitted st ->
  enum_inv st -> enum_inv st'.
Proof.
  intros Ho Hb Hot Hoi Hall Hc Hadm Hm Hl [Hidx Ha Had Hlog].
  split; unfold ERC721._ownerOf, EventStamp.stampMetadata_get in *;
    rewrite ?Ho, ?Hb, ?Hot, ?Hoi, ?Hall, ?Hc, ?Hadm, ?Hm, ?Hl; done.
Qed.

Lemma enum_inv_minted (env : Env) (to eventId passportId : N)
  (st : EventStamp.Storage) :
  stamp_inv st -> enum_inv st -> to <> 0 ->
  enum_inv (minted_stamp env to eventId passportId st).
Proof.
  intros Hs [Hidx Hall Hadm Hlog] Hto.
  pose proof (si_token _ Hs) as Htok.
  pose proof (token_inv_counter_free _ _ Htok) as Hfree.
  split; unfold EventStamp.erc721, EventStamp.stampMetadata_get in *; simpl.
  - intros a i Ha. rewrite !get_insert.
    set (b := get (ERC721._balances
      (ERC721Enumerable.erc721 (EventStamp.enumerable st))) to).
    destruct (decide ((to, b) = (a, i))) as [[= <- <-]|Hni].
    + intros _. rewrite decide_True by done. done.
    + intros Hi.
      assert (Hlt : i < get (ERC721._balances
        (ERC721Enumerable.erc721 (EventStamp.enumerable st))) a).
      { destruct (decide (to = a)) as [<-|]; [|done].
        assert (i <> b) by congruence. fold b. lia. }
      pose proof (si_enum_sound _ Hs a i Ha Hlt) as Hown.
      rewrite decide_False; [apply Hidx; done|].
      intros Heq. unfold EventStamp.erc721 in Hown. rewrite <- Heq in Hown.
      rewrite Hfree in Hown. done.
  - rewrite Hall. symmetry. apply minted_ids_succ. apply (ti_counter _ _ Htok).
  - exact Hadm.
  - intros to' tokenId e p. rewrite elem_of_app, list_elem_of_singleton, Hlog.
    unfold ERC721._ownerOf. simpl. rewrite get_insert, lookup_insert.
    destruct (decide (EventStamp._tokenIdCounter st = tokenId)) as [<-|Hne].
    + simpl. split.
      * intros [(Ho & Hz & _)|[= <- <- <-]]; [|done].
        unfold ERC721._ownerOf in Hfree. congruence.
      * intros (<- & _ & <- & <-). right. done.
    + split; [intros [H|[= _ Heq _ _]]; [exact H|done]|]. intros H. left. exact H.
Qed.

(** The passport contract: the event registry and the log. *)
Record registry_inv (s : BasePass.Storage) : Prop := {
  ri_events_dense : forall eventId,
    1 <= eventId < _eventIdCounter s ->
    Event.exists_ (events_get s eventId) = true;
  ri_events_valid : forall eventId,
    Event.exists_ (events_get s eventId) = true ->
    1 <= N.of_nat (String.length (Event.name (events_get s eventId))) <= 100 /\
    N.of_nat (String.length (Event.description (events_get s eventId))) <= 500;
  ri_log_passport : forall a tokenId,
    PassportMinted a tokenId ∈ emitted s <->
    ERC721._ownerOf (erc721 s) tokenId = a /\ a <> 0;
  ri_log_event : forall eventId name signer,
    EventCreated eventId name signer ∈ emitted s <->
    Event.exists_ (events_get s eventId) = true /\
    Event.name (events_get s eventId) = name /\
    Event.signer (events_get s eventId) = signer
}.

(** Every [StampClaimed] of the log is backed by a stamp. *)
Definition claim_log_inv (w : World) : Prop :=
  forall tokenId eventId claimer,
    StampClaimed tokenId eventId claimer ∈ emitted (basePass w) ->
    passport_owner w tokenId = claimer /\ claimer <> 0 /\
    exists stampId,
      stamp_owner w stampId = claimer /\
      StampMetadata.eventId (stamp_data w stampId) = eventId /\
      StampMetadata.passportId (stamp_data w stampId) = tokenId.

Definition Records (w : World) : Prop :=
  registry_inv (basePass w) /\ enum_inv (stampContract w) /\ claim_log_inv w.

Definition is_StampClaimed (l : BasePass.Log) : Prop :=
  match l with
  | StampClaimed _ _ _ => True
  | _ => False
  end.

Lemma registry_inv_ext (s s' : BasePass.Storage) :
  ERC721._owners (erc721 s') = ERC721._owners (erc721 s) ->
  _eventIdCounter s' = _eventIdCounter s ->
  events s' = events s ->
  (forall l, l ∈ emitted s -> l ∈ emitted s') ->
  (forall l, l ∈ emitted s' -> l ∈ emitted s \/ is_StampClaimed l) ->
  registry_inv s -> registry_inv s'.
Proof.
  intros Ho Hc He Hl1 Hl2 [Hd Hv Hlp Hle].
  split; unfold ERC721._ownerOf, events_get in *; rewrite ?Ho, ?Hc, ?He; try done.
  - intros a tokenId. rewrite <- Hlp. split; [|apply Hl1].
    intros H. apply Hl2 in H as [H|[]]. done.
  - intros eventId name signer. rewrite <- Hle. split; [|apply Hl1].
    intros H. apply Hl2 in H as [H|[]]. done.
Qed.

Lemma registry_inv_minted (s : BasePass.Storage) (sender : N) :
  passport_inv s -> sender <> 0 -> registry_inv s ->
  registry_inv (minted_passport s sender).
Proof.
  intros Hp Hs [Hd Hv Hlp Hle].
  pose proof (token_inv_counter_free _ _ (pi_token _ Hp)) as Hfree.
  split; unfold events_get in *; simpl; try done.
  - intros a tokenId. rewrite elem_of_app, list_elem_of_singleton, Hlp.
    unfold ERC721._ownerOf in *. simpl. rewrite get_insert.
    destruct (decide (_tokenIdCounter s = tokenId)) as [<-|Hne].
    + split.
      * intros [[Ho Ha]|[= <-]]; [congruence|done].
      * intros [<- _]. right. done.
    + split; [intros [H|[= _ Heq]]; [exact H|done]|]. intros H. left. exact H.
  - intros eventId name signer. rewrite elem_of_app, list_elem_of_singleton, Hle.
    split; [intros [H|[=]]; exact H|]. intros H. left. exact H.
Qed.

Lemma events_get_created (env : Env) (sender : N)
  (name description iconUrl : string) (signer : N) (s : BasePass.Storage) (e : N) :
  events_get (created_event env sender name description iconUrl signer s) e =
    if decide (_eventIdCounter s = e)
    then {| Event.id := _eventIdCounter s; Event.name := name;
            Event.description := description; Event.iconUrl := iconUrl;
            Event.signer := signer; Event.exists_ := true |}
    else events_get s e.
Proof. unfold events_get at 1. simpl. apply events_get_insert. Qed.

Lemma registry_inv_created (env : Env) (sender : N)
  (name description iconUrl : string) (signer : N) (s : BasePass.Storage) :
  passport_inv s ->
  1 <= N.of_nat (String.length name) <= 100 ->
  N.of_nat (String.length description) <= 500 ->
  registry_inv s ->
  registry_inv (created_event env sender name description iconUrl signer s).
Proof.
  intros Hp Hname Hdesc [Hd Hv Hlp Hle].
  assert (Hfree : Event.exists_ (events_get s (_eventIdCounter s)) = false).
  { destruct (Event.exists_ (events_get s (_eventIdCounter s))) eqn:He; [|done].
    apply (pi_events _ Hp) in He. lia. }
  split.
  - intros eventId Hid. rewrite events_get_created. simpl in Hid.
    destruct (decide (_eventIdCounter s = eventId)); [done|]. apply Hd. lia.
  - intros eventId. rewrite events_get_created.
    destruct (decide (_eventIdCounter s = eventId)); [done|]. apply Hv.
  - intros a tokenId. simpl. rewrite elem_of_app, list_elem_of_singleton, Hlp.
    split; [intros [H|[=]]; exact H|]. intros H. left. exact H.
  - intros eventId name' signer'. rewrite events_get_created. simpl.
    rewrite elem_of_app, list_elem_of_singleton, Hle.
    destruct (decide (_eventIdCounter s = eventId)) as [<-|Hne]; simpl.
    + split.
      * intros [(He & _)|[= <- <-]]; [congruence|done].
      * intros (_ & <- & <-). right. done.
    + split; [intros [H|[= Heq _ _]]; [exact H|done]|]. intros H. left. exact H.
Qed.

Lemma claim_log_post (C : Crypto) (env : Env) (sender : N) (c : Call.t) (w : World) :
  Inv w -> sender <> 0 -> guard C env sender c w ->
  claim_log_inv w -> claim_log_inv (post env sender c w).
Proof.
  intros Hinv Hs Hg Hlog tokenId eventId claimer Hin.
  pose proof (post_persists C env sender c w Hinv Hg) as Hper.
  assert (Hold : StampClaimed tokenId eventId claimer ∈ emitted (basePass w) ->
    passport_owner (post env sender c w) tokenId = claimer /\ claimer <> 0 /\
    exists stampId,
      stamp_owner (post env sender c w) stampId = claimer /\
      StampMetadata.eventId (stamp_data (post env sender c w) stampId) = eventId /\
      StampMetadata.passportId (stamp_data (post env sender c w) stampId) = tokenId).
  { intros H. destruct (Hlog _ _ _ H) as (Ho & Hc & stampId & Hso & He & Hp).
    split; [|split; [done|]].
    - rewrite (ps_passport_owner _ _ Hper) by congruence. done.
    - exists stampId.
      rewrite (ps_stamp_owner _ _ Hper), (ps_stamp_data _ _ Hper) by congruence.
      done. }
  destruct c; simpl in Hin; try (apply Hold; exact Hin).
  - apply elem_of_app in Hin as [Hin|Hin]; [apply Hold; exact Hin|].
    apply list_elem_of_singleton in Hin. discriminate.
  - apply elem_of_app in Hin as [Hin|Hin]; [apply Hold; exact Hin|].
    apply list_elem_of_singleton in Hin. discriminate.
  - apply elem_of_app in Hin as [Hin|Hin]; [apply Hold; exact Hin|].
    apply list_elem_of_singleton in Hin. injection Hin as -> -> ->.
    simpl in Hg.
    apply claimStamp_check_Ok in Hg as (Hown & Hsn & _).
    split; [exact Hown|]. split; [exact Hsn|].
    exists (EventStamp._tokenIdCounter (stampContract w)).
    unfold stamp_owner, stamp_data, EventStamp.stampMetadata_get, EventStamp.erc721,
      ERC721._ownerOf. simpl. rewrite get_insert, lookup_insert.
    rewrite !decide_True by done. done.
Qed.

Lemma Records_post (C : Crypto) (env : Env) (sender : N) (c : Call.t) (w : World) :
  Inv w -> sender <> 0 -> guard C env sender c w ->
  Records w -> Records (post env sender c w).
Proof.
  intros Hinv Hs Hg (Hreg & Hen & Hcl).
  split; [|split; [|eapply claim_log_post; done]].
  - destruct Hinv as [Hp Hst].
    destruct c; simpl in *; try done;
      try (eapply registry_inv_ext; [..|exact Hreg]; simpl; auto; fail).
    + apply registry_inv_minted; done.
    + apply createEvent_check_Ok in Hg as (_ & _ & _ & ? & ? & _).
      apply registry_inv_created; done.
    + eapply registry_inv_ext; [..|exact Hreg]; simpl; try done.
      * intros l H. apply elem_of_app. left. exact H.
      * intros l H. apply elem_of_app in H as [H|H]; [left; exact H|].
        apply list_elem_of_singleton in H. subst l. right. exact I.
  - destruct Hinv as [Hp Hst].
    destruct c; simpl in *; try done;
      try (eapply enum_inv_ext; [..|exact Hen]; simpl; try done; fail).
    + apply claimStamp_check_Ok in Hg as (_ & ? & _).
      apply enum_inv_minted; done.
    + destruct Hg as (_ & ? & _). apply enum_inv_minted; done.
    + eapply enum_inv_ext; [..|exact Hen]; simpl; try done.
      unfold AccessControl._grantRole. destruct (negb _); done.
    + eapply enum_inv_ext; [..|exact Hen]; simpl; try done.
      unfold AccessControl._revokeRole. destruct (AccessControl.hasRole _ _ _); done.
    + eapply enum_inv_ext; [..|exact Hen]; simpl; try done.
      unfold AccessControl._revokeRole. destruct (AccessControl.hasRole _ _ _); done.
Qed.

Lemma Records_deploy (C : Crypto) (deployer self stampAddress : N) (w : World) :
  deploy C deployer self stampAddress = Ok w -> Records w.
Proof.
  unfold deploy, BasePass.constructor. intros H.
  destruct (revert_if _ _) as [[]|]; [|discriminate]. simpl in H.
  destruct (require _ _) as [[]|]; [|discriminate]. simpl in H.
  injection H as <-. split; [|split].
  - split; unfold events_get, ERC721._ownerOf; simpl.
    + intros eventId. lia.
    + intros eventId. rewrite lookup_empty. done.
    + intros holder tokenId. rewrite get_empty. split; [intros H; inversion H|].
      intros [<- H]. done.
    + intros eventId name signer. rewrite lookup_empty. simpl.
      split; [intros H; inversion H|]. intros [H _]. done.
  - split; unfold EventStamp.erc721, EventStamp.stampMetadata_get, ERC721._ownerOf;
      simpl.
    + intros holder i _. rewrite get_empty. lia.
    + reflexivity.
    + unfold AccessControl._grantRole.
      destruct (negb (AccessControl.hasRole (if negb _ then _ else _) _ _));
        destruct (negb (AccessControl.hasRole AccessControl.empty _ _)); done.
    + intros to tokenId eventId passportId. rewrite get_empty.
      split; [intros H; inversion H|]. intros (<- & H & _). done.
  - intros tokenId eventId claimer H. simpl in H. inversion H.
Qed.

Lemma reachable_Records (C : Crypto) (w : World) : reachable C w -> Records w.
Proof.
  induction 1 as [deployer self stampAddress w Hd|w env sender c w' Hr IH Hs He].
  - eapply Records_deploy. exact Hd.
  - pose proof (reachable_Inv _ _ Hr) as Hinv.
    destruct (execute_Ok _ _ _ _ _ _ Hinv Hs He) as [Hg ->].
    eapply Records_post; done.
Qed.

(** ** The stamps of an owner: [getPassportStamps] and [getStampsByEvent] *)

(** The owner enumeration kept by [ERC721Enumerable], as a list. *)
Definition owned_tokens (st : EventStamp.Storage) (owner : N) : list N :=
  (fun i : nat =>
     get (ERC721Enumerable._ownedTokens (EventStamp.enumerable st))
       (owner, N.of_nat i))
    <$> seq 0 (N.to_nat (get (ERC721._balances (EventStamp.erc721 st)) owner)).

Lemma owned_tokens_length (st : EventStamp.Storage) (owner : N) :
  N.of_nat (List.length (owned_tokens st owner))
    = get (ERC721._balances (EventStamp.erc721 st)) owner.
Proof. unfold owned_tokens. rewrite length_fmap, length_seq. lia. Qed.

Lemma elem_of_owned_tokens (st : EventStamp.Storage) (owner tokenId : N) :
  stamp_inv st -> owner <> 0 ->
  tokenId ∈ owned_tokens st owner <->
  ERC721._ownerOf (EventStamp.erc721 st) tokenId = owner.
Proof.
  intros Hs Ho. unfold owned_tokens. rewrite list_elem_of_fmap. split.
  - intros (i & -> & Hi). apply elem_of_seq in Hi.
    apply (si_enum_sound _ Hs); [done|lia].
  - intros Hown.
    assert (Hne : ERC721._ownerOf (EventStamp.erc721 st) tokenId <> 0) by congruence.
    destruct (si_enum_complete _ Hs tokenId Hne) as (i & Hi & Hget).
    rewrite Hown in Hi, Hget. exists (N.to_nat i). rewrite N2Nat.id.
    split; [done|]. apply elem_of_seq. lia.
Qed.

Lemma owned_tokens_NoDup (st : EventStamp.Storage) (owner : N) :
  enum_inv st -> owner <> 0 -> NoDup (owned_tokens st owner).
Proof.
  intros He Ho. unfold owned_tokens. apply NoDup_fmap_2_strong; [|apply NoDup_seq].
  intros i j Hi Hj Heq. apply elem_of_seq in Hi, Hj.
  pose proof (ei_index _ He owner (N.of_nat i) Ho ltac:(lia)) as H1.
  pose proof (ei_index _ He owner (N.of_nat j) Ho ltac:(lia)) as H2.
  rewrite Heq in H1. rewrite H1 in H2. lia.
Qed.

Lemma tokenOfOwnerByIndex_eq (st : EventStamp.Storage) (owner : N) (i : nat) :
  owner <> 0 ->
  (i < N.to_nat (get (ERC721._balances (EventStamp.erc721 st)) owner))%nat ->
  ERC721Enumerable.tokenOfOwnerByIndex (EventStamp.enumerable st) owner (N.of_nat i)
    = Ok (get (ERC721Enumerable._ownedTokens (EventStamp.enumerable st))
            (owner, N.of_nat i)).
Proof.
  intros Ho Hi. unfold ERC721Enumerable.tokenOfOwnerByIndex,
    ERC721Enumerable.balanceOf, ERC721.balanceOf.
  apply N.eqb_neq in Ho. rewrite Ho. simpl.
  unfold EventStamp.erc721 in Hi.
  destruct (N.leb_spec (get (ERC721._balances
    (ERC721Enumerable.erc721 (EventStamp.enumerable st))) owner) (N.of_nat i));
    [lia|]. reflexivity.
Qed.

Lemma getPassportStamps_from_spec (st : EventStamp.Storage) (owner : N) :
  owner <> 0 ->
  forall (n i : nat) (stampIds : list N),
    (i + n)%nat = N.to_nat (get (ERC721._balances (EventStamp.erc721 st)) owner) ->
    List.length stampIds = (i + n)%nat ->
    BasePass.getPassportStamps_from st owner (N.of_nat i) n stampIds =
      Ok (take i stampIds ++
          ((fun i : nat =>
              get (ERC721Enumerable._ownedTokens (EventStamp.enumerable st))
                (owner, N.of_nat i)) <$> seq i n)).
Proof.
  intros Ho n. induction n as [|n IH]; intros i stampIds Hi Hlen.
  - simpl. rewrite Nat.add_0_r in Hlen. rewrite take_ge by lia.
    rewrite app_nil_r. reflexivity.
  - cbn [BasePass.getPassportStamps_from].
    rewrite tokenOfOwnerByIndex_eq by (try done; lia).
    cbn [mbind Result_bind].
    destruct (N.leb_spec (N.of_nat (List.length stampIds)) (N.of_nat i)); [lia|].
    cbn [revert_if mbind Result_bind].
    replace (N.of_nat i + 1) with (N.of_nat (S i)) by lia.
    rewrite Nat2N.id, IH by (rewrite ?length_insert; lia).
    set (tokenId := get (ERC721Enumerable._ownedTokens (EventStamp.enumerable st))
                      (owner, N.of_nat i)).
    assert (Hl : <[i := tokenId]> stampIds !! i = Some tokenId)
      by (apply list_lookup_insert_eq; lia).
    rewrite (take_S_r _ _ _ Hl).
    rewrite take_insert_ge by lia. rewrite <- app_assoc. reflexivity.
Qed.

Lemma getPassportStamps_eq (w : World) (owner : N) :
  owner <> 0 ->
  BasePass.getPassportStamps w owner = Ok (owned_tokens (stampContract w) owner).
Proof.
  intros Ho. unfold BasePass.getPassportStamps, ERC721Enumerable.balanceOf,
    ERC721.balanceOf.
  apply N.eqb_neq in Ho as Ho'. rewrite Ho'. cbn [revert_if mbind Result_bind mret Result_ret].
  pose proof (getPassportStamps_from_spec (stampContract w) owner Ho
    (N.to_nat (get (ERC721._balances (EventStamp.erc721 (stampContract w))) owner))
    O) as H.
  unfold EventStamp.erc721 in H. cbn [N.of_nat] in H. 
  change (N.of_nat 0) with 0 in H. rewrite H; [reflexivity|done|].
  rewrite length_replicate. done.
Qed.

(** The first loop of [getStampsByEvent] collects the tokens of the event at
    the front of the array. *)
Lemma getStampsByEvent_scan_spec (st : EventStamp.Storage) (owner eventId : N) :
  owner <> 0 ->
  get (ERC721._balances (EventStamp.erc721 st)) owner < MAX_UINT256 ->
  forall (n i : nat) (found : list N),
    (i + n)%nat = N.to_nat (get (ERC721._balances (EventStamp.erc721 st)) owner) ->
    (List.length found <= i)%nat ->
    let rest :=
      filter (fun tokenId =>
                StampMetadata.eventId (EventStamp.stampMetadata_get st tokenId)
                  = eventId)
        ((fun i : nat =>
            get (ERC721Enumerable._ownedTokens (EventStamp.enumerable st))
              (owner, N.of_nat i)) <$> seq i n) in
    EventStamp.getStampsByEvent_scan st owner eventId (N.of_nat i) n
      (found ++ replicate (i + n - List.length found) 0)
      (N.of_nat (List.length found)) =
    Ok ((found ++ rest)
          ++ replicate (i + n - List.length (found ++ rest)) 0,
        N.of_nat (List.length (found ++ rest))).
Proof.
  intros Ho Hmax n. induction n as [|n IH]; intros i found Hi Hlen rest; subst rest.
  - simpl. rewrite filter_nil, app_nil_r. reflexivity.
  - cbn [EventStamp.getStampsByEvent_scan].
    rewrite tokenOfOwnerByIndex_eq by (try done; lia).
    cbn [mbind Result_bind seq fmap list_fmap].
    set (tokenId := get (ERC721Enumerable._ownedTokens (EventStamp.enumerable st))
                      (owner, N.of_nat i)).
    replace (N.of_nat i + 1) with (N.of_nat (S i)) by lia.
    rewrite filter_cons.
    destruct (N.eqb_spec (StampMetadata.eventId
      (EventStamp.stampMetadata_get st tokenId)) eventId) as [Heq|Hne].
    + rewrite decide_True by done.
      rewrite length_app, length_replicate.
      destruct (N.leb_spec (N.of_nat (List.length found + (i + S n - List.length found)))
                  (N.of_nat (List.length found))); [lia|].
      unfold checked_add.
      destruct (N.leb_spec (N.of_nat (List.length found) + 1) MAX_UINT256); [|lia].
      cbn [revert_if mbind Result_bind mret Result_ret].
      rewrite Nat2N.id.
      replace (i + S n - List.length found)%nat
        with (S (i + n - List.length found)) by lia.
      rewrite replicate_S, insert_app_r_alt by lia.
      rewrite Nat.sub_diag. cbn [insert list_insert].
      replace (N.of_nat (List.length found) + 1)
        with (N.of_nat (List.length (found ++ [tokenId])))
        by (rewrite length_app; simpl; lia).
      replace (found ++ tokenId :: replicate (i + n - List.length found) 0)
        with ((found ++ [tokenId])
                ++ replicate (S i + n - List.length (found ++ [tokenId])) 0).
      2:{ rewrite <- app_assoc. simpl. do 3 f_equal. rewrite length_app. simpl. lia. }
      rewrite IH by (rewrite ?length_app; simpl; lia).
      rewrite <- !app_assoc. simpl.
      replace (i + S n)%nat with (S (i + n)) by lia. reflexivity.
    + rewrite decide_False by done.
      cbn [mbind Result_bind mret Result_ret].
      replace (i + S n)%nat with (S i + n)%nat by lia.
      rewrite IH by lia. reflexivity.
Qed.

Lemma getStampsByEvent_copy_spec (tempStamps : list N) :
  forall (n i : nat) (stampIds : list N),
    (i + n <= List.length tempStamps)%nat ->
    List.length stampIds = (i + n)%nat ->
    EventStamp.getStampsByEvent_copy tempStamps stampIds (N.of_nat i) n =
      Ok (take i stampIds ++ take n (drop i tempStamps)).
Proof.
  intros n. induction n as [|n IH]; intros i stampIds Hi Hlen.
  - simpl. rewrite Nat.add_0_r in Hlen. rewrite take_ge by lia.
    rewrite app_nil_r. reflexivity.
  - cbn [EventStamp.getStampsByEvent_copy]. rewrite Nat2N.id.
    destruct (tempStamps !! i) as [tokenId|] eqn:Hlook.
    2:{ apply lookup_ge_None in Hlook. lia. }
    destruct (N.leb_spec (N.of_nat (List.length stampIds)) (N.of_nat i)); [lia|].
    cbn [revert_if mbind Result_bind].
    replace (N.of_nat i + 1) with (N.of_nat (S i)) by lia.
    rewrite IH by (rewrite ?length_insert; lia).
    assert (Hl : <[i := tokenId]> stampIds !! i = Some tokenId)
      by (apply list_lookup_insert_eq; lia).
    rewrite (take_S_r _ _ _ Hl).
    rewrite take_insert_ge by lia. rewrite <- app_assoc.
    rewrite (drop_S _ _ _ Hlook). reflexivity.
Qed.

Lemma getStampsByEvent_eq (st : EventStamp.Storage) (owner eventId : N) :
  stamp_inv st -> owner <> 0 ->
  EventStamp.getStampsByEvent st owner eventId =
    Ok (filter (fun tokenId =>
                  StampMetadata.eventId (EventStamp.stampMetadata_get st tokenId)
                    = eventId)
          (owned_tokens st owner)).
Proof.
  intros Hs Ho. unfold EventStamp.getStampsByEvent, ERC721Enumerable.balanceOf,
    ERC721.balanceOf.
  apply N.eqb_neq in Ho as Ho'. rewrite Ho'.
  cbn [revert_if mbind Result_bind mret Result_ret].
  assert (Hmax : get (ERC721._balances (EventStamp.erc721 st)) owner < MAX_UINT256).
  { pose proof (si_balance _ Hs owner). pose proof (ti_counter _ _ (si_token _ Hs)).
    lia. }
  pose proof (getStampsByEvent_scan_spec st owner eventId Ho Hmax
    (N.to_nat (get (ERC721._balances (EventStamp.erc721 st)) owner)) O []
    eq_refl ltac:(simpl; lia)) as H.
  cbv zeta in H. cbn [app List.length Nat.add] in H.
  rewrite Nat.sub_0_r in H. change (N.of_nat 0) with 0 in H.
  unfold EventStamp.erc721 in H. rewrite H. clear H.
  cbn [mbind Result_bind]. fold (EventStamp.erc721 st). fold (owned_tokens st owner).
  set (l := filter _ (owned_tokens st owner)).
  rewrite Nat2N.id.
  pose proof (getStampsByEvent_copy_spec
    (l ++ replicate (N.to_nat (get (ERC721._balances (EventStamp.erc721 st)) owner)
                     - List.length l) 0)
    (List.length l) O (replicate (List.length l) 0)) as H.
  change (N.of_nat 0) with 0 in H. rewrite H.
  - rewrite take_0, drop_0, app_nil_l, take_app_length. reflexivity.
  - rewrite length_app. simpl. lia.
  - rewrite length_replicate. reflexivity.
Qed.

(** X3.  In every reachable state [getPassportStamps(owner)] returns, for a
    non-zero [owner], the list of the stamps that [owner] owns: every such
    stamp once and nothing else, as many as the stamp contract's
    [balanceOf(owner)]; for the zero address it reverts with
    [ERC721InvalidOwner]. *)
Theorem getPassportStamps_lists_the_stamps (C : Crypto) (w : World) (owner : N) :
  reachable C w ->
  (owner = 0 ->
   BasePass.getPassportStamps w owner = Revert (ERC721InvalidOwner 0)) /\
  (owner <> 0 ->
   exists stampIds,
     BasePass.getPassportStamps w owner = Ok stampIds /\
     ERC721Enumerable.balanceOf (EventStamp.enumerable (stampContract w)) owner
       = Ok (N.of_nat (List.length stampIds)) /\
     NoDup stampIds /\
     forall stampId, stampId ∈ stampIds <-> stamp_owner w stampId = owner).
Proof.
  intros Hr. pose proof (reachable_Inv _ _ Hr) as [_ Hs].
  pose proof (reachable_Records _ _ Hr) as (_ & He & _).
  split.
  - intros ->. reflexivity.
  - intros Ho. exists (owned_tokens (stampContract w) owner).
    split; [apply getPassportStamps_eq; done|].
    split; [|split].
    + unfold ERC721Enumerable.balanceOf, ERC721.balanceOf.
      apply N.eqb_neq in Ho. rewrite Ho. simpl.
      rewrite owned_tokens_length. reflexivity.
    + apply owned_tokens_NoDup; done.
    + intros stampId. apply elem_of_owned_tokens; done.
Qed.

Lemma getPassportStamps_lists_the_stamps_witness :
  exists stampIds,
    BasePass.getPassportStamps ex_claimed ex_A = Ok stampIds /\
    ERC721Enumerable.balanceOf (EventStamp.enumerable (stampContract ex_claimed)) ex_A
      = Ok (N.of_nat (List.length stampIds)) /\
    NoDup stampIds /\
    forall stampId, stampId ∈ stampIds <-> stamp_owner ex_claimed stampId = ex_A.
Proof.
  apply (getPassportStamps_lists_the_stamps ex_crypto ex_claimed ex_A
           ex_claimed_reachable).
  vm_compute. discriminate.
Defined.

Lemma getStampsByEvent_members (C : Crypto) (w : World) (owner eventId : N) :
  reachable C w -> owner <> 0 ->
  exists stampIds,
    EventStamp.getStampsByEvent (stampContract w) owner eventId = Ok stampIds /\
    NoDup stampIds /\
    (forall id, id ∈ stampIds <->
       stamp_owner w id = owner /\
       StampMetadata.eventId (stamp_data w id) = eventId).
Proof.
  intros Hr Ho. pose proof (reachable_Inv _ _ Hr) as [_ Hs].
  pose proof (reachable_Records _ _ Hr) as (_ & He & _).
  exists (filter (fun id => StampMetadata.eventId (stamp_data w id) = eventId)
            (owned_tokens (stampContract w) owner)).
  split; [apply getStampsByEvent_eq; done|].
  split; [apply NoDup_filter, owned_tokens_NoDup; done|].
  intros id. rewrite list_elem_of_filter, elem_of_owned_tokens by done.
  unfold stamp_owner. tauto.
Qed.

(** X4.  In every reachable state [getStampsByEvent(owner, eventId)]
    returns, for a non-zero [owner], the stamps of [owner] that were minted
    for [eventId]: it is [getPassportStamps(owner)] filtered by the recorded
    event, in the same order and without repetition; and it is non-empty
    exactly when [hasStampForEvent(owner, eventId)] answers true. *)
Theorem getStampsByEvent_filters (C : Crypto) (w : World) (owner eventId : N) :
  reachable C w -> owner <> 0 ->
  exists all stampIds,
    BasePass.getPassportStamps w owner = Ok all /\
    EventStamp.getStampsByEvent (stampContract w) owner eventId = Ok stampIds /\
    stampIds =
      filter (fun id => StampMetadata.eventId (stamp_data w id) = eventId) all /\
    NoDup stampIds /\
    (forall id, id ∈ stampIds <->
       stamp_owner w id = owner /\
       StampMetadata.eventId (stamp_data w id) = eventId) /\
    exists b,
      EventStamp.hasStampForEvent (stampContract w) owner eventId = Ok b /\
      (b = true <-> stampIds <> []).
Proof.
  intros Hr Ho. pose proof (reachable_Inv _ _ Hr) as [_ Hs].
  pose proof (reachable_Records _ _ Hr) as (_ & He & _).
  set (stampIds := filter (fun id => StampMetadata.eventId (stamp_data w id) = eventId)
                     (owned_tokens (stampContract w) owner)).
  exists (owned_tokens (stampContract w) owner), stampIds.
  split; [apply getPassportStamps_eq; done|].
  split; [apply getStampsByEvent_eq; done|].
  split; [reflexivity|].
  assert (Hmem : forall id, id ∈ stampIds <->
    stamp_owner w id = owner /\ StampMetadata.eventId (stamp_data w id) = eventId).
  { intros id. unfold stampIds.
    rewrite list_elem_of_filter, elem_of_owned_tokens by done.
    unfold stamp_owner. tauto. }
  split; [apply NoDup_filter, owned_tokens_NoDup; done|].
  split; [exact Hmem|].
  destruct (hasStampForEvent_spec (stampContract w) owner eventId Hs Ho)
    as (b & Hb & Hspec).
  exists b. split; [exact Hb|]. rewrite Hspec. unfold holds_stamp. split.
  - intros (id & Hown & Hev) Hnil.
    assert (Hin : id ∈ stampIds) by (apply Hmem; done).
    rewrite Hnil in Hin. inversion Hin.
  - intros Hne. destruct stampIds as [|id rest] eqn:Hf; [done|].
    exists id. apply Hmem. left.
Qed.

Lemma getStampsByEvent_filters_witness :
  exists all stampIds,
    BasePass.getPassportStamps ex_claimed ex_A = Ok all /\
    EventStamp.getStampsByEvent (stampContract ex_claimed) ex_A 1 = Ok stampIds /\
    stampIds =
      filter (fun id => StampMetadata.eventId (stamp_data ex_claimed id) = 1) all /\
    NoDup stampIds /\
    (forall id, id ∈ stampIds <->
       stamp_owner ex_claimed id = ex_A /\
       StampMetadata.eventId (stamp_data ex_claimed id) = 1) /\
    exists b,
      EventStamp.hasStampForEvent (stampContract ex_claimed) ex_A 1 = Ok b /\
      (b = true <-> stampIds <> []).
Proof.
  apply (getStampsByEvent_filters ex_crypto ex_claimed ex_A 1 ex_claimed_reachable).
  vm_compute. discriminate.
Defined.

(** ** The three counters *)

(** X5.  In every reachable state the three totals are defined (the
    subtraction does not underflow) and each counts what it names: the
    passports are the ids from 1 to [totalPassports], the events those from
    1 to [totalEvents], the stamps those from 1 to [totalStamps], which is
    also the stamp token's [totalSupply]. *)
Theorem totals_count (C : Crypto) (w : World) :
  reachable C w ->
  exists passports events stamps,
    BasePass.totalPassports (basePass w) = Ok passports /\
    BasePass.totalEvents (basePass w) = Ok events /\
    EventStamp.totalStamps (stampContract w) = Ok stamps /\
    (forall tokenId, passport_owner w tokenId <> 0 <-> 1 <= tokenId <= passports) /\
    (forall eventId,
       Event.exists_ (events_get (basePass w) eventId) = true <->
       1 <= eventId <= events) /\
    (forall stampId, stamp_owner w stampId <> 0 <-> 1 <= stampId <= stamps) /\
    ERC721Enumerable.totalSupply (EventStamp.enumerable (stampContract w)) = stamps.
Proof.
  intros Hr. pose proof (reachable_Inv _ _ Hr) as [Hp Hs].
  pose proof (reachable_Records _ _ Hr) as (Hreg & He & _).
  pose proof (pi_token _ Hp) as Hpt. pose proof (si_token _ Hs) as Hst.
  pose proof (ti_counter _ _ Hpt). pose proof (ti_counter _ _ Hst).
  pose proof (pi_events_counter _ Hp).
  exists (_tokenIdCounter (basePass w) - 1), (_eventIdCounter (basePass w) - 1),
    (EventStamp._tokenIdCounter (stampContract w) - 1).
  unfold BasePass.totalPassports, BasePass.totalEvents, EventStamp.totalStamps,
    checked_sub.
  destruct (N.leb_spec 1 (_tokenIdCounter (basePass w))); [|lia].
  destruct (N.leb_spec 1 (_eventIdCounter (basePass w))); [|lia].
  destruct (N.leb_spec 1 (EventStamp._tokenIdCounter (stampContract w))); [|lia].
  split_and!; try reflexivity.
  - intros tokenId. unfold passport_owner. split.
    + intros Ho. apply (ti_fresh _ _ Hpt) in Ho. lia.
    + intros Hid. apply (ti_dense _ _ Hpt). lia.
  - intros eventId. split.
    + intros Hex. apply (pi_events _ Hp) in Hex. lia.
    + intros Hid. apply (ri_events_dense _ Hreg). lia.
  - intros stampId. unfold stamp_owner. split.
    + intros Ho. apply (ti_fresh _ _ Hst) in Ho. lia.
    + intros Hid. apply (ti_dense _ _ Hst). lia.
  - unfold ERC721Enumerable.totalSupply. rewrite (ei_all _ He).
    apply minted_ids_length.
Qed.

Lemma totals_count_witness :
  exists passports events stamps,
    BasePass.totalPassports (basePass ex_claimed) = Ok passports /\
    BasePass.totalEvents (basePass ex_claimed) = Ok events /\
    EventStamp.totalStamps (stampContract ex_claimed) = Ok stamps /\
    (forall tokenId,
       passport_owner ex_claimed tokenId <> 0 <-> 1 <= tokenId <= passports) /\
    (forall eventId,
       Event.exists_ (events_get (basePass ex_claimed) eventId) = true <->
       1 <= eventId <= events) /\
    (forall stampId,
       stamp_owner ex_claimed stampId <> 0 <-> 1 <= stampId <= stamps) /\
    ERC721Enumerable.totalSupply (EventStamp.enumerable (stampContract ex_claimed))
      = stamps.
Proof. exact (totals_count ex_crypto ex_claimed ex_claimed_reachable). Defined.

(** What a successful call adds to the totals (passports, events, stamps). *)
Definition totals_delta (c : Call.t) : N * N * N :=
  match c with
  | Call.mintPassport => (1, 0, 0)
  | Call.createEvent _ _ _ _ => (0, 1, 0)
  | Call.claimStamp _ _ _ _ _ => (0, 0, 1)
  | Call.mintStamp _ _ _ => (0, 0, 1)
  | _ => (0, 0, 0)
  end.

Definition totals (w : World) : Result (N * N * N) :=
  passports ← BasePass.totalPassports (basePass w);
  events ← BasePass.totalEvents (basePass w);
  stamps ← EventStamp.totalStamps (stampContract w);
  mret (passports, events, stamps).

(** X6.  A successful call in which no receiver hook runs moves the totals
    by what it creates and by nothing else: [mintPassport] adds one
    passport, [createEvent] one event, [claimStamp] and a direct [mintStamp]
    one stamp; every other call leaves the three totals as they are. *)
Theorem totals_step (C : Crypto) (env : Env) (sender : N) (c : Call.t)
  (w w' : World) :
  reachable C w -> sender <> 0 -> hook_free env sender c ->
  execute C env sender c w = Ok w' ->
  exists passports events stamps,
    totals w = Ok (passports, events, stamps) /\
    totals w' = Ok (passports + (totals_delta c).1.1,
                    events + (totals_delta c).1.2,
                    stamps + (totals_delta c).2).
Proof.
  intros Hr Hs _ He. pose proof (reachable_Inv _ _ Hr) as Hinv.
  destruct (execute_Ok _ _ _ _ _ _ Hinv Hs He) as [Hg ->].
  destruct Hinv as [Hp Hst].
  pose proof (ti_counter _ _ (pi_token _ Hp)).
  pose proof (ti_counter _ _ (si_token _ Hst)).
  pose proof (pi_events_counter _ Hp).
  exists (_tokenIdCounter (basePass w) - 1), (_eventIdCounter (basePass w) - 1),
    (EventStamp._tokenIdCounter (stampContract w) - 1).
  assert (Hsub : forall a, 1 <= a -> checked_sub a 1 = Ok (a - 1)).
  { intros a Ha. unfold checked_sub. destruct (N.leb_spec 1 a); [done|lia]. }
  assert (Hsub1 : forall a, 1 <= a -> checked_sub (a + 1) 1 = Ok (a - 1 + 1)).
  { intros a Ha. rewrite Hsub by lia. f_equal. lia. }
  unfold totals, BasePass.totalPassports, BasePass.totalEvents,
    EventStamp.totalStamps.
  split; [rewrite !Hsub by lia; reflexivity|].
  destruct c; simpl; rewrite ?Hsub1, ?Hsub by lia; simpl;
    rewrite ?N.add_0_r; reflexivity.
Qed.

Lemma totals_step_witness :
  exists passports events stamps,
    totals ex_ready = Ok (passports, events, stamps) /\
    totals ex_claimed = Ok (passports + (totals_delta ex_claim).1.1,
                            events + (totals_delta ex_claim).1.2,
                            stamps + (totals_delta ex_claim).2).
Proof.
  apply (totals_step ex_crypto (ex_env ex_now) ex_A ex_claim ex_ready ex_claimed
           ex_ready_reachable).
  - vm_compute. discriminate.
  - reflexivity.
  - vm_compute. reflexivity.
Defined.

(** ** The event registry: [getEvent] *)

(** X7.  In every reachable state [getEvent(eventId)] answers exactly for
    the ids from 1 to [totalEvents] and reverts with "Event does not exist"
    for every other id.  The record it returns carries its own id, a
    non-zero signer, a name of 1 to 100 bytes and a description of at most
    500 bytes; its creation is in the log; and every later state returns the
    same record. *)
Theorem getEvent_registry (C : Crypto) (w : World) (eventId : N) :
  reachable C w ->
  exists events,
    BasePass.totalEvents (basePass w) = Ok events /\
    (~ 1 <= eventId <= events ->
     BasePass.getEvent (basePass w) eventId = Revert EventNotFound) /\
    (1 <= eventId <= events ->
     exists ev,
       BasePass.getEvent (basePass w) eventId = Ok ev /\
       Event.exists_ ev = true /\
       Event.id ev = eventId /\
       Event.signer ev <> 0 /\
       1 <= N.of_nat (String.length (Event.name ev)) <= 100 /\
       N.of_nat (String.length (Event.description ev)) <= 500 /\
       EventCreated eventId (Event.name ev) (Event.signer ev)
         ∈ emitted (basePass w) /\
       forall w', steps C w w' ->
         BasePass.getEvent (basePass w') eventId = Ok ev).
Proof.
  intros Hr. pose proof (reachable_Inv _ _ Hr) as Hinv.
  pose proof Hinv as [Hp _].
  pose proof (reachable_Records _ _ Hr) as (Hreg & _ & _).
  pose proof (pi_events_counter _ Hp).
  exists (_eventIdCounter (basePass w) - 1).
  split.
  { unfold BasePass.totalEvents, checked_sub.
    destruct (N.leb_spec 1 (_eventIdCounter (basePass w))); [done|lia]. }
  unfold BasePass.getEvent. split.
  - intros Hid.
    destruct (Event.exists_ (events_get (basePass w) eventId)) eqn:Hex; [|done].
    apply (pi_events _ Hp) in Hex. lia.
  - intros Hid.
    assert (Hex : Event.exists_ (events_get (basePass w) eventId) = true)
      by (apply (ri_events_dense _ Hreg); lia).
    exists (events_get (basePass w) eventId). rewrite Hex.
    destruct (pi_events _ Hp _ Hex) as (_ & Hidq & Hsig).
    destruct (ri_events_valid _ Hreg _ Hex) as [Hname Hdesc].
    split; [reflexivity|]. split; [reflexivity|]. split; [exact Hidq|].
    split; [exact Hsig|]. split; [exact Hname|]. split; [exact Hdesc|]. split.
    + apply (ri_log_event _ Hreg). done.
    + intros w' Hsteps.
      rewrite (ps_event _ _ (steps_persists _ _ _ Hinv Hsteps) _ Hex), Hex. done.
Qed.

Lemma getEvent_registry_witness :
  exists events,
    BasePass.totalEvents (basePass ex_ready) = Ok events /\
    (~ 1 <= 1 <= events ->
     BasePass.getEvent (basePass ex_ready) 1 = Revert EventNotFound) /\
    (1 <= 1 <= events ->
     exists ev,
       BasePass.getEvent (basePass ex_ready) 1 = Ok ev /\
       Event.exists_ ev = true /\
       Event.id ev = 1 /\
       Event.signer ev <> 0 /\
       1 <= N.of_nat (String.length (Event.name ev)) <= 100 /\
       N.of_nat (String.length (Event.description ev)) <= 500 /\
       EventCreated 1 (Event.name ev) (Event.signer ev)
         ∈ emitted (basePass ex_ready) /\
       forall w', steps ex_crypto ex_ready w' ->
         BasePass.getEvent (basePass w') 1 = Ok ev).
Proof. exact (getEvent_registry ex_crypto ex_ready 1 ex_ready_reachable). Defined.

(** ** Who may mint stamps: the roles of the stamp contract *)

(** X8.  In every reachable state the administrator of every role is
    [DEFAULT_ADMIN_ROLE] (the contract never sets another).  A call in which
    no receiver hook runs changes whether an account holds a role only if it
    is a [grantRole] or a [revokeRole] for that role and account by a holder
    of [DEFAULT_ADMIN_ROLE], or a [renounceRole] of that role by the account
    itself.  A [mintStamp] by an account without [MINTER_ROLE] reverts with
    [AccessControlUnauthorizedAccount]. *)
Theorem roles_change_by_admin (C : Crypto) (env : Env) (sender : N) (c : Call.t)
  (w : World) :
  reachable C w -> sender <> 0 ->
  let access w := EventStamp.access (stampContract w) in
  (forall role,
     AccessControl.getRoleAdmin (access w) role = AccessControl.DEFAULT_ADMIN_ROLE) /\
  (forall w' role account,
     hook_free env sender c ->
     execute C env sender c w = Ok w' ->
     AccessControl.hasRole (access w') role account
       <> AccessControl.hasRole (access w) role account ->
     (c = Call.grantRole role account /\
      AccessControl.hasRole (access w) AccessControl.DEFAULT_ADMIN_ROLE sender = true /\
      AccessControl.hasRole (access w') role account = true) \/
     (c = Call.revokeRole role account /\
      AccessControl.hasRole (access w) AccessControl.DEFAULT_ADMIN_ROLE sender = true /\
      AccessControl.hasRole (access w') role account = false) \/
     (c = Call.renounceRole role account /\ sender = account /\
      AccessControl.hasRole (access w') role account = false)) /\
  (forall to eventId passportId,
     AccessControl.hasRole (access w) (EventStamp.MINTER_ROLE C) sender = false ->
     execute C env sender (Call.mintStamp to eventId passportId) w
       = Revert (AccessControlUnauthorizedAccount sender (EventStamp.MINTER_ROLE C))).
Proof.
  intros Hr Hs access. subst access.
  pose proof (reachable_Inv _ _ Hr) as Hinv.
  pose proof (reachable_Records _ _ Hr) as (_ & Hen & _).
  assert (Hadmin : forall role,
    AccessControl.getRoleAdmin (EventStamp.access (stampContract w)) role
      = AccessControl.DEFAULT_ADMIN_ROLE).
  { intros role. unfold AccessControl.getRoleAdmin.
    rewrite (ei_admin _ Hen), get_empty. reflexivity. }
  assert (Hset : forall a role account b role' account',
    AccessControl.hasRole (AccessControl.set_hasRole a role account b) role' account'
      <> AccessControl.hasRole a role' account' ->
    role' = role /\ account' = account /\
    AccessControl.hasRole (AccessControl.set_hasRole a role account b) role' account'
      = b).
  { intros a role account b role' account'.
    unfold AccessControl.hasRole, AccessControl.set_hasRole. simpl.
    rewrite getb_insert. destruct (decide ((role, account) = (role', account')))
      as [[= <- <-]|]; done. }
  split; [exact Hadmin|]. split.
  - intros w' role account _ He Hne.
    destruct c; try (destruct (execute_Ok _ _ _ _ _ _ Hinv Hs He) as [_ ->];
                     simpl in Hne; done);
      simpl in He; unfold on_stampContract in He.
    + (* grantRole *)
      unfold EventStamp.grantRole, AccessControl.grantRole,
        AccessControl._checkRole in He. rewrite Hadmin in He.
      destruct (AccessControl.hasRole _ AccessControl.DEFAULT_ADMIN_ROLE sender)
        eqn:Had; [|discriminate].
      simpl in He. injection He as <-. simpl in *.
      unfold AccessControl._grantRole in *.
      destruct (negb (AccessControl.hasRole _ role0 account0)); [|done].
      apply Hset in Hne as (-> & -> & Hb). left. done.
    + (* revokeRole *)
      unfold EventStamp.revokeRole, AccessControl.revokeRole,
        AccessControl._checkRole in He. rewrite Hadmin in He.
      destruct (AccessControl.hasRole _ AccessControl.DEFAULT_ADMIN_ROLE sender)
        eqn:Had; [|discriminate].
      simpl in He. injection He as <-. simpl in *.
      unfold AccessControl._revokeRole in *.
      destruct (AccessControl.hasRole _ role0 account0); [|done].
      apply Hset in Hne as (-> & -> & Hb). right. left. done.
    + (* renounceRole *)
      unfold EventStamp.renounceRole, AccessControl.renounceRole in He.
      destruct (N.eqb_spec callerConfirmation sender) as [->|]; [|discriminate].
      simpl in He. injection He as <-. simpl in *.
      unfold AccessControl._revokeRole in *.
      destruct (AccessControl.hasRole _ role0 sender); [|done].
      apply Hset in Hne as (-> & -> & Hb). right. right. done.
  - intros to eventId passportId Hno. simpl. unfold on_stampContract.
    unfold EventStamp.mintStamp, AccessControl._checkRole. rewrite Hno. reflexivity.
Qed.

(** The first step of the set-up: the deployer, who holds
    [DEFAULT_ADMIN_ROLE], grants [MINTER_ROLE] to the passport contract,
    which did not hold it; and A, who does not hold it, cannot mint. *)
Lemma roles_change_by_admin_witness :
  let MINTER := EventStamp.MINTER_ROLE ex_crypto in
  let grant := Call.grantRole MINTER ex_basePass in
  let w' := transact ex_crypto (ex_env ex_now) ex_deployer grant ex_deployed in
  AccessControl.hasRole (EventStamp.access (stampContract ex_deployed)) MINTER
    ex_basePass = false /\
  AccessControl.hasRole (EventStamp.access (stampContract ex_deployed))
    AccessControl.DEFAULT_ADMIN_ROLE ex_deployer = true /\
  AccessControl.hasRole (EventStamp.access (stampContract w')) MINTER
    ex_basePass = true /\
  execute ex_crypto (ex_env ex_now) ex_A (Call.mintStamp ex_A 1 1) ex_ready
    = Revert (AccessControlUnauthorizedAccount ex_A MINTER).
Proof.
  intros MINTER grant w'.
  split; [vm_compute; reflexivity|].
  assert (Hch :
    AccessControl.hasRole (EventStamp.access (stampContract ex_deployed))
      AccessControl.DEFAULT_ADMIN_ROLE ex_deployer = true /\
    AccessControl.hasRole (EventStamp.access (stampContract w')) MINTER
      ex_basePass = true).
  { destruct (roles_change_by_admin ex_crypto (ex_env ex_now) ex_deployer grant
                ex_deployed ex_deployed_reachable) as (_ & Hchange & _).
    - vm_compute. discriminate.
    - destruct (Hchange w' MINTER ex_basePass)
        as [(_ & Hadmin & Hnew)|[(Hc & _)|(Hc & _)]].
      + exact I.
      + vm_compute. reflexivity.
      + vm_compute. discriminate.
      + split; assumption.
      + discriminate Hc.
      + discriminate Hc. }
  split; [apply Hch|]. split; [apply Hch|].
  apply (roles_change_by_admin ex_crypto (ex_env ex_now) ex_A
           (Call.mintStamp ex_A 1 1) ex_ready ex_ready_reachable).
  - vm_compute. discriminate.
  - vm_compute. reflexivity.
Defined.

(** ** The deployment script *)

Lemma hasRole_grantRole (a : AccessControl.Storage) (role account role' account' : N) :
  AccessControl.hasRole (AccessControl._grantRole a role account) role' account' =
    AccessControl.hasRole a role' account'
    || bool_decide ((role, account) = (role', account')).
Proof.
  unfold AccessControl._grantRole.
  destruct (AccessControl.hasRole a role account) eqn:Hh; simpl.
  - case_bool_decide as Heq; [|rewrite orb_false_r; done].
    injection Heq as <- <-. rewrite Hh. done.
  - unfold AccessControl.hasRole, AccessControl.set_hasRole. simpl.
    rewrite getb_insert. case_bool_decide as Heq.
    + rewrite decide_True by done. rewrite orb_true_r. done.
    + rewrite decide_False by done. rewrite orb_false_r. done.
Qed.

(** X9.  The deployment script fails when the deployer or the address of
    the stamp contract is zero.  Otherwise it ends in a reachable state in
    which the five values it reads back are: no passport, no event, no
    stamp, the deployer as owner of the passport contract, and the passport
    contract holding [MINTER_ROLE].  The roles are then exactly: the
    deployer holds [DEFAULT_ADMIN_ROLE] and [MINTER_ROLE], the passport
    contract holds [MINTER_ROLE]. *)
Theorem deploy_main_ready (C : Crypto) (env : Env)
  (deployer stampAddress basePassAddress : N) :
  (deployer = 0 ->
   deploy_main C env deployer stampAddress basePassAddress
     = Revert (OwnableInvalidOwner 0)) /\
  (deployer <> 0 -> stampAddress = 0 ->
   deploy_main C env deployer stampAddress basePassAddress
     = Revert (Error_string "Invalid stamp contract address")) /\
  (deployer <> 0 -> stampAddress <> 0 ->
   exists w,
     deploy_main C env deployer stampAddress basePassAddress = Ok w /\
     reachable C w /\
     this w = basePassAddress /\
     BasePass.totalPassports (basePass w) = Ok 0 /\
     BasePass.totalEvents (basePass w) = Ok 0 /\
     EventStamp.totalStamps (stampContract w) = Ok 0 /\
     _owner (basePass w) = deployer /\
     AccessControl.hasRole (EventStamp.access (stampContract w))
       (EventStamp.MINTER_ROLE C) basePassAddress = true /\
     forall role account,
       AccessControl.hasRole (EventStamp.access (stampContract w)) role account = true
       <->
       (account = deployer /\
        (role = AccessControl.DEFAULT_ADMIN_ROLE \/ role = EventStamp.MINTER_ROLE C)) \/
       (account = basePassAddress /\ role = EventStamp.MINTER_ROLE C)).
Proof.
  unfold deploy_main, deploy, BasePass.constructor. split; [|split].
  - intros ->. reflexivity.
  - intros Hd ->. apply N.eqb_neq in Hd. rewrite Hd. reflexivity.
  - intros Hd Hs. apply N.eqb_neq in Hd as Hd'. apply N.eqb_neq in Hs as Hs'.
    rewrite Hd', Hs'. cbn [revert_if require negb mbind Result_bind mret Result_ret].
    set (w0 := {| this := basePassAddress; basePass := _;
                  stampContract := EventStamp.constructor C deployer |}).
    assert (Hw0 : reachable C w0).
    { apply (reachable_deploy C deployer basePassAddress stampAddress).
      unfold deploy, BasePass.constructor. rewrite Hd', Hs'. reflexivity. }
    assert (Hadmin : AccessControl.hasRole (EventStamp.access (stampContract w0))
              AccessControl.DEFAULT_ADMIN_ROLE deployer = true).
    { simpl. rewrite !hasRole_grantRole. rewrite (bool_decide_true (_ = _)) by done.
      rewrite orb_true_r. reflexivity. }
    assert (He : execute C env deployer
              (Call.grantRole (EventStamp.MINTER_ROLE C) basePassAddress) w0 =
            Ok (set_stampContract w0
                  (EventStamp.set_access (stampContract w0)
                     (AccessControl._grantRole (EventStamp.access (stampContract w0))
                        (EventStamp.MINTER_ROLE C) basePassAddress)))).
    { cbn [execute]. unfold on_stampContract, EventStamp.grantRole,
        AccessControl.grantRole, AccessControl._checkRole,
        AccessControl.getRoleAdmin.
      pose proof (reachable_Records _ _ Hw0) as (_ & Hen & _).
      rewrite (ei_admin _ Hen), get_empty.
      change 0 with AccessControl.DEFAULT_ADMIN_ROLE at 1. rewrite Hadmin.
      reflexivity. }
    eexists. split; [exact He|].
    split; [eapply reachable_step; [exact Hw0|exact Hd|exact He]|].
    split; [reflexivity|]. split; [reflexivity|]. split; [reflexivity|].
    split; [reflexivity|]. split; [reflexivity|].
    cbn [stampContract set_stampContract EventStamp.access EventStamp.set_access w0
         EventStamp.constructor].
    split.
    + rewrite hasRole_grantRole. rewrite (bool_decide_true (_ = _)) by done.
      apply orb_true_r.
    + intros role account. rewrite !hasRole_grantRole.
      unfold AccessControl.hasRole at 1. simpl. rewrite getb_empty. simpl.
      rewrite !orb_true_iff, !bool_decide_eq_true. split.
      * intros [[[= <- <-]|[= <- <-]]|[= <- <-]]; auto.
      * intros [[-> [->| ->]]|[-> ->]]; auto.
Qed.

(** ** The log *)

(** X10.  In every reachable state the logs are a faithful record: a
    [PassportMinted(owner, tokenId)] was emitted exactly when [owner] owns
    passport [tokenId]; an [EventCreated(eventId, name, signer)] exactly when
    event [eventId] is registered with that name and signer; a
    [StampMinted(to, tokenId, eventId, passportId)] exactly when [to] owns
    stamp [tokenId], recorded for that event and passport; and for every
    [StampClaimed(tokenId, eventId, claimer)] the claimer owns passport
    [tokenId] and a stamp recorded for that event and passport. *)
Theorem logs_mirror_state (C : Crypto) (w : World) :
  reachable C w ->
  (forall owner tokenId,
     PassportMinted owner tokenId ∈ emitted (basePass w) <->
     passport_owner w tokenId = owner /\ owner <> 0) /\
  (forall eventId name signer,
     EventCreated eventId name signer ∈ emitted (basePass w) <->
     Event.exists_ (events_get (basePass w) eventId) = true /\
     Event.name (events_get (basePass w) eventId) = name /\
     Event.signer (events_get (basePass w) eventId) = signer) /\
  (forall to tokenId eventId passportId,
     EventStamp.StampMinted to tokenId eventId passportId
       ∈ EventStamp.emitted (stampContract w) <->
     stamp_owner w tokenId = to /\ to <> 0 /\
     StampMetadata.eventId (stamp_data w tokenId) = eventId /\
     StampMetadata.passportId (stamp_data w tokenId) = passportId) /\
  (forall tokenId eventId claimer,
     StampClaimed tokenId eventId claimer ∈ emitted (basePass w) ->
     passport_owner w tokenId = claimer /\ claimer <> 0 /\
     exists stampId,
       stamp_owner w stampId = claimer /\
       StampMetadata.eventId (stamp_data w stampId) = eventId /\
       StampMetadata.passportId (stamp_data w stampId) = tokenId).
Proof.
  intros Hr. destruct (reachable_Records _ _ Hr) as (Hreg & Hen & Hcl).
  split; [apply (ri_log_passport _ Hreg)|].
  split; [apply (ri_log_event _ Hreg)|].
  split; [apply (ei_log _ Hen)|exact Hcl].
Qed.

Lemma logs_mirror_state_witness :
  (PassportMinted ex_A 1 ∈ emitted (basePass ex_claimed) <->
   passport_owner ex_claimed 1 = ex_A /\ ex_A <> 0) /\
  (StampClaimed 1 1 ex_A ∈ emitted (basePass ex_claimed) ->
   passport_owner ex_claimed 1 = ex_A /\ ex_A <> 0 /\
   exists stampId,
     stamp_owner ex_claimed stampId = ex_A /\
     StampMetadata.eventId (stamp_data ex_claimed stampId) = 1 /\
     StampMetadata.passportId (stamp_data ex_claimed stampId) = 1).
Proof.
  pose proof (logs_mirror_state ex_crypto ex_claimed ex_claimed_reachable)
    as (H1 & _ & _ & H4).
  split; [apply H1|apply H4].
Defined.

(** ** The stamp ledger when every stamp comes from a claim *)

(** Sequences of calls none of which is a direct [mintStamp], and in which
    no receiver hook runs (the accounts that mint a passport or claim a
    stamp have no code). *)
Inductive claim_steps (C : Crypto) : World -> World -> Prop :=
| claim_steps_refl w : claim_steps C w w
| claim_steps_step w env sender c w' w'' :
    claim_steps C w w' ->
    sender <> 0 ->
    ~ is_mintStamp c ->
    hook_free env sender c ->
    execute C env sender c w' = Ok w'' ->
    claim_steps C w w''.

Lemma claim_steps_steps (C : Crypto) (w w' : World) :
  claim_steps C w w' -> steps C w w'.
Proof.
  induction 1 as [|w env sender c w' w'' _ IH Hs _ _ He]; [apply steps_refl|].
  eapply steps_step; [exact IH|exact Hs|exact He].
Qed.

Record claims_only (w : World) : Prop := {
  co_unique : forall id1 id2,
    stamp_owner w id1 = stamp_owner w id2 -> stamp_owner w id1 <> 0 ->
    StampMetadata.eventId (stamp_data w id1) = StampMetadata.eventId (stamp_data w id2) ->
    id1 = id2;
  co_linked : forall id,
    stamp_owner w id <> 0 ->
    passport_owner w (StampMetadata.passportId (stamp_data w id)) = stamp_owner w id;
  co_logged : forall id,
    stamp_owner w id <> 0 ->
    StampClaimed (StampMetadata.passportId (stamp_data w id))
      (StampMetadata.eventId (stamp_data w id)) (stamp_owner w id)
      ∈ emitted (basePass w)
}.

Lemma stamps_claimed (env : Env) (sender tokenId eventId nonce : N) (w : World)
  (id : N) :
  stamp_owner (claimed env sender tokenId eventId nonce w) id =
    (if decide (EventStamp._tokenIdCounter (stampContract w) = id)
     then sender else stamp_owner w id) /\
  stamp_data (claimed env sender tokenId eventId nonce w) id =
    (if decide (EventStamp._tokenIdCounter (stampContract w) = id)
     then {| StampMetadata.eventId := eventId; StampMetadata.passportId := tokenId;
             StampMetadata.timestamp := block_timestamp env |}
     else stamp_data w id).
Proof.
  unfold stamp_owner, stamp_data, EventStamp.stampMetadata_get, EventStamp.erc721,
    ERC721._ownerOf. simpl. rewrite get_insert, lookup_insert.
  destruct (decide (EventStamp._tokenIdCounter (stampContract w) = id)); done.
Qed.

Lemma claims_only_post (C : Crypto) (env : Env) (sender : N) (c : Call.t) (w : World) :
  Inv w -> sender <> 0 -> guard C env sender c w -> ~ is_mintStamp c ->
  claims_only w -> claims_only (post env sender c w).
Proof.
  intros Hinv Hs Hg Hnm [Hu Hl Hlog].
  pose proof (post_persists C env sender c w Hinv Hg) as Hper.
  destruct Hinv as [Hp Hst].
  assert (Hc : is_claimStamp c \/ ~ is_claimStamp c) by (destruct c; simpl; tauto).
  destruct Hc as [Hc|Hc].
  - destruct c; try done. clear Hc Hnm. simpl in Hg.
    apply claimStamp_check_Ok in Hg as (Hown & Hsn & _ & Hhas & _).
    cbn [post].
    assert (Hfresh : forall id, stamp_owner w id <> 0 ->
              EventStamp._tokenIdCounter (stampContract w) <> id).
    { intros id H <-. apply (ti_fresh _ _ (si_token _ Hst)) in H. lia. }
    assert (Hnone : forall id, stamp_owner w id = sender ->
              StampMetadata.eventId (stamp_data w id) <> eventId).
    { intros id Ho He.
      assert (Hh : holds_stamp (stampContract w) sender eventId) by (exists id; done).
      rewrite (hasStampForEvent_holds _ _ _ Hst Hsn Hh) in Hhas. discriminate. }
    split.
    + intros id1 id2.
      destruct (stamps_claimed env sender tokenId eventId nonce w id1) as [-> ->].
      destruct (stamps_claimed env sender tokenId eventId nonce w id2) as [-> ->].
      destruct (decide (_ = id1)) as [<-|H1], (decide (_ = id2)) as [<-|H2];
        simpl; try done.
      * intros Ho _ He. symmetry in Ho, He. apply Hnone in Ho. done.
      * intros Ho _ He. apply Hnone in Ho. done.
      * apply Hu.
    + intros id.
      destruct (stamps_claimed env sender tokenId eventId nonce w id) as [-> ->].
      unfold passport_owner. simpl.
      destruct (decide (_ = id)) as [<-|H1]; simpl; [done|]. apply Hl.
    + intros id.
      destruct (stamps_claimed env sender tokenId eventId nonce w id) as [-> ->].
      simpl. rewrite elem_of_app, list_elem_of_singleton.
      destruct (decide (_ = id)) as [<-|H1]; simpl; [right; done|].
      intros H. left. apply Hlog, H.
  - assert (Hso : forall id, stamp_owner (post env sender c w) id = stamp_owner w id)
      by (destruct c; done).
    assert (Hsd : forall id, stamp_data (post env sender c w) id = stamp_data w id)
      by (destruct c; done).
    assert (Hin : forall l, l ∈ emitted (basePass w) ->
                            l ∈ emitted (basePass (post env sender c w))).
    { intros l H. destruct c; simpl; try done; apply elem_of_app; left; done. }
    split.
    + intros id1 id2. rewrite !Hso, !Hsd. apply Hu.
    + intros id. rewrite !Hso, !Hsd. intros H.
      rewrite (ps_passport_owner _ _ Hper); [apply Hl, H|].
      rewrite (Hl id H). exact H.
    + intros id. rewrite !Hso, !Hsd. intros H. apply Hin, Hlog, H.
Qed.

Lemma claims_only_deploy (C : Crypto) (deployer self stampAddress : N) (w : World) :
  deploy C deployer self stampAddress = Ok w -> claims_only w.
Proof.
  unfold deploy, BasePass.constructor. intros H.
  destruct (revert_if _ _) as [[]|]; [|discriminate]. simpl in H.
  destruct (require _ _) as [[]|]; [|discriminate]. simpl in H.
  injection H as <-.
  split; unfold stamp_owner, EventStamp.erc721, ERC721._ownerOf; simpl;
    intros; rewrite get_empty in *; done.
Qed.

(** X11.  Starting from a deployment, as long as no stamp is minted by a
    direct [mintStamp] call (all stamps come from [claimStamp]) and no
    receiver hook runs (the minting and claiming accounts have no code): an
    owner holds at most one stamp per event, every stamp names the passport
    of its owner, every stamp has its [StampClaimed] in the log, and
    [getStampsByEvent] returns at most one stamp. *)
Theorem claimed_stamps_are_unique (C : Crypto) (deployer self stampAddress : N)
  (w0 w : World) :
  deploy C deployer self stampAddress = Ok w0 ->
  claim_steps C w0 w ->
  claims_only w /\
  forall owner eventId,
    owner <> 0 ->
    exists stampIds,
      EventStamp.getStampsByEvent (stampContract w) owner eventId = Ok stampIds /\
      (List.length stampIds <= 1)%nat.
Proof.
  intros Hd Hsteps.
  assert (Hr0 : reachable C w0) by (eapply reachable_deploy; exact Hd).
  assert (H : reachable C w /\ claims_only w).
  { induction Hsteps as [|w0 env sender c w' w'' Hst IH Hs Hnm _ He].
    - split; [exact Hr0|]. eapply claims_only_deploy. exact Hd.
    - destruct (IH Hd Hr0) as [Hr' Hco].
      pose proof (reachable_Inv _ _ Hr') as Hinv.
      split; [eapply reachable_step; [exact Hr'|exact Hs|exact He]|].
      destruct (execute_Ok _ _ _ _ _ _ Hinv Hs He) as [Hg ->].
      eapply claims_only_post; done. }
  destruct H as [Hr Hco]. split; [exact Hco|].
  intros owner eventId Ho.
  destruct (getStampsByEvent_members C w owner eventId Hr Ho)
    as (stampIds & Heq & Hnd & Hmem).
  exists stampIds. split; [exact Heq|].
  destruct stampIds as [|id1 [|id2 rest]]; simpl; [lia|lia|].
  exfalso.
  assert (H1 : id1 ∈ id1 :: id2 :: rest) by left.
  assert (H2 : id2 ∈ id1 :: id2 :: rest) by (right; left).
  apply Hmem in H1 as [Ho1 He1]. apply Hmem in H2 as [Ho2 He2].
  assert (id1 = id2).
  { apply (co_unique _ Hco); congruence. }
  subst id2. apply NoDup_cons in Hnd as [Hnotin _]. apply Hnotin. left.
Qed.

Lemma claim_steps_transact (C : Crypto) (env : Env) (sender : N) (c : Call.t)
  (w w' : World) :
  sender <> 0 -> ~ is_mintStamp c -> hook_free env sender c ->
  claim_steps C w w' -> claim_steps C w (transact C env sender c w').
Proof.
  intros Hs Hc Hh Hst. unfold transact.
  destruct (execute C env sender c w') as [w''|] eqn:He; [|exact Hst].
  eapply claim_steps_step; [exact Hst|exact Hs|exact Hc|exact Hh|exact He].
Qed.

Lemma claim_steps_transact_all (C : Crypto) (txs : list (Env * N * Call.t))
  (w w' : World) :
  Forall (fun tx => tx.1.2 <> 0 /\ ~ is_mintStamp tx.2 /\
                   hook_free tx.1.1 tx.1.2 tx.2) txs ->
  claim_steps C w w' -> claim_steps C w (transact_all C txs w').
Proof.
  intros Hs. revert w'.
  induction Hs as [|tx txs (Hne & Hc & Hh) _ IH]; intros w' Hst; simpl.
  - exact Hst.
  - apply IH. apply claim_steps_transact; done.
Qed.

Lemma ex_claimed_claim_steps : claim_steps ex_crypto ex_deployed ex_claimed.
Proof.
  apply claim_steps_transact; [done|simpl; tauto|reflexivity|].
  apply claim_steps_transact_all; [|apply claim_steps_refl].
  repeat constructor; simpl; try done; tauto.
Qed.

Lemma claimed_stamps_are_unique_witness :
  claims_only ex_claimed /\
  forall owner eventId,
    owner <> 0 ->
    exists stampIds,
      EventStamp.getStampsByEvent (stampContract ex_claimed) owner eventId
        = Ok stampIds /\
      (List.length stampIds <= 1)%nat.
Proof.
  apply (claimed_stamps_are_unique ex_crypto ex_deployer ex_basePass ex_eventStamp
           ex_deployed ex_claimed).
  - reflexivity.
  - exact ex_claimed_claim_steps.
Defined.

(** ** The pages that search the contract *)

Lemma ownerOf_minted (s : BasePass.Storage) (tokenId : N) :
  passport_inv s -> 1 <= tokenId < _tokenIdCounter s ->
  ERC721.ownerOf (erc721 s) tokenId = Ok (ERC721._ownerOf (erc721 s) tokenId) /\
  ERC721._ownerOf (erc721 s) tokenId <> 0.
Proof.
  intros Hp Hid. pose proof (ti_dense _ _ (pi_token _ Hp) tokenId Hid) as Hne.
  split; [|exact Hne]. unfold ERC721.ownerOf, ERC721._requireOwned.
  apply N.eqb_neq in Hne. rewrite Hne. reflexivity.
Qed.

Lemma findTokenId_up_spec (w : World) (a : N) :
  passport_inv (basePass w) ->
  forall (n : nat) (i id : N),
    1 <= i -> i + N.of_nat n <= _tokenIdCounter (basePass w) ->
    Frontend.findTokenId_up w a i n = Some id <->
    i <= id < i + N.of_nat n /\ passport_owner w id = a.
Proof.
  intros Hp n. induction n as [|n IH]; intros i id Hi Hn.
  - simpl. split; [discriminate|]. intros [? _]. lia.
  - cbn [Frontend.findTokenId_up].
    destruct (ownerOf_minted _ i Hp ltac:(lia)) as [-> Hne].
    destruct (N.eqb_spec (ERC721._ownerOf (erc721 (basePass w)) i) a) as [Heq|Hneq].
    + split.
      * intros [= <-]. split; [lia|exact Heq].
      * intros [Hid Hown]. f_equal. apply (pi_unique _ Hp); [|done].
        unfold passport_owner in Hown. congruence.
    + rewrite IH by lia. split.
      * intros [Hid Hown]. split; [lia|done].
      * intros [Hid Hown]. split; [|done].
        assert (id <> i) by (intros ->; done). lia.
Qed.

Lemma findTokenId_down_spec (w : World) (a : N) :
  passport_inv (basePass w) ->
  forall (n : nat) (i id : N),
    N.of_nat n <= i -> i < _tokenIdCounter (basePass w) ->
    Frontend.findTokenId_down w a i n = Some id <->
    i - N.of_nat n < id <= i /\ passport_owner w id = a.
Proof.
  intros Hp n. induction n as [|n IH]; intros i id Hi Hn.
  - simpl. split; [discriminate|]. intros [? _]. lia.
  - cbn [Frontend.findTokenId_down].
    destruct (ownerOf_minted _ i Hp ltac:(lia)) as [-> Hne].
    destruct (N.eqb_spec (ERC721._ownerOf (erc721 (basePass w)) i) a) as [Heq|Hneq].
    + split.
      * intros [= <-]. split; [lia|exact Heq].
      * intros [Hid Hown]. f_equal. apply (pi_unique _ Hp); [|done].
        unfold passport_owner in Hown. congruence.
    + rewrite IH by lia. split.
      * intros [Hid Hown]. split; [lia|done].
      * intros [Hid Hown]. split; [|done].
        assert (id <> i) by (intros ->; done). lia.
Qed.

(** X12.  With the three reads taken from one reachable state, the search
    of the claim page (upwards) and the search of the passport pages
    (downwards) set [userTokenId] to the same value, whatever it was before:
    the passport of the connected account if it owns one, and otherwise
    nothing.  The one-passport rule is what makes the two directions
    agree. *)
Theorem findTokenId_finds_the_passport (C : Crypto) (w : World)
  (address balance totalPassports : N) (userTokenId : option N) :
  reachable C w -> address <> 0 ->
  ERC721.balanceOf (erc721 (basePass w)) address = Ok balance ->
  BasePass.totalPassports (basePass w) = Ok totalPassports ->
  Frontend.findTokenId_claim w (Some address) (Some balance) (Some totalPassports)
    userTokenId
  = Frontend.findTokenId_passport w (Some address) (Some balance)
      (Some totalPassports) userTokenId /\
  forall tokenId,
    Frontend.findTokenId_claim w (Some address) (Some balance)
      (Some totalPassports) userTokenId = Some tokenId <->
    passport_owner w tokenId = address.
Proof.
  intros Hr Ha Hb Ht. pose proof (reachable_Inv _ _ Hr) as [Hp _].
  pose proof (ti_counter _ _ (pi_token _ Hp)) as Hc.
  unfold ERC721.balanceOf in Hb. apply N.eqb_neq in Ha as Ha'. rewrite Ha' in Hb.
  injection Hb as <-.
  unfold BasePass.totalPassports, checked_sub in Ht.
  destruct (N.leb_spec 1 (_tokenIdCounter (basePass w))); [|lia].
  injection Ht as <-.
  unfold Frontend.findTokenId_claim, Frontend.findTokenId_passport.
  set (total := _tokenIdCounter (basePass w) - 1).
  destruct (N.eqb_spec (get (ERC721._balances (erc721 (basePass w))) address) 0)
    as [Hb0|Hb0]; cbn [orb].
  { split; [reflexivity|]. intros tokenId. split; [discriminate|].
    intros Hown. unfold passport_owner in Hown.
    assert (Hne : ERC721._ownerOf (erc721 (basePass w)) tokenId <> 0) by congruence.
    pose proof (pi_owned _ Hp tokenId Hne) as H1. rewrite Hown in H1. lia. }
  destruct (pi_holder _ Hp address Hb0) as (id0 & Hown0 & _).
  assert (Hid0 : 1 <= id0 < _tokenIdCounter (basePass w)).
  { apply (ti_fresh _ _ (pi_token _ Hp)). congruence. }
  destruct (N.eqb_spec total 0) as [Ht0|Ht0]; [unfold total in Ht0; lia|].
  cbn [orb].
  assert (Hup : Frontend.findTokenId_up w address 1 (N.to_nat total) = Some id0).
  { apply findTokenId_up_spec; [done|lia|unfold total; lia|].
    split; [unfold total; lia|exact Hown0]. }
  assert (Hdown : Frontend.findTokenId_down w address total (N.to_nat total)
                  = Some id0).
  { apply findTokenId_down_spec; [done|lia|unfold total; lia|].
    split; [unfold total; lia|exact Hown0]. }
  rewrite Hup, Hdown. split; [reflexivity|].
  intros tokenId. split.
  - intros [= <-]. exact Hown0.
  - intros Hown. f_equal. apply (pi_unique _ Hp); [|congruence].
    unfold passport_owner in Hown. congruence.
Qed.

Lemma findTokenId_finds_the_passport_witness :
  Frontend.findTokenId_claim ex_claimed (Some ex_A) (Some 1) (Some 1) None
  = Frontend.findTokenId_passport ex_claimed (Some ex_A) (Some 1) (Some 1) None /\
  forall tokenId,
    Frontend.findTokenId_claim ex_claimed (Some ex_A) (Some 1) (Some 1) None
      = Some tokenId <->
    passport_owner ex_claimed tokenId = ex_A.
Proof.
  apply (findTokenId_finds_the_passport ex_crypto ex_claimed ex_A 1 1 None
           ex_claimed_reachable).
  - vm_compute. discriminate.
  - vm_compute. reflexivity.
  - vm_compute. reflexivity.
Defined.

(** The ids [i, i + 1, ..., i + n - 1]. *)
Definition ids_from (i : N) (n : nat) : list N :=
  (fun k : nat => i + N.of_nat k) <$> seq 0 n.

Lemma ids_from_S (i : N) (n : nat) : ids_from i (S n) = i :: ids_from (i + 1) n.
Proof.
  unfold ids_from. cbn [seq fmap list_fmap]. f_equal; [lia|].
  rewrite <- fmap_S_seq, <- list_fmap_compose. apply list_fmap_ext.
  intros _ k _. simpl. lia.
Qed.

Lemma elem_of_ids_from (i : N) (n : nat) (id : N) :
  id ∈ ids_from i n <-> i <= id < i + N.of_nat n.
Proof.
  unfold ids_from. rewrite list_elem_of_fmap. split.
  - intros (k & -> & Hk). apply elem_of_seq in Hk. lia.
  - intros Hid. exists (N.to_nat (id - i)). split; [lia|]. apply elem_of_seq. lia.
Qed.

Lemma filterUserEvents_from_spec (w : World) (a : N) :
  passport_inv (basePass w) -> registry_inv (basePass w) ->
  forall (n : nat) (i : N) (acc : list N),
    1 <= i -> i + N.of_nat n <= _eventIdCounter (basePass w) ->
    Frontend.filterUserEvents_from w a i n acc =
      acc ++ filter (fun id => Event.signer (events_get (basePass w) id) = a)
               (ids_from i n).
Proof.
  intros Hp Hreg n. induction n as [|n IH]; intros i acc Hi Hn.
  - simpl. rewrite app_nil_r. reflexivity.
  - cbn [Frontend.filterUserEvents_from]. unfold BasePass.getEvent.
    rewrite (ri_events_dense _ Hreg i) by lia.
    cbn [require mbind Result_bind mret Result_ret].
    rewrite ids_from_S, filter_cons.
    destruct (N.eqb_spec (Event.signer (events_get (basePass w) i)) a) as [Heq|Hne].
    + rewrite decide_True by done. rewrite IH by lia.
      rewrite <- app_assoc. reflexivity.
    + rewrite decide_False by done. rewrite IH by lia. reflexivity.
Qed.

(** X13.  With [totalEvents] read from a reachable state, [filterUserEvents]
    of the administration page sets [userEvents] to the events whose
    registered signer is the connected account: every such event, once, in
    increasing order of id, and no other; no read of the loop fails. *)
Theorem filterUserEvents_lists_own_events (C : Crypto) (w : World)
  (address totalEvents : N) :
  reachable C w ->
  BasePass.totalEvents (basePass w) = Ok totalEvents ->
  Frontend.filterUserEvents w (Some address) (Some totalEvents) =
    filter (fun id => Event.signer (events_get (basePass w) id) = address)
      (ids_from 1 (N.to_nat totalEvents)) /\
  (address <> 0 ->
   forall eventId,
     eventId ∈ Frontend.filterUserEvents w (Some address) (Some totalEvents) <->
     exists ev, BasePass.getEvent (basePass w) eventId = Ok ev /\
                Event.signer ev = address).
Proof.
  intros Hr Ht. pose proof (reachable_Inv _ _ Hr) as [Hp _].
  pose proof (reachable_Records _ _ Hr) as (Hreg & _ & _).
  pose proof (pi_events_counter _ Hp) as Hc.
  unfold BasePass.totalEvents, checked_sub in Ht.
  destruct (N.leb_spec 1 (_eventIdCounter (basePass w))); [|lia].
  injection Ht as <-.
  assert (Heq : Frontend.filterUserEvents w (Some address)
                  (Some (_eventIdCounter (basePass w) - 1)) =
    filter (fun id => Event.signer (events_get (basePass w) id) = address)
      (ids_from 1 (N.to_nat (_eventIdCounter (basePass w) - 1)))).
  { unfold Frontend.filterUserEvents.
    destruct (N.eqb_spec (_eventIdCounter (basePass w) - 1) 0) as [H0|H0].
    - rewrite H0. reflexivity.
    - rewrite filterUserEvents_from_spec by (try done; lia). reflexivity. }
  split; [exact Heq|].
  intros Ha eventId. rewrite Heq, list_elem_of_filter, elem_of_ids_from.
  unfold BasePass.getEvent. split.
  - intros [Hsig Hid].
    exists (events_get (basePass w) eventId).
    rewrite (ri_events_dense _ Hreg eventId) by lia. done.
  - intros (ev & Hget & Hsig).
    destruct (Event.exists_ (events_get (basePass w) eventId)) eqn:Hex;
      [|discriminate].
    injection Hget as <-. split; [exact Hsig|].
    apply (pi_events _ Hp) in Hex. lia.
Qed.

Lemma filterUserEvents_lists_own_events_witness :
  Frontend.filterUserEvents ex_claimed (Some ex_B) (Some 1) =
    filter (fun id => Event.signer (events_get (basePass ex_claimed) id) = ex_B)
      (ids_from 1 (N.to_nat 1)) /\
  (ex_B <> 0 ->
   forall eventId,
     eventId ∈ Frontend.filterUserEvents ex_claimed (Some ex_B) (Some 1) <->
     exists ev, BasePass.getEvent (basePass ex_claimed) eventId = Ok ev /\
                Event.signer ev = ex_B).
Proof.
  apply (filterUserEvents_lists_own_events ex_crypto ex_claimed ex_B 1
           ex_claimed_reachable).
  vm_compute. reflexivity.
Defined.

(** ** The creation form and the cooldown *)

(** X14.  For times that are Numbers (below 2^53, as every clock reading
    is), the submit button of the creation form is disabled
    ([isRateLimited]) exactly when [createEvent] would be rejected with
    [RateLimited] at the same time, for an account that has created an event
    before; [canCreateEvent] is the negation of [isRateLimited].  For an
    account that never created an event the form reports no limit. *)
Theorem creation_form_agrees_with_cooldown (env : Env) (sender : N)
  (name description iconUrl : string) (signer : N) (s : BasePass.Storage) :
  let last := get (lastEventCreation s) sender in
  let timeLeft :=
    Frontend.updateTimeLeft (Some last) (Some EVENT_COOLDOWN)
      (Z.of_N (block_timestamp env)) in
  last + EVENT_COOLDOWN < 2 ^ 53 ->
  block_timestamp env < 2 ^ 53 ->
  Frontend.canCreateEvent timeLeft = negb (Frontend.isRateLimited timeLeft) /\
  (last = 0 -> Frontend.isRateLimited timeLeft = false) /\
  (last <> 0 ->
   (Frontend.isRateLimited timeLeft = true <->
    BasePass.createEvent env sender name description iconUrl signer s
      = Revert RateLimited)).
Proof.
  intros last timeLeft Hsafe Hnow.
  assert (H53 : (2 ^ 53)%Z = Z.of_N (2 ^ 53)) by (vm_compute; reflexivity).
  assert (Hmax : last + EVENT_COOLDOWN <= MAX_UINT256).
  { assert (2 ^ 53 <= MAX_UINT256) by (vm_compute; discriminate). lia. }
  split; [|split].
  - destruct timeLeft as [t|]; simpl; [|reflexivity].
    destruct (Z.leb_spec t 0), (Z.ltb_spec 0 t); try reflexivity; lia.
  - intros Hl. subst timeLeft. rewrite Hl. reflexivity.
  - intros Hl. subst timeLeft.
    rewrite updateTimeLeft_exact by (unfold EVENT_COOLDOWN in *; lia).
    unfold Frontend.isRateLimited.
    apply N.eqb_neq in Hl. rewrite Hl.
    change (EVENT_COOLDOWN =? 0) with false. cbn [orb].
    unfold EVENT_COOLDOWN in *.
    set (remaining := (Z.of_N last + Z.of_N 3600 - Z.of_N (block_timestamp env))%Z).
    rewrite createEvent_eq. unfold createEvent_check. fold last.
    unfold EVENT_COOLDOWN.
    destruct (N.leb_spec (last + 3600) MAX_UINT256) as [_|?]; [|lia].
    destruct (N.leb_spec (last + 3600) (block_timestamp env)) as [Hle|Hgt].
    + destruct (Z.leb_spec remaining 0); [|unfold remaining in *; lia].
      split; [discriminate|].
      destruct (negb (signer =? 0)); [|discriminate].
      destruct (_ && _); [|discriminate].
      destruct (_ <=? 500); [|discriminate].
      destruct (_ <=? MAX_UINT256); discriminate.
    + destruct (Z.leb_spec remaining 0); [unfold remaining in *; lia|].
      split; [reflexivity|]. intros _. apply Z.ltb_lt. lia.
Qed.

Lemma creation_form_agrees_with_cooldown_witness :
  Frontend.isRateLimited
    (Frontend.updateTimeLeft
       (Some (get (lastEventCreation (basePass ex_ready)) ex_B))
       (Some EVENT_COOLDOWN)
       (Z.of_N (block_timestamp (ex_env (ex_now + 1800))))) = true <->
  BasePass.createEvent (ex_env (ex_now + 1800)) ex_B "Second" "" "" ex_B
    (basePass ex_ready) = Revert RateLimited.
Proof.
  apply (creation_form_agrees_with_cooldown (ex_env (ex_now + 1800)) ex_B
           "Second" "" "" ex_B (basePass ex_ready)).
  - vm_compute. reflexivity.
  - vm_compute. reflexivity.
  - vm_compute. discriminate.
Defined.

(** ** The contract that keeps the stamps itself: [contracts/BasePass.sol] *)

(** The token storage after the transfer of [tokenId] from [from] to [to]. *)
Definition transferred (e : ERC721.Storage) (from to tokenId : N) : ERC721.Storage :=
  let e1 := ERC721.set_tokenApproval e tokenId 0 in
  let e2 := ERC721.set_balance e1 from
              (unchecked_sub (get (ERC721._balances e1) from) 1) in
  let e3 := ERC721.set_balance e2 to
              (unchecked_add (get (ERC721._balances e2) to) 1) in
  ERC721.set_owner e3 tokenId to.

Lemma ERC721_update_transfer (e : ERC721.Storage) (to tokenId auth : N) :
  approvals_inv e -> auth <> 0 -> to <> 0 ->
  ERC721._update to tokenId auth e =
    let from := ERC721._ownerOf e tokenId in
    if from =? 0 then Revert (ERC721NonexistentToken tokenId)
    else if ERC721._isAuthorized e from auth tokenId
         then Ok (from, transferred e from to tokenId)
         else Revert (ERC721InsufficientApproval auth tokenId).
Proof.
  intros Happ Hauth Hto. cbv zeta.
  destruct (N.eqb_spec (ERC721._ownerOf e tokenId) 0) as [H0|H0].
  { apply ERC721_update_auth_nonexistent; done. }
  unfold ERC721._update. apply N.eqb_neq in Hauth as Hauth'.
  apply N.eqb_neq in Hto as Hto'. apply N.eqb_neq in H0 as H0'.
  rewrite Hauth'. cbn [negb]. unfold ERC721._checkAuthorized.
  destruct (ERC721._isAuthorized e (ERC721._ownerOf e tokenId) auth tokenId).
  - cbn [mbind Result_bind]. rewrite H0', Hto'. cbn [negb].
    unfold ERC721._approve. rewrite N.eqb_refl. reflexivity.
  - rewrite H0'. reflexivity.
Qed.

Lemma approvals_inv_transferred (e : ERC721.Storage) (from to tokenId : N) :
  approvals_inv e -> to <> 0 -> approvals_inv (transferred e from to tokenId).
Proof.
  intros [Happ Hop] Hto. split.
  - intros id. unfold ERC721._getApproved, ERC721._ownerOf, transferred. simpl.
    rewrite !get_insert. destruct (decide (tokenId = id)); [done|]. apply Happ.
  - exact Hop.
Qed.

Lemma token_inv_transferred (e : ERC721.Storage) (counter to tokenId : N) :
  token_inv e counter -> ERC721._ownerOf e tokenId <> 0 -> to <> 0 ->
  token_inv (transferred e (ERC721._ownerOf e tokenId) to tokenId) counter.
Proof.
  intros [Hc Hfresh Hdense Happ] Hown Hto. split.
  - exact Hc.
  - intros id. unfold ERC721._ownerOf, transferred. simpl. rewrite get_insert.
    destruct (decide (tokenId = id)) as [<-|]; [intros _; apply Hfresh, Hown|].
    apply Hfresh.
  - intros id Hid. unfold ERC721._ownerOf, transferred. simpl. rewrite get_insert.
    destruct (decide (tokenId = id)); [done|]. apply Hdense, Hid.
  - apply approvals_inv_transferred; done.
Qed.

Definition sa_owner (s : Standalone.Storage) (tokenId : N) : N :=
  ERC721._ownerOf (Standalone.erc721 s) tokenId.

(** What holds in every state of the contract. *)
Record standalone_inv (s : Standalone.Storage) : Prop := {
  sa_status : Standalone._status s = ReentrancyGuard.NOT_ENTERED;
  sa_token : token_inv (Standalone.erc721 s) (Standalone._tokenIdCounter s);
  sa_events_counter : 1 <= Standalone._eventIdCounter s <= MAX_UINT256;
  sa_events : forall eventId,
    Event.exists_ (Standalone.events_get s eventId) = true <->
    1 <= eventId < Standalone._eventIdCounter s;
  sa_events_valid : forall eventId,
    Event.exists_ (Standalone.events_get s eventId) = true ->
    Event.id (Standalone.events_get s eventId) = eventId /\
    Event.signer (Standalone.events_get s eventId) <> 0;
  sa_stamps : forall tokenId eventId,
    Standalone.hasStamp s tokenId eventId = true <->
    exists claimer, StampClaimed tokenId eventId claimer ∈ Standalone.emitted s;
  sa_stamps_valid : forall tokenId eventId,
    Standalone.hasStamp s tokenId eventId = true ->
    sa_owner s tokenId <> 0 /\
    Event.exists_ (Standalone.events_get s eventId) = true
}.

(** The state after [sender] minted the passport numbered by the counter. *)
Definition sa_minted (s : Standalone.Storage) (sender : N) : Standalone.Storage :=
  {| Standalone.erc721 :=
       ERC721.set_owner
         (ERC721.set_balance (Standalone.erc721 s) sender
            (unchecked_add (get (ERC721._balances (Standalone.erc721 s)) sender) 1))
         (Standalone._tokenIdCounter s) sender;
     Standalone._owner := Standalone._owner s;
     Standalone._status := ReentrancyGuard.NOT_ENTERED;
     Standalone._tokenIdCounter := Standalone._tokenIdCounter s + 1;
     Standalone._eventIdCounter := Standalone._eventIdCounter s;
     Standalone.stamps := Standalone.stamps s;
     Standalone.usedNonces := Standalone.usedNonces s;
     Standalone.events := Standalone.events s;
     Standalone.emitted :=
       Standalone.emitted s ++ [PassportMinted sender (Standalone._tokenIdCounter s)] |}.

Lemma sa_mintPassport_eq (env : Env) (sender : N) (s : Standalone.Storage) :
  standalone_inv s -> sender <> 0 ->
  Standalone.mintPassport env sender s =
    if Standalone._tokenIdCounter s + 1 <=? MAX_UINT256 then
      match ERC721._checkOnERC721Received env sender 0 sender
              (Standalone._tokenIdCounter s) [] with
      | Ok _ => Ok (sa_minted s sender)
      | Revert e => Revert e
      end
    else Revert (Panic 17).
Proof.
  intros Hinv Hs. unfold Standalone.mintPassport.
  rewrite (sa_status _ Hinv). simpl. unfold checked_add.
  destruct (N.leb_spec (Standalone._tokenIdCounter s + 1) MAX_UINT256) as [Hc|Hc];
    simpl; [|reflexivity].
  unfold ERC721._safeMint, ERC721._mint. apply N.eqb_neq in Hs as Hs'.
  rewrite Hs'. simpl. unfold Standalone._update. simpl.
  rewrite ERC721_update_mint
    by (try apply (token_inv_counter_free _ _ (sa_token _ Hinv)); done).
  simpl.
  destruct (ERC721._checkOnERC721Received env sender 0 sender
              (Standalone._tokenIdCounter s) []); reflexivity.
Qed.

(** The state after a successful [createEvent]. *)
Definition sa_created (name description iconUrl : string) (signer : N)
  (s : Standalone.Storage) : Standalone.Storage :=
  {| Standalone.erc721 := Standalone.erc721 s;
     Standalone._owner := Standalone._owner s;
     Standalone._status := Standalone._status s;
     Standalone._tokenIdCounter := Standalone._tokenIdCounter s;
     Standalone._eventIdCounter := Standalone._eventIdCounter s + 1;
     Standalone.stamps := Standalone.stamps s;
     Standalone.usedNonces := Standalone.usedNonces s;
     Standalone.events :=
       <[Standalone._eventIdCounter s :=
           {| Event.id := Standalone._eventIdCounter s; Event.name := name;
              Event.description := description; Event.iconUrl := iconUrl;
              Event.signer := signer; Event.exists_ := true |}]>
         (Standalone.events s);
     Standalone.emitted :=
       Standalone.emitted s
         ++ [EventCreated (Standalone._eventIdCounter s) name signer] |}.

Lemma sa_createEvent_eq (sender : N) (name description iconUrl : string)
  (signer : N) (s : Standalone.Storage) :
  Standalone.createEvent sender name description iconUrl signer s =
    if signer =? 0 then Revert (Error_string "Invalid signer address")
    else if Standalone._eventIdCounter s + 1 <=? MAX_UINT256
         then Ok (Standalone._eventIdCounter s,
                  sa_created name description iconUrl signer s)
         else Revert (Panic 17).
Proof.
  unfold Standalone.createEvent, checked_add.
  destruct (signer =? 0); simpl; [reflexivity|].
  destruct (_ <=? MAX_UINT256); reflexivity.
Qed.

(** The checks of [claimStamp], in the order of the code. *)
Definition sa_claim_check (C : Crypto) (env : Env) (sender : N)
  (tokenId eventId nonce expiration : N) (signature : list ascii)
  (s : Standalone.Storage) : Result unit :=
  let owner := sa_owner s tokenId in
  if owner =? 0 then Revert (ERC721NonexistentToken tokenId)
  else if negb (owner =? sender) then Revert NotOwner
  else if negb (Event.exists_ (Standalone.events_get s eventId))
  then Revert EventNotFound
  else if Standalone.hasStamp s tokenId eventId then Revert AlreadyClaimed
  else if getb (Standalone.usedNonces s) nonce then Revert NonceReused
  else if negb (block_timestamp env <=? expiration) then Revert Expired
  else
    match ECDSA.recover C
            (claimDigest C eventId nonce expiration (block_chainid env)) signature
    with
    | Revert e => Revert e
    | Ok recoveredSigner =>
        if negb (recoveredSigner =? Event.signer (Standalone.events_get s eventId))
        then Revert InvalidSignature
        else Ok tt
    end.

(** The state after a successful [claimStamp]. *)
Definition sa_claimed (sender tokenId eventId nonce : N) (s : Standalone.Storage)
  : Standalone.Storage :=
  {| Standalone.erc721 := Standalone.erc721 s;
     Standalone._owner := Standalone._owner s;
     Standalone._status := ReentrancyGuard.NOT_ENTERED;
     Standalone._tokenIdCounter := Standalone._tokenIdCounter s;
     Standalone._eventIdCounter := Standalone._eventIdCounter s;
     Standalone.stamps := <[(tokenId, eventId) := true]> (Standalone.stamps s);
     Standalone.usedNonces := <[nonce := true]> (Standalone.usedNonces s);
     Standalone.events := Standalone.events s;
     Standalone.emitted :=
       Standalone.emitted s ++ [StampClaimed tokenId eventId sender] |}.

Lemma sa_claimStamp_eq (C : Crypto) (env : Env) (sender : N)
  (tokenId eventId nonce expiration : N) (signature : list ascii)
  (s : Standalone.Storage) :
  standalone_inv s ->
  Standalone.claimStamp C env sender tokenId eventId nonce expiration signature s =
    match sa_claim_check C env sender tokenId eventId nonce expiration signature s
    with
    | Ok _ => Ok (sa_claimed sender tokenId eventId nonce s)
    | Revert e => Revert e
    end.
Proof.
  intros Hinv. unfold Standalone.claimStamp, sa_claim_check, sa_owner,
    Standalone.hasStamp, Standalone.events_get.
  rewrite (sa_status _ Hinv). simpl.
  unfold ERC721.ownerOf, ERC721._requireOwned.
  destruct (ERC721._ownerOf (Standalone.erc721 s) tokenId =? 0); simpl;
    [reflexivity|].
  destruct (ERC721._ownerOf (Standalone.erc721 s) tokenId =? sender); simpl;
    [|reflexivity].
  destruct (Event.exists_ _); simpl; [|reflexivity].
  destruct (getb (Standalone.stamps s) (tokenId, eventId)); simpl; [reflexivity|].
  destruct (getb (Standalone.usedNonces s) nonce); simpl; [reflexivity|].
  destruct (block_timestamp env <=? expiration); simpl; [|reflexivity].
  destruct (ECDSA.recover C _ signature) as [recovered|]; simpl; [|reflexivity].
  destruct (recovered =? _); simpl; reflexivity.
Qed.

Lemma sa_transferFrom_eq (sender from to tokenId : N) (s : Standalone.Storage) :
  standalone_inv s -> sender <> 0 ->
  Standalone.transferFrom sender from to tokenId s =
    if to =? 0 then Revert (ERC721InvalidReceiver 0)
    else if sa_owner s tokenId =? 0 then Revert (ERC721NonexistentToken tokenId)
    else if ERC721._isAuthorized (Standalone.erc721 s) (sa_owner s tokenId) sender
              tokenId
    then
      if sa_owner s tokenId =? from
      then Ok (Standalone.set_erc721 s
                 (transferred (Standalone.erc721 s) from to tokenId))
      else Revert (ERC721IncorrectOwner from tokenId (sa_owner s tokenId))
    else Revert (ERC721InsufficientApproval sender tokenId).
Proof.
  intros Hinv Hs. unfold Standalone.transferFrom, ERC721.transferFrom.
  destruct (N.eqb_spec to 0) as [|Hto]; simpl; [reflexivity|].
  unfold Standalone._update.
  rewrite ERC721_update_transfer
    by (try apply (ti_approvals _ _ (sa_token _ Hinv)); done).
  cbv zeta. fold (sa_owner s tokenId).
  destruct (sa_owner s tokenId =? 0); simpl; [reflexivity|].
  destruct (ERC721._isAuthorized _ _ _ _); simpl; [|reflexivity].
  destruct (N.eqb_spec (sa_owner s tokenId) from) as [->|]; simpl; reflexivity.
Qed.

(** What a call leaves untouched or only extends. *)
Record sa_extends (s s' : Standalone.Storage) : Prop := {
  se_stamps : forall tokenId eventId,
    Standalone.hasStamp s tokenId eventId = true ->
    Standalone.hasStamp s' tokenId eventId = true;
  se_nonces : forall nonce,
    getb (Standalone.usedNonces s) nonce = true ->
    getb (Standalone.usedNonces s') nonce = true;
  se_events : forall eventId,
    Event.exists_ (Standalone.events_get s eventId) = true ->
    Standalone.events_get s' eventId = Standalone.events_get s eventId;
  se_minted : forall tokenId, sa_owner s tokenId <> 0 -> sa_owner s' tokenId <> 0
}.

Lemma sa_extends_refl (s : Standalone.Storage) : sa_extends s s.
Proof. split; done. Qed.

Lemma sa_extends_trans (s1 s2 s3 : Standalone.Storage) :
  sa_extends s1 s2 -> sa_extends s2 s3 -> sa_extends s1 s3.
Proof.
  intros [A1 B1 C1 D1] [A2 B2 C2 D2]. split; auto.
  intros eventId H. rewrite <- (C1 _ H). apply C2. rewrite (C1 _ H). exact H.
Qed.

Lemma standalone_inv_erc721 (s : Standalone.Storage) (e : ERC721.Storage) :
  token_inv e (Standalone._tokenIdCounter s) ->
  (forall tokenId, sa_owner s tokenId <> 0 -> ERC721._ownerOf e tokenId <> 0) ->
  standalone_inv s -> standalone_inv (Standalone.set_erc721 s e).
Proof.
  intros Ht Ho [Hst Htok Hec Hev Hevv Hsl Hsv].
  split; try done. intros tokenId eventId H.
  destruct (Hsv _ _ H) as [H1 H2]. split; [|exact H2]. apply Ho, H1.
Qed.

Lemma standalone_step (C : Crypto) (env : Env) (sender : N) (c : Standalone.Call)
  (s s' : Standalone.Storage) :
  standalone_inv s -> sender <> 0 ->
  Standalone.execute C env sender c s = Ok s' ->
  standalone_inv s' /\ sa_extends s s'.
Proof.
  intros Hinv Hs He.
  pose proof Hinv as [Hst Htok Hec Hev Hevv Hsl Hsv].
  pose proof (ti_approvals _ _ Htok) as Happ.
  destruct c; cbn [Standalone.execute] in He.
  - (* mintPassport *)
    rewrite sa_mintPassport_eq in He by done.
    destruct (N.leb_spec (Standalone._tokenIdCounter s + 1) MAX_UINT256) as [Hc|];
      [|discriminate].
    destruct (ERC721._checkOnERC721Received _ _ _ _ _ _); [|discriminate].
    injection He as <-.
    pose proof (token_inv_counter_free _ _ Htok) as Hfree.
    destruct Htok as [Hcnt Hfresh Hdense _].
    assert (Hown : forall id, sa_owner (sa_minted s sender) id =
              if decide (Standalone._tokenIdCounter s = id) then sender
              else sa_owner s id).
    { intros id. unfold sa_owner, ERC721._ownerOf. simpl. rewrite get_insert. done. }
    split.
    + split; try done; simpl.
      * split.
        -- lia.
        -- intros id. change (sa_owner (sa_minted s sender) id <> 0 -> 1 <= id < Standalone._tokenIdCounter s + 1).
           rewrite Hown.
           destruct (decide _) as [<-|]; [lia|]. intros H. apply Hfresh in H. lia.
        -- intros id Hid. change (sa_owner (sa_minted s sender) id <> 0).
           rewrite Hown.
           destruct (decide _) as [<-|]; [done|]. apply Hdense. lia.
        -- apply approvals_inv_mint; done.
      * intros tokenId eventId.
        change (Standalone.hasStamp (sa_minted s sender) tokenId eventId)
          with (Standalone.hasStamp s tokenId eventId).
        rewrite Hsl. split; intros [claimer H]; exists claimer.
        -- apply elem_of_app. left. exact H.
        -- apply elem_of_app in H as [H|H]; [exact H|].
           apply list_elem_of_singleton in H. discriminate.
      * intros tokenId eventId H.
        change (Standalone.hasStamp (sa_minted s sender) tokenId eventId)
          with (Standalone.hasStamp s tokenId eventId) in H.
        destruct (Hsv _ _ H) as [H1 H2]. split; [|exact H2].
        rewrite Hown. destruct (decide _); done.
    + split; try done. intros id H. rewrite Hown. destruct (decide _); done.
  - (* createEvent *)
    rewrite sa_createEvent_eq in He.
    destruct (N.eqb_spec signer 0) as [|Hsig]; [discriminate|].
    destruct (N.leb_spec (Standalone._eventIdCounter s + 1) MAX_UINT256) as [Hc|];
      [|discriminate].
    simpl in He. injection He as <-.
    assert (Hget : forall id,
      Standalone.events_get (sa_created name description iconUrl signer s) id =
        if decide (Standalone._eventIdCounter s = id)
        then {| Event.id := Standalone._eventIdCounter s; Event.name := name;
                Event.description := description; Event.iconUrl := iconUrl;
                Event.signer := signer; Event.exists_ := true |}
        else Standalone.events_get s id).
    { intros id. unfold Standalone.events_get. simpl. rewrite lookup_insert.
      destruct (decide _); done. }
    assert (Hfree : Event.exists_ (Standalone.events_get s
                      (Standalone._eventIdCounter s)) = false).
    { destruct (Event.exists_ _) eqn:Hex; [|done]. apply Hev in Hex. lia. }
    split.
    + split; try done; simpl.
      * lia.
      * intros id. rewrite Hget. destruct (decide _) as [<-|]; simpl.
        -- split; [lia|done].
        -- rewrite Hev. lia.
      * intros id. rewrite Hget. destruct (decide _) as [<-|]; simpl; [done|].
        apply Hevv.
      * intros tokenId eventId.
        change (Standalone.hasStamp (sa_created name description iconUrl signer s)
                  tokenId eventId)
          with (Standalone.hasStamp s tokenId eventId).
        rewrite Hsl. split; intros [claimer H]; exists claimer.
        -- apply elem_of_app. left. exact H.
        -- apply elem_of_app in H as [H|H]; [exact H|].
           apply list_elem_of_singleton in H. discriminate.
      * intros tokenId eventId H.
        change (Standalone.hasStamp (sa_created name description iconUrl signer s)
                  tokenId eventId)
          with (Standalone.hasStamp s tokenId eventId) in H.
        destruct (Hsv _ _ H) as [H1 H2]. split; [exact H1|].
        rewrite Hget. destruct (decide _); done.
    + split; try done. intros id H. rewrite Hget.
      destruct (decide _) as [<-|]; [congruence|done].
  - (* claimStamp *)
    rewrite sa_claimStamp_eq in He by done.
    destruct (sa_claim_check _ _ _ _ _ _ _ _ _) as [[]|] eqn:Hck; [|discriminate].
    injection He as <-.
    unfold sa_claim_check in Hck.
    destruct (N.eqb_spec (sa_owner s tokenId) 0) as [|Hown]; [discriminate|].
    destruct (N.eqb_spec (sa_owner s tokenId) sender) as [Hos|]; [|discriminate].
    destruct (Event.exists_ (Standalone.events_get s eventId)) eqn:Hex;
      [|discriminate].
    clear Hck.
    assert (Hhas : forall t e,
      Standalone.hasStamp (sa_claimed sender tokenId eventId nonce s) t e =
        if decide ((tokenId, eventId) = (t, e)) then true
        else Standalone.hasStamp s t e).
    { intros t e. unfold Standalone.hasStamp. simpl. apply getb_insert. }
    split.
    + split; try done; simpl.
      * intros t e. rewrite Hhas.
        destruct (decide _) as [[= <- <-]|Hne].
        -- split; [|done]. intros _. exists sender. apply elem_of_app. right.
           apply list_elem_of_singleton. done.
        -- rewrite Hsl. split; intros [claimer H]; exists claimer.
           ++ apply elem_of_app. left. exact H.
           ++ apply elem_of_app in H as [H|H]; [exact H|].
              apply list_elem_of_singleton in H. injection H as -> -> _. done.
      * intros t e. rewrite Hhas.
        destruct (decide _) as [[= <- <-]|Hne]; [done|]. apply Hsv.
    + split; try done.
      * intros t e H. rewrite Hhas. destruct (decide _); done.
      * intros n H. simpl. rewrite getb_insert. destruct (decide _); done.
  - (* approve *)
    unfold Standalone.approve in He.
    destruct (ERC721.approve _ _ _ _) as [e|] eqn:Ha; [|discriminate].
    simpl in He. injection He as <-. apply ERC721_approve_Ok in Ha as [Ho ->].
    split; [|split; done].
    apply standalone_inv_erc721; [|done..].
    destruct Htok as [? ? ? ?]. split; try done. apply approvals_inv_approve; done.
  - (* setApprovalForAll *)
    unfold Standalone.setApprovalForAll in He.
    destruct (ERC721.setApprovalForAll _ _ _ _) as [e|] eqn:Ha; [|discriminate].
    simpl in He. injection He as <-. apply ERC721_setApprovalForAll_Ok in Ha as ->.
    split; [|split; done].
    apply standalone_inv_erc721; [|done..].
    destruct Htok as [? ? ? ?]. split; try done. apply approvals_inv_operator; done.
  - (* transferFrom *)
    rewrite sa_transferFrom_eq in He by done.
    destruct (N.eqb_spec to 0) as [|Hto]; [discriminate|].
    destruct (N.eqb_spec (sa_owner s tokenId) 0) as [|Hown]; [discriminate|].
    destruct (ERC721._isAuthorized _ _ _ _); [|discriminate].
    destruct (N.eqb_spec (sa_owner s tokenId) from) as [Hf|]; [|discriminate].
    injection He as <-. subst from.
    assert (Ho : forall id,
      ERC721._ownerOf (transferred (Standalone.erc721 s) (sa_owner s tokenId) to
                         tokenId) id <> 0 <-> sa_owner s id <> 0).
    { intros id. unfold ERC721._ownerOf, transferred, sa_owner. simpl.
      rewrite get_insert. destruct (decide (tokenId = id)) as [<-|]; [|done].
      split; done. }
    split; [|split; try done; intros id H; apply Ho, H].
    apply standalone_inv_erc721; [|intros id H; apply Ho, H|done].
    apply token_inv_transferred; done.
  - (* safeTransferFrom *)
    unfold Standalone.safeTransferFrom, ERC721.safeTransferFrom in He.
    fold (Standalone.transferFrom sender from to tokenId s) in He.
    rewrite sa_transferFrom_eq in He by done.
    destruct (N.eqb_spec to 0) as [|Hto]; [discriminate|].
    destruct (N.eqb_spec (sa_owner s tokenId) 0) as [|Hown]; [discriminate|].
    destruct (ERC721._isAuthorized _ _ _ _); [|discriminate].
    destruct (N.eqb_spec (sa_owner s tokenId) from) as [Hf|]; [|discriminate].
    simpl in He.
    destruct (ERC721._checkOnERC721Received _ _ _ _ _ _); [|discriminate].
    simpl in He. injection He as <-. subst from.
    assert (Ho : forall id,
      ERC721._ownerOf (transferred (Standalone.erc721 s) (sa_owner s tokenId) to
                         tokenId) id <> 0 <-> sa_owner s id <> 0).
    { intros id. unfold ERC721._ownerOf, transferred, sa_owner. simpl.
      rewrite get_insert. destruct (decide (tokenId = id)) as [<-|]; [|done].
      split; done. }
    split; [|split; try done; intros id H; apply Ho, H].
    apply standalone_inv_erc721; [|intros id H; apply Ho, H|done].
    apply token_inv_transferred; done.
  - (* transferOwnership *)
    unfold Standalone.transferOwnership, Ownable.transferOwnership in He.
    destruct (Ownable._checkOwner _ _); [|discriminate]. simpl in He.
    destruct (revert_if _ _); [|discriminate]. simpl in He.
    injection He as <-. split; split; done.
  - (* renounceOwnership *)
    unfold Standalone.renounceOwnership, Ownable.renounceOwnership in He.
    destruct (Ownable._checkOwner _ _); [|discriminate]. simpl in He.
    injection He as <-. split; split; done.
Qed.

Lemma standalone_constructor (deployer : N) (s : Standalone.Storage) :
  Standalone.constructor deployer = Ok s -> standalone_inv s.
Proof.
  unfold Standalone.constructor, revert_if.
  destruct (deployer =? 0); [discriminate|].
  cbn [mbind Result_bind]. unfold mret, Result_ret. intros [= <-].
  assert (Hone : 1 <= 1 <= MAX_UINT256) by (split; vm_compute; discriminate).
  split; simpl; try done.
  - split.
    + exact Hone.
    + intros id H. exfalso. apply H. reflexivity.
    + intros id Hid. lia.
    + apply approvals_inv_empty.
  - intros id. unfold Standalone.events_get. simpl. rewrite lookup_empty. simpl.
    split; [discriminate|lia].
  - intros t e. unfold Standalone.hasStamp, getb. simpl. rewrite lookup_empty.
    simpl. split; [discriminate|]. intros [claimer H]. inversion H.
Qed.

Lemma standalone_reachable (C : Crypto) (s : Standalone.Storage) :
  Standalone.reachable C s -> standalone_inv s.
Proof.
  induction 1 as [deployer s Hc|s env sender c s' _ IH Hs He].
  - exact (standalone_constructor _ _ Hc).
  - exact (proj1 (standalone_step _ _ _ _ _ _ IH Hs He)).
Qed.

Lemma standalone_steps (C : Crypto) (s s' : Standalone.Storage) :
  standalone_inv s -> Standalone.steps C s s' ->
  standalone_inv s' /\ sa_extends s s'.
Proof.
  intros Hinv Hsteps. revert Hinv.
  induction Hsteps as [s|s env sender c s' s'' _ IH Hs He]; intros Hinv.
  - split; [exact Hinv|apply sa_extends_refl].
  - destruct (IH Hinv) as [IH1 IH2].
    destruct (standalone_step _ _ _ _ _ _ IH1 Hs He) as [H1 H2].
    split; [exact H1|]. exact (sa_extends_trans _ _ _ IH2 H2).
Qed.

Lemma checkOnERC721Received_account (env : Env) (operator from to tokenId : N)
  (data : list ascii) :
  code_length env to = 0 ->
  ERC721._checkOnERC721Received env operator from to tokenId data = Ok tt.
Proof. unfold ERC721._checkOnERC721Received. intros ->. reflexivity. Qed.

(** A total version of [execute], for the examples. *)
Definition sa_transact (C : Crypto) (env : Env) (sender : N) (c : Standalone.Call)
  (s : Standalone.Storage) : Standalone.Storage :=
  match Standalone.execute C env sender c s with
  | Ok s' => s'
  | Revert _ => s
  end.

Definition sa_deployed : Standalone.Storage :=
  {| Standalone.erc721 := ERC721.empty; Standalone._owner := ex_deployer;
     Standalone._status := ReentrancyGuard.NOT_ENTERED;
     Standalone._tokenIdCounter := 1; Standalone._eventIdCounter := 1;
     Standalone.stamps := ∅; Standalone.usedNonces := ∅;
     Standalone.events := ∅; Standalone.emitted := [] |}.

(** A mints passport 1, B registers event 1 with signer B. *)
Definition sa_ready : Standalone.Storage :=
  sa_transact ex_crypto (ex_env ex_now) ex_B
    (Standalone.call_createEvent "Meetup" "Monthly meetup" "" ex_B)
    (sa_transact ex_crypto (ex_env ex_now) ex_A Standalone.call_mintPassport
       sa_deployed).

(** A claims the stamp of event 1 on passport 1. *)
Definition sa_stamped : Standalone.Storage :=
  sa_transact ex_crypto (ex_env ex_now) ex_A
    (Standalone.call_claimStamp 1 1 ex_nonce (ex_now + 3600) ex_signature)
    sa_ready.

Lemma sa_transact_reachable (C : Crypto) (env : Env) (sender : N)
  (c : Standalone.Call) (s : Standalone.Storage) :
  Standalone.reachable C s -> sender <> 0 ->
  Standalone.reachable C (sa_transact C env sender c s).
Proof.
  intros Hr Hs. unfold sa_transact.
  destruct (Standalone.execute C env sender c s) eqn:He; [|exact Hr].
  exact (Standalone.reachable_step _ _ _ _ _ _ Hr Hs He).
Qed.

Lemma sa_deployed_reachable : Standalone.reachable ex_crypto sa_deployed.
Proof. apply (Standalone.reachable_constructor _ ex_deployer). reflexivity. Qed.

Lemma sa_ready_reachable : Standalone.reachable ex_crypto sa_ready.
Proof.
  unfold sa_ready.
  repeat (apply sa_transact_reachable; [|discriminate]).
  exact sa_deployed_reachable.
Qed.

Lemma sa_stamped_reachable : Standalone.reachable ex_crypto sa_stamped.
Proof.
  unfold sa_stamped. apply sa_transact_reachable; [|discriminate].
  exact sa_ready_reachable.
Qed.

(** X15. In the contract of [contracts/BasePass.sol], [mintPassport] has no
    check on the caller's balance: in every state of the contract an account
    without code mints the passport numbered by the counter, the passports
    minted before keep their owners, [totalPassports] counts the new one, and
    the same account, now a holder, mints the next passport as well. *)
Theorem standalone_mint_unrestricted (C : Crypto) (env : Env) (sender : N)
  (s : Standalone.Storage) :
  Standalone.reachable C s -> sender <> 0 ->
  Standalone._tokenIdCounter s + 1 < MAX_UINT256 ->
  code_length env sender = 0 ->
  exists s' s'',
    Standalone.mintPassport env sender s = Ok s' /\
    sa_owner s' (Standalone._tokenIdCounter s) = sender /\
    (forall id, sa_owner s id <> 0 -> sa_owner s' id = sa_owner s id) /\
    Standalone.totalPassports s' = Ok (Standalone._tokenIdCounter s) /\
    Standalone.mintPassport env sender s' = Ok s'' /\
    sa_owner s'' (Standalone._tokenIdCounter s) = sender /\
    sa_owner s'' (Standalone._tokenIdCounter s + 1) = sender.
Proof.
  intros Hr Hs Hc Hcode.
  pose proof (standalone_reachable _ _ Hr) as Hinv.
  assert (Hm : Standalone.mintPassport env sender s = Ok (sa_minted s sender)).
  { rewrite sa_mintPassport_eq by done.
    destruct (N.leb_spec (Standalone._tokenIdCounter s + 1) MAX_UINT256); [|lia].
    rewrite checkOnERC721Received_account by done. reflexivity. }
  assert (Hr' : Standalone.reachable C (sa_minted s sender)).
  { apply (Standalone.reachable_step C s env sender Standalone.call_mintPassport);
      done. }
  pose proof (standalone_reachable _ _ Hr') as Hinv'.
  assert (Hm' : Standalone.mintPassport env sender (sa_minted s sender)
                = Ok (sa_minted (sa_minted s sender) sender)).
  { rewrite sa_mintPassport_eq by done.
    change (Standalone._tokenIdCounter (sa_minted s sender))
      with (Standalone._tokenIdCounter s + 1).
    destruct (N.leb_spec (Standalone._tokenIdCounter s + 1 + 1) MAX_UINT256);
      [|lia].
    rewrite checkOnERC721Received_account by done. reflexivity. }
  assert (Hown : forall s0 id, sa_owner (sa_minted s0 sender) id =
            if decide (Standalone._tokenIdCounter s0 = id) then sender
            else sa_owner s0 id).
  { intros s0 id. unfold sa_owner, ERC721._ownerOf. simpl. rewrite get_insert.
    done. }
  exists (sa_minted s sender), (sa_minted (sa_minted s sender) sender).
  split; [exact Hm|]. split.
  { rewrite Hown. rewrite decide_True; done. }
  split.
  { intros id Hid. rewrite Hown. destruct (decide _) as [<-|]; [|done].
    apply (ti_fresh _ _ (sa_token _ Hinv)) in Hid. lia. }
  split.
  { unfold Standalone.totalPassports, checked_sub. simpl.
    destruct (N.leb_spec 1 (Standalone._tokenIdCounter s + 1)); [|lia].
    f_equal. lia. }
  split; [exact Hm'|]. split.
  - rewrite !Hown. simpl. rewrite decide_False by lia. rewrite decide_True; done.
  - rewrite Hown. simpl. rewrite decide_True; done.
Qed.

Lemma standalone_mint_unrestricted_witness :
  exists s' s'',
    Standalone.mintPassport (ex_env ex_now) ex_A sa_ready = Ok s' /\
    sa_owner s' (Standalone._tokenIdCounter sa_ready) = ex_A /\
    (forall id, sa_owner sa_ready id <> 0 -> sa_owner s' id = sa_owner sa_ready id) /\
    Standalone.totalPassports s' = Ok (Standalone._tokenIdCounter sa_ready) /\
    Standalone.mintPassport (ex_env ex_now) ex_A s' = Ok s'' /\
    sa_owner s'' (Standalone._tokenIdCounter sa_ready) = ex_A /\
    sa_owner s'' (Standalone._tokenIdCounter sa_ready + 1) = ex_A.
Proof.
  apply (standalone_mint_unrestricted ex_crypto (ex_env ex_now) ex_A sa_ready).
  - exact sa_ready_reachable.
  - discriminate.
  - vm_compute. reflexivity.
  - reflexivity.
Defined.

(** X16. In the contract of [contracts/BasePass.sol] a stamp is claimed once
    for a passport and an event: after a successful [claimStamp], whatever
    calls follow, [hasStamp] answers true for the pair, every further
    [claimStamp] for the pair reverts, with the message of the claimed stamp
    when the caller holds the passport, and every [claimStamp] that presents
    the same nonce reverts, for any passport and event. *)
Theorem standalone_claim_once (C : Crypto) (env : Env) (sender : N)
  (tokenId eventId nonce expiration : N) (signature : list ascii)
  (s s1 s2 : Standalone.Storage) :
  Standalone.reachable C s -> sender <> 0 ->
  Standalone.claimStamp C env sender tokenId eventId nonce expiration signature s
    = Ok s1 ->
  Standalone.steps C s1 s2 ->
  Standalone.hasStamp s2 tokenId eventId = true /\
  (forall env' sender' nonce' expiration' signature',
     exists e,
       Standalone.claimStamp C env' sender' tokenId eventId nonce' expiration'
         signature' s2 = Revert e /\
       (sender' = sa_owner s2 tokenId -> e = AlreadyClaimed)) /\
  (forall env' sender' tokenId' eventId' expiration' signature',
     exists e,
       Standalone.claimStamp C env' sender' tokenId' eventId' nonce expiration'
         signature' s2 = Revert e).
Proof.
  intros Hr Hs Hclaim Hsteps.
  pose proof (standalone_reachable _ _ Hr) as Hinv.
  destruct (standalone_step C env sender
              (Standalone.call_claimStamp tokenId eventId nonce expiration
                 signature) s s1 Hinv Hs Hclaim) as [Hinv1 _].
  destruct (standalone_steps _ _ _ Hinv1 Hsteps) as [Hinv2 Hext].
  rewrite sa_claimStamp_eq in Hclaim by done.
  destruct (sa_claim_check _ _ _ _ _ _ _ _ _) as [[]|]; [|discriminate].
  injection Hclaim as <-.
  assert (Hhas1 : Standalone.hasStamp
            (sa_claimed sender tokenId eventId nonce s) tokenId eventId = true).
  { unfold Standalone.hasStamp. simpl. rewrite getb_insert, decide_True; done. }
  assert (Hn1 : getb (Standalone.usedNonces
            (sa_claimed sender tokenId eventId nonce s)) nonce = true).
  { simpl. rewrite getb_insert, decide_True; done. }
  pose proof (se_stamps _ _ Hext _ _ Hhas1) as Hhas2.
  pose proof (se_nonces _ _ Hext _ Hn1) as Hn2.
  destruct (sa_stamps_valid _ Hinv2 _ _ Hhas2) as [Hown2 Hex2].
  split; [exact Hhas2|]. split.
  - intros env' sender' nonce' expiration' signature'.
    rewrite sa_claimStamp_eq by done. unfold sa_claim_check.
    apply N.eqb_neq in Hown2 as ->. rewrite Hex2, Hhas2. cbn [negb].
    destruct (N.eqb_spec (sa_owner s2 tokenId) sender') as [Heq|Hne]; cbn [negb].
    + exists AlreadyClaimed. done.
    + exists NotOwner. split; [done|]. intros ->. done.
  - intros env' sender' tokenId' eventId' expiration' signature'.
    rewrite sa_claimStamp_eq by done. unfold sa_claim_check.
    rewrite Hn2.
    destruct (sa_owner s2 tokenId' =? 0); [eauto|].
    destruct (negb (sa_owner s2 tokenId' =? sender')); [eauto|].
    destruct (negb (Event.exists_ _)); [eauto|].
    destruct (Standalone.hasStamp s2 tokenId' eventId'); eauto.
Qed.

Lemma standalone_claim_once_witness :
  Standalone.hasStamp sa_stamped 1 1 = true /\
  (forall env' sender' nonce' expiration' signature',
     exists e,
       Standalone.claimStamp ex_crypto env' sender' 1 1 nonce' expiration'
         signature' sa_stamped = Revert e /\
       (sender' = sa_owner sa_stamped 1 -> e = AlreadyClaimed)) /\
  (forall env' sender' tokenId' eventId' expiration' signature',
     exists e,
       Standalone.claimStamp ex_crypto env' sender' tokenId' eventId' ex_nonce
         expiration' signature' sa_stamped = Revert e).
Proof.
  apply (standalone_claim_once ex_crypto (ex_env ex_now) ex_A 1 1 ex_nonce
           (ex_now + 3600) ex_signature sa_ready sa_stamped sa_stamped).
  - exact sa_ready_reachable.
  - discriminate.
  - vm_compute. reflexivity.
  - apply Standalone.steps_refl.
Defined.

(** X17. In the contract of [contracts/BasePass.sol] a passport can be
    transferred, and its stamps go with it: the holder's [transferFrom] to
    another account succeeds, the passport then belongs to the receiver,
    [hasStamp] answers as before for every event, a claim by the previous
    holder reverts for want of ownership, and the receiver's claim for an
    event already stamped on the passport reverts as already claimed. *)
Theorem standalone_passport_transfers (C : Crypto) (owner to tokenId : N)
  (s : Standalone.Storage) :
  Standalone.reachable C s ->
  sa_owner s tokenId = owner -> owner <> 0 -> to <> 0 -> to <> owner ->
  exists s',
    Standalone.transferFrom owner owner to tokenId s = Ok s' /\
    sa_owner s' tokenId = to /\
    (forall eventId,
       Standalone.hasStamp s' tokenId eventId = Standalone.hasStamp s tokenId eventId) /\
    (forall env eventId nonce expiration signature,
       Standalone.claimStamp C env owner tokenId eventId nonce expiration
         signature s' = Revert NotOwner) /\
    (forall env eventId nonce expiration signature,
       Standalone.hasStamp s tokenId eventId = true ->
       Standalone.claimStamp C env to tokenId eventId nonce expiration
         signature s' = Revert AlreadyClaimed).
Proof.
  intros Hr Hown Ho Hto Hne.
  pose proof (standalone_reachable _ _ Hr) as Hinv.
  set (s' := Standalone.set_erc721 s
               (transferred (Standalone.erc721 s) owner to tokenId)).
  assert (Ht : Standalone.transferFrom owner owner to tokenId s = Ok s').
  { rewrite sa_transferFrom_eq by done. rewrite Hown.
    apply N.eqb_neq in Hto as ->. apply N.eqb_neq in Ho as Ho'. rewrite Ho'.
    unfold ERC721._isAuthorized. rewrite Ho', N.eqb_refl. reflexivity. }
  assert (Hr' : Standalone.reachable C s').
  { apply (Standalone.reachable_step C s (ex_env 0) owner
             (Standalone.call_transferFrom owner to tokenId)); done. }
  pose proof (standalone_reachable _ _ Hr') as Hinv'.
  assert (Hown' : sa_owner s' tokenId = to).
  { unfold sa_owner, ERC721._ownerOf, s', transferred. simpl.
    rewrite get_insert, decide_True; done. }
  exists s'. split; [exact Ht|]. split; [exact Hown'|]. split; [done|]. split.
  - intros env eventId nonce expiration signature.
    rewrite sa_claimStamp_eq by done. unfold sa_claim_check. rewrite Hown'.
    apply N.eqb_neq in Hto as ->. apply N.eqb_neq in Hne as ->. reflexivity.
  - intros env eventId nonce expiration signature Hhas.
    rewrite sa_claimStamp_eq by done. unfold sa_claim_check. rewrite Hown'.
    apply N.eqb_neq in Hto as ->. rewrite N.eqb_refl. cbn [negb].
    destruct (sa_stamps_valid _ Hinv _ _ Hhas) as [_ Hex].
    change (Standalone.events_get s' eventId) with (Standalone.events_get s eventId).
    change (Standalone.hasStamp s' tokenId eventId)
      with (Standalone.hasStamp s tokenId eventId).
    rewrite Hex, Hhas. reflexivity.
Qed.

Lemma standalone_passport_transfers_witness :
  exists s',
    Standalone.transferFrom ex_A ex_A ex_B 1 sa_stamped = Ok s' /\
    sa_owner s' 1 = ex_B /\
    (forall eventId,
       Standalone.hasStamp s' 1 eventId = Standalone.hasStamp sa_stamped 1 eventId) /\
    (forall env eventId nonce expiration signature,
       Standalone.claimStamp ex_crypto env ex_A 1 eventId nonce expiration
         signature s' = Revert NotOwner) /\
    (forall env eventId nonce expiration signature,
       Standalone.hasStamp sa_stamped 1 eventId = true ->
       Standalone.claimStamp ex_crypto env ex_B 1 eventId nonce expiration
         signature s' = Revert AlreadyClaimed).
Proof.
  apply (standalone_passport_transfers ex_crypto ex_A ex_B 1 sa_stamped).
  - exact sa_stamped_reachable.
  - reflexivity.
  - discriminate.
  - discriminate.
  - discriminate.
Defined.

(** X18. In the contract of [contracts/BasePass.sol], [createEvent] checks the
    signer and nothing else: with the zero signer it reverts; with any other
    signer it registers the event under the number of the counter whatever the
    name, the description and the time of the block, [getEvent] then returns
    the registered record, the earlier events are unchanged, [totalEvents]
    counts the new one, and the same caller registers one more event in the
    same block. *)
Theorem standalone_createEvent_signer_only (sender : N)
  (name description iconUrl : string) (signer : N) (s : Standalone.Storage) :
  Standalone._eventIdCounter s + 1 < MAX_UINT256 ->
  (signer = 0 ->
   Standalone.createEvent sender name description iconUrl signer s
     = Revert (Error_string "Invalid signer address")) /\
  (signer <> 0 ->
   exists s' s'',
     Standalone.createEvent sender name description iconUrl signer s
       = Ok (Standalone._eventIdCounter s, s') /\
     Standalone.getEvent s' (Standalone._eventIdCounter s)
       = Ok {| Event.id := Standalone._eventIdCounter s; Event.name := name;
               Event.description := description; Event.iconUrl := iconUrl;
               Event.signer := signer; Event.exists_ := true |} /\
     (forall id, id <> Standalone._eventIdCounter s ->
        Standalone.getEvent s' id = Standalone.getEvent s id) /\
     Standalone.totalEvents s' = Ok (Standalone._eventIdCounter s) /\
     Standalone.createEvent sender name description iconUrl signer s'
       = Ok (Standalone._eventIdCounter s + 1, s'')).
Proof.
  intros Hc. split.
  - intros ->. rewrite sa_createEvent_eq. reflexivity.
  - intros Hsig. apply N.eqb_neq in Hsig.
    exists (sa_created name description iconUrl signer s),
      (sa_created name description iconUrl signer
         (sa_created name description iconUrl signer s)).
    assert (Hget : forall id,
      Standalone.events_get (sa_created name description iconUrl signer s) id =
        if decide (Standalone._eventIdCounter s = id)
        then {| Event.id := Standalone._eventIdCounter s; Event.name := name;
                Event.description := description; Event.iconUrl := iconUrl;
                Event.signer := signer; Event.exists_ := true |}
        else Standalone.events_get s id).
    { intros id. unfold Standalone.events_get. simpl. rewrite lookup_insert.
      destruct (decide _); done. }
    split.
    { rewrite sa_createEvent_eq, Hsig.
      destruct (N.leb_spec (Standalone._eventIdCounter s + 1) MAX_UINT256);
        [reflexivity|lia]. }
    split.
    { unfold Standalone.getEvent. rewrite Hget, decide_True by done. reflexivity. }
    split.
    { intros id Hid. unfold Standalone.getEvent. rewrite Hget.
      rewrite decide_False by done. reflexivity. }
    split.
    { unfold Standalone.totalEvents, checked_sub. simpl.
      destruct (N.leb_spec 1 (Standalone._eventIdCounter s + 1)); [|lia].
      f_equal. lia. }
    rewrite sa_createEvent_eq, Hsig.
    change (Standalone._eventIdCounter (sa_created name description iconUrl signer s))
      with (Standalone._eventIdCounter s + 1).
    destruct (N.leb_spec (Standalone._eventIdCounter s + 1 + 1) MAX_UINT256);
      [reflexivity|lia].
Qed.

Lemma standalone_createEvent_signer_only_witness :
  exists s' s'',
    Standalone.createEvent ex_B "" "" "" ex_B sa_ready
      = Ok (Standalone._eventIdCounter sa_ready, s') /\
    Standalone.getEvent s' (Standalone._eventIdCounter sa_ready)
      = Ok {| Event.id := Standalone._eventIdCounter sa_ready; Event.name := "";
              Event.description := ""; Event.iconUrl := "";
              Event.signer := ex_B; Event.exists_ := true |} /\
    (forall id, id <> Standalone._eventIdCounter sa_ready ->
       Standalone.getEvent s' id = Standalone.getEvent sa_ready id) /\
    Standalone.totalEvents s' = Ok (Standalone._eventIdCounter sa_ready) /\
    Standalone.createEvent ex_B "" "" "" ex_B s'
      = Ok (Standalone._eventIdCounter sa_ready + 1, s'').
Proof.
  apply (standalone_createEvent_signer_only ex_B "" "" "" ex_B sa_ready).
  - vm_compute. reflexivity.
  - discriminate.
Defined.

(** X19. In every state of the contract of [contracts/BasePass.sol],
    [hasStamp] answers true for a passport and an event exactly when a
    [StampClaimed] log for the pair has been emitted; the passport of such a
    pair has been minted and [getEvent] returns the event, which carries the
    number asked for and a signer other than the zero address. *)
Theorem standalone_stamps_logged (C : Crypto) (s : Standalone.Storage)
  (tokenId eventId : N) :
  Standalone.reachable C s ->
  (Standalone.hasStamp s tokenId eventId = true <->
   exists claimer, StampClaimed tokenId eventId claimer ∈ Standalone.emitted s) /\
  (Standalone.hasStamp s tokenId eventId = true ->
   (exists holder, ERC721.ownerOf (Standalone.erc721 s) tokenId = Ok holder) /\
   exists ev, Standalone.getEvent s eventId = Ok ev /\
     Event.id ev = eventId /\ Event.signer ev <> 0).
Proof.
  intros Hr. pose proof (standalone_reachable _ _ Hr) as Hinv.
  split; [apply (sa_stamps _ Hinv)|].
  intros Hhas. destruct (sa_stamps_valid _ Hinv _ _ Hhas) as [Hown Hex]. split.
  - exists (sa_owner s tokenId). unfold ERC721.ownerOf, ERC721._requireOwned.
    fold (sa_owner s tokenId). apply N.eqb_neq in Hown as ->. reflexivity.
  - exists (Standalone.events_get s eventId). unfold Standalone.getEvent.
    rewrite Hex. split; [reflexivity|]. apply (sa_events_valid _ Hinv), Hex.
Qed.

Lemma standalone_stamps_logged_witness :
  (Standalone.hasStamp sa_stamped 1 1 = true <->
   exists claimer, StampClaimed 1 1 claimer ∈ Standalone.emitted sa_stamped) /\
  (Standalone.hasStamp sa_stamped 1 1 = true ->
   (exists holder, ERC721.ownerOf (Standalone.erc721 sa_stamped) 1 = Ok holder) /\
   exists ev, Standalone.getEvent sa_stamped 1 = Ok ev /\
     Event.id ev = 1 /\ Event.signer ev <> 0).
Proof.
  apply (standalone_stamps_logged ex_crypto sa_stamped 1 1).
  exact sa_stamped_reachable.
Defined.

(** X20. In every state of the contract of [contracts/BasePass.sol] the two
    totals are answered, and they bound the numbers in use: [ownerOf] answers
    for exactly the passports numbered from 1 to [totalPassports], and
    [getEvent] for exactly the events numbered from 1 to [totalEvents]. *)
Theorem standalone_totals_bound_ids (C : Crypto) (s : Standalone.Storage) :
  Standalone.reachable C s ->
  exists passports events_,
    Standalone.totalPassports s = Ok passports /\
    Standalone.totalEvents s = Ok events_ /\
    (forall tokenId,
       (exists holder, ERC721.ownerOf (Standalone.erc721 s) tokenId = Ok holder)
       <-> 1 <= tokenId <= passports) /\
    (forall eventId,
       (exists ev, Standalone.getEvent s eventId = Ok ev)
       <-> 1 <= eventId <= events_).
Proof.
  intros Hr. pose proof (standalone_reachable _ _ Hr) as Hinv.
  pose proof (sa_token _ Hinv) as [Hc Hfresh Hdense _].
  pose proof (sa_events_counter _ Hinv) as Hec.
  exists (Standalone._tokenIdCounter s - 1), (Standalone._eventIdCounter s - 1).
  split.
  { unfold Standalone.totalPassports, checked_sub.
    destruct (N.leb_spec 1 (Standalone._tokenIdCounter s)); [reflexivity|lia]. }
  split.
  { unfold Standalone.totalEvents, checked_sub.
    destruct (N.leb_spec 1 (Standalone._eventIdCounter s)); [reflexivity|lia]. }
  split.
  - intros tokenId. unfold ERC721.ownerOf, ERC721._requireOwned. cbv zeta.
    destruct (N.eqb_spec (ERC721._ownerOf (Standalone.erc721 s) tokenId) 0)
      as [H0|H0]; simpl.
    + split; [intros [holder H]; discriminate|]. intros Hid. exfalso.
      apply (Hdense tokenId); [lia|exact H0].
    + split; [|eauto]. intros _. apply Hfresh in H0. lia.
  - intros eventId. unfold Standalone.getEvent.
    pose proof (sa_events _ Hinv eventId) as Hev.
    destruct (Event.exists_ (Standalone.events_get s eventId)); simpl.
    + split; [|eauto]. intros _. destruct Hev as [Hev _].
      specialize (Hev eq_refl). lia.
    + split; [intros [ev H]; discriminate|]. intros Hid.
      destruct Hev as [_ Hev]. assert (false = true) by (apply Hev; lia).
      discriminate.
Qed.

Lemma standalone_totals_bound_ids_witness :
  exists passports events_,
    Standalone.totalPassports sa_stamped = Ok passports /\
    Standalone.totalEvents sa_stamped = Ok events_ /\
    (forall tokenId,
       (exists holder,
          ERC721.ownerOf (Standalone.erc721 sa_stamped) tokenId = Ok holder)
       <-> 1 <= tokenId <= passports) /\
    (forall eventId,
       (exists ev, Standalone.getEvent sa_stamped eventId = Ok ev)
       <-> 1 <= eventId <= events_).
Proof.
  apply (standalone_totals_bound_ids ex_crypto sa_stamped).
  exact sa_stamped_reachable.
Defined.
